(** * Morning alarm: trigger time, media cache and scheduling

    A shallow embedding of [src/utils/alarmScheduler.ts],
    [src/utils/audioStorage.ts], the notification-sound cache
    ([utils/notificationSound], the file [src/unnamed/part_000]), the
    scheduling handlers of [src/app/playback.tsx] and the time picker
    and form of [src/app/index.tsx], followed by the properties proved
    about them.

    Conventions of the embedding:
    - a JavaScript string is a [string] of 8-bit code units;
    - a JavaScript number is a [JS.Num]: NaN, an infinity, or an exact
      decimal [mant * 10 ^ exp10] (binary rounding is not modelled);
    - a [Date] is its time value, milliseconds since the epoch or NaN;
      local time is UTC plus a fixed offset (no daylight-saving changes);
    - [async] functions run in the monad [M] over a [World] that holds the
      platform, the clock, the file system, the notification centre, the
      journal of primitive calls and the answers of the environment to
      them (failures included);
    - the functions that [Promise.all] runs side by side are tasks
      ([Tasks]): the same code cut at the host calls it awaits, run in
      every order in which the host may settle those calls. *)

From Stdlib Require Import ZArith Lia List String Ascii Bool.
From stdpp Require Import base option list gmap strings.

Open Scope Z_scope.

(** ** JavaScript values *)

Module JS.

(** *** Strings *)

Definition code (c : ascii) : Z := Z.of_N (N_of_ascii c).

(** [s.split(sep)] for a one-character separator. *)
Fixpoint split (sep : ascii) (s : string) : list string :=
  match s with
  | EmptyString => [EmptyString]
  | String c r =>
      if Ascii.eqb c sep then EmptyString :: split sep r
      else match split sep r with
           | [] => [String c EmptyString]
           | h :: t => String c h :: t
           end
  end.

(** [s.startsWith(p)]. *)
Fixpoint startsWith (p s : string) : bool :=
  match p, s with
  | EmptyString, _ => true
  | String a p', String b s' => Ascii.eqb a b && startsWith p' s'
  | String _ _, EmptyString => false
  end.

(** [s.slice(n)] where [n] is the length of [p]: what follows a prefix. *)
Fixpoint dropPrefix (p s : string) : option string :=
  match p, s with
  | EmptyString, _ => Some s
  | String a p', String b s' => if Ascii.eqb a b then dropPrefix p' s' else None
  | String _ _, EmptyString => None
  end.

(** [s.indexOf(p)] as the text before and after the first occurrence. *)
Fixpoint cutAt (p s : string) : option (string * string) :=
  match dropPrefix p s with
  | Some rest => Some (EmptyString, rest)
  | None =>
      match s with
      | EmptyString => None
      | String c s' =>
          match cutAt p s' with
          | Some (before, after) => Some (String c before, after)
          | None => None
          end
      end
  end.

(** [s.replace(p, r)] with a string pattern: the first occurrence only. *)
Definition replace (p r s : string) : string :=
  match cutAt p s with
  | Some (before, after) => before +:+ r +:+ after
  | None => s
  end.

(** A string is falsy exactly when it is empty. *)
Definition truthy (s : string) : bool :=
  match s with EmptyString => false | _ => true end.

(** *** Numbers *)

Inductive Num : Type :=
  | NaN
  | Infinite (negative : bool)
  | Decimal (mant exp10 : Z).

Definition Int (z : Z) : Num := Decimal z 0.

(** Mantissa of [Decimal m e] rescaled to the exponent [e' <= e]. *)
Definition rescale (m e e' : Z) : Z := m * 10 ^ (e - e').

(** [ToIntegerOrInfinity] on a finite number: truncation towards zero. *)
Definition truncate (m e : Z) : Z :=
  if 0 <=? e then m * 10 ^ e else Z.quot m (10 ^ (- e)).

(** [Math.floor]. *)
Definition floor (x : Num) : Num :=
  match x with
  | Decimal m e => Int (if 0 <=? e then m * 10 ^ e else m / 10 ^ (- e))
  | _ => x
  end.

Definition neg (x : Num) : Num :=
  match x with
  | NaN => NaN
  | Infinite s => Infinite (negb s)
  | Decimal m e => Decimal (- m) e
  end.

(** [x + y]. *)
Definition add (x y : Num) : Num :=
  match x, y with
  | NaN, _ | _, NaN => NaN
  | Infinite a, Infinite b => if Bool.eqb a b then Infinite a else NaN
  | Infinite a, Decimal _ _ => Infinite a
  | Decimal _ _, Infinite b => Infinite b
  | Decimal m1 e1, Decimal m2 e2 =>
      let e := Z.min e1 e2 in
      Decimal (rescale m1 e1 e + rescale m2 e2 e) e
  end.

(** [x - y]. *)
Definition sub (x y : Num) : Num := add x (neg y).

(** [x / 1000]: exact on decimals. *)
Definition divThousand (x : Num) : Num :=
  match x with
  | Decimal m e => Decimal m (e - 3)
  | _ => x
  end.

(** [x <= y]; false as soon as one side is NaN. *)
Definition le (x y : Num) : bool :=
  match x, y with
  | NaN, _ | _, NaN => false
  | Infinite a, Infinite b => implb b a
  | Infinite a, Decimal _ _ => a
  | Decimal _ _, Infinite b => negb b
  | Decimal m1 e1, Decimal m2 e2 =>
      let e := Z.min e1 e2 in
      rescale m1 e1 e <=? rescale m2 e2 e
  end.

(** [Math.max(x, y)]; NaN as soon as one side is NaN. *)
Definition max (x y : Num) : Num :=
  match x, y with
  | NaN, _ | _, NaN => NaN
  | _, _ => if le x y then y else x
  end.

(** *** [Number(string)]: the StringNumericLiteral grammar *)

Definition isDigit (c : ascii) : bool := (48 <=? code c) && (code c <=? 57).

Definition isStrWhiteSpace (c : ascii) : bool :=
  let n := code c in
  ((9 <=? n) && (n <=? 13)) || (n =? 32) || (n =? 160).

Definition digitValue (c : ascii) : Z :=
  let n := code c in
  if (48 <=? n) && (n <=? 57) then n - 48
  else if (97 <=? n) && (n <=? 102) then n - 87
  else if (65 <=? n) && (n <=? 70) then n - 55
  else 99.

Definition digitsValue (radix : Z) (ds : list ascii) : Z :=
  fold_left (fun acc c => radix * acc + digitValue c) ds 0.

Fixpoint spanDigits (l : list ascii) : list ascii * list ascii :=
  match l with
  | c :: r =>
      if isDigit c then let (ds, rest) := spanDigits r in (c :: ds, rest)
      else ([], l)
  | [] => ([], [])
  end.

Fixpoint dropWhiteSpace (l : list ascii) : list ascii :=
  match l with
  | c :: r => if isStrWhiteSpace c then dropWhiteSpace r else l
  | [] => []
  end.

Definition trim (l : list ascii) : list ascii :=
  rev (dropWhiteSpace (rev (dropWhiteSpace l))).

Definition isNil {A} (l : list A) : bool :=
  match l with [] => true | _ => false end.

(** [0x], [0o] and [0b] literals: digits in the radix, nothing else. *)
Definition radixLiteral (radix : Z) (ds : list ascii) : Num :=
  if negb (isNil ds) && forallb (fun c => digitValue c <? radix) ds
  then Int (digitsValue radix ds) else NaN.

(** ExponentPart, or nothing, up to the end of the text. *)
Definition exponentPart (l : list ascii) : option Z :=
  match l with
  | [] => Some 0
  | c :: r =>
      if (code c =? 101) || (code c =? 69) then
        let '(sign, r') :=
          match r with
          | s :: r' =>
              if code s =? 43 then (1, r')
              else if code s =? 45 then (-1, r')
              else (1, r)
          | [] => (1, r)
          end in
        let (ds, rest) := spanDigits r' in
        if negb (isNil ds) && isNil rest then Some (sign * digitsValue 10 ds)
        else None
      else None
  end.

(** StrUnsignedDecimalLiteral other than [Infinity]. *)
Definition unsignedDecimal (sign : Z) (l : list ascii) : Num :=
  let (ip, r1) := spanDigits l in
  let '(dot, fp, r2) :=
    match r1 with
    | c :: r =>
        if code c =? 46 then let (fp, r2) := spanDigits r in (true, fp, r2)
        else (false, [], r1)
    | [] => (false, [], r1)
    end in
  if negb (isNil ip) || (dot && negb (isNil fp)) then
    match exponentPart r2 with
    | Some ex => Decimal (sign * digitsValue 10 (ip ++ fp)) (ex - Z.of_nat (length fp))
    | None => NaN
    end
  else NaN.

Definition strDecimalLiteral (sign : Z) (l : list ascii) : Num :=
  if String.eqb (string_of_list_ascii l) "Infinity"
  then Infinite (sign <? 0)
  else unsignedDecimal sign l.

(** [Number(s)] for a string argument. *)
Definition Number (s : string) : Num :=
  match trim (list_ascii_of_string s) with
  | [] => Int 0
  | c :: r =>
      if code c =? 43 then strDecimalLiteral 1 r
      else if code c =? 45 then strDecimalLiteral (-1) r
      else if code c =? 48 then
        match r with
        | x :: ds =>
            if (code x =? 120) || (code x =? 88) then radixLiteral 16 ds
            else if (code x =? 111) || (code x =? 79) then radixLiteral 8 ds
            else if (code x =? 98) || (code x =? 66) then radixLiteral 2 ds
            else strDecimalLiteral 1 (c :: r)
        | [] => strDecimalLiteral 1 (c :: r)
        end
      else strDecimalLiteral 1 (c :: r)
  end.

(** [ToNumber] of an array element that may be missing ([undefined]). *)
Definition ToNumber (v : option Num) : Num :=
  match v with Some x => x | None => NaN end.

(** [n.toString().padStart(2, '0')] for a non-negative integer below 100. *)
Definition digitChar (d : Z) : ascii := ascii_of_N (Z.to_N (48 + d)).

Definition padStart2 (n : Z) : string :=
  String (digitChar (n / 10)) (String (digitChar (n mod 10)) EmptyString).

End JS.


(** ** [Date]: time values and the calendar of ECMA-262 *)

Module DateTime.

Definition msPerSecond : Z := 1000.
Definition msPerMinute : Z := 60000.
Definition msPerHour : Z := 3600000.
Definition msPerDay : Z := 86400000.

(** Largest magnitude of a valid time value. *)
Definition maxTime : Z := 8640000000000000.

(** A [Date] object is its time value. *)
Inductive Date : Type :=
  | InvalidDate
  | DateAt (t : Z).

Definition Day (t : Z) : Z := t / msPerDay.
Definition TimeWithinDay (t : Z) : Z := t mod msPerDay.

Definition DaysInYear (y : Z) : Z :=
  if negb (y mod 4 =? 0) then 365
  else if negb (y mod 100 =? 0) then 366
  else if negb (y mod 400 =? 0) then 365
  else 366.

Definition DayFromYear (y : Z) : Z :=
  365 * (y - 1970) + (y - 1969) / 4 - (y - 1901) / 100 + (y - 1601) / 400.

(** The largest year that starts on or before day [d]: an estimate from
    the mean length of a year, moved by at most two years. *)
Definition YearFromDay (d : Z) : Z :=
  let y := 1970 + d * 400 / 146097 in
  if d <? DayFromYear (y - 1) then y - 2
  else if d <? DayFromYear y then y - 1
  else if d <? DayFromYear (y + 1) then y
  else if d <? DayFromYear (y + 2) then y + 1
  else y + 2.

Definition YearFromTime (t : Z) : Z := YearFromDay (Day t).

Definition InLeapYear (t : Z) : Z :=
  if DaysInYear (YearFromTime t) =? 366 then 1 else 0.

Definition DayWithinYear (t : Z) : Z := Day t - DayFromYear (YearFromTime t).

(** Day within the year on which month [m] (0 for January) starts. *)
Definition monthStart (leap m : Z) : Z :=
  match m with
  | 0 => 0
  | 1 => 31
  | 2 => 59 + leap
  | 3 => 90 + leap
  | 4 => 120 + leap
  | 5 => 151 + leap
  | 6 => 181 + leap
  | 7 => 212 + leap
  | 8 => 243 + leap
  | 9 => 273 + leap
  | 10 => 304 + leap
  | _ => 334 + leap
  end.

Definition MonthFromTime (t : Z) : Z :=
  let d := DayWithinYear t in
  let leap := InLeapYear t in
  if d <? 31 then 0
  else if d <? 59 + leap then 1
  else if d <? 90 + leap then 2
  else if d <? 120 + leap then 3
  else if d <? 151 + leap then 4
  else if d <? 181 + leap then 5
  else if d <? 212 + leap then 6
  else if d <? 243 + leap then 7
  else if d <? 273 + leap then 8
  else if d <? 304 + leap then 9
  else if d <? 334 + leap then 10
  else 11.

Definition DateFromTime (t : Z) : Z :=
  DayWithinYear t - monthStart (InLeapYear t) (MonthFromTime t) + 1.

Definition HourFromTime (t : Z) : Z := (t / msPerHour) mod 24.
Definition MinFromTime (t : Z) : Z := (t / msPerMinute) mod 60.
Definition SecFromTime (t : Z) : Z := (t / msPerSecond) mod 60.
Definition msFromTime (t : Z) : Z := t mod msPerSecond.

(** Local time is UTC shifted by the offset [tza] of the time zone. *)
Definition LocalTime (tza t : Z) : Z := t + tza.
Definition UTC (tza t : Z) : Z := t - tza.

(** The abstract operations return [None] for NaN. *)
Definition MakeTime (hour min sec ms : JS.Num) : option Z :=
  match hour, min, sec, ms with
  | JS.Decimal hm he, JS.Decimal mm me, JS.Decimal sm se, JS.Decimal im ie =>
      Some (JS.truncate hm he * msPerHour + JS.truncate mm me * msPerMinute
            + JS.truncate sm se * msPerSecond + JS.truncate im ie)
  | _, _, _, _ => None
  end.

Definition MakeDay (year month date : JS.Num) : option Z :=
  match year, month, date with
  | JS.Decimal ym ye, JS.Decimal mm me, JS.Decimal dm de =>
      let y := JS.truncate ym ye in
      let m := JS.truncate mm me in
      let dt := JS.truncate dm de in
      let ym := y + m / 12 in
      let mn := m mod 12 in
      let leap := if DaysInYear ym =? 366 then 1 else 0 in
      Some (DayFromYear ym + monthStart leap mn + dt - 1)
  | _, _, _ => None
  end.

Definition MakeDate (day time : option Z) : option Z :=
  match day, time with
  | Some d, Some t => Some (d * msPerDay + t)
  | _, _ => None
  end.

Definition TimeClip (time : option Z) : Date :=
  match time with
  | Some t => if maxTime <? Z.abs t then InvalidDate else DateAt t
  | None => InvalidDate
  end.

(** [d.getTime()], also the number a [Date] compares as. *)
Definition getTime (d : Date) : JS.Num :=
  match d with DateAt t => JS.Int t | InvalidDate => JS.NaN end.

(** [d.getDate()]: the day of the month in local time. *)
Definition getDate (tza : Z) (d : Date) : JS.Num :=
  match d with
  | DateAt t => JS.Int (DateFromTime (LocalTime tza t))
  | InvalidDate => JS.NaN
  end.

(** [d.setHours(hour, min, sec, ms)]. *)
Definition setHours (tza : Z) (d : Date) (hour min sec ms : JS.Num) : Date :=
  match d with
  | DateAt t =>
      let t := LocalTime tza t in
      let date := MakeDate (Some (Day t)) (MakeTime hour min sec ms) in
      TimeClip (UTC tza <$> date)
  | InvalidDate => InvalidDate
  end.

(** [d.setDate(date)]. *)
Definition setDate (tza : Z) (d : Date) (date : JS.Num) : Date :=
  match d with
  | DateAt t =>
      let t := LocalTime tza t in
      let newDate :=
        MakeDate (MakeDay (JS.Int (YearFromTime t)) (JS.Int (MonthFromTime t)) date)
                 (Some (TimeWithinDay t)) in
      TimeClip (UTC tza <$> newDate)
  | InvalidDate => InvalidDate
  end.

(** [a <= b] on two dates. *)
Definition le (a b : Date) : bool := JS.le (getTime a) (getTime b).

(** The time value of a civil date and time given in UTC
    (month from 1 to 12), as [Date.UTC] computes it. *)
Definition civil (y mo d h mi s ms : Z) : Z :=
  default 0 (MakeDate (MakeDay (JS.Int y) (JS.Int (mo - 1)) (JS.Int d))
                      (MakeTime (JS.Int h) (JS.Int mi) (JS.Int s) (JS.Int ms))).

(** The civil date of a time value: year, month (from 1) and day. *)
Definition civilDate (t : Z) : Z * Z * Z :=
  (YearFromTime t, MonthFromTime t + 1, DateFromTime t).

End DateTime.

(** ** Base64, as the platform decodes the [Base64] encoding of
    [writeAsStringAsync] (RFC 4648, padded, no line breaks) *)

Module Base64.

Definition sextet (c : ascii) : option Z :=
  let n := JS.code c in
  if (65 <=? n) && (n <=? 90) then Some (n - 65)
  else if (97 <=? n) && (n <=? 122) then Some (n - 71)
  else if (48 <=? n) && (n <=? 57) then Some (n + 4)
  else if n =? 43 then Some 62
  else if n =? 47 then Some 63
  else None.

Definition isPad (c : ascii) : bool := JS.code c =? 61.

Definition octet (z : Z) : Byte.byte :=
  default Byte.x00 (Byte.of_N (Z.to_N (z mod 256))).

Fixpoint decodeQuads (l : list ascii) : option (list Byte.byte) :=
  match l with
  | [] => Some []
  | a :: b :: c :: d :: rest =>
      match sextet a, sextet b with
      | Some sa, Some sb =>
          let b1 := octet (sa * 4 + sb / 16) in
          if isPad c then
            if isPad d && JS.isNil rest then Some [b1] else None
          else
            match sextet c with
            | Some sc =>
                let b2 := octet (sb * 16 + sc / 4) in
                if isPad d then
                  if JS.isNil rest then Some [b1; b2] else None
                else
                  match sextet d, decodeQuads rest with
                  | Some sd, Some tail => Some (b1 :: b2 :: octet (sc * 64 + sd) :: tail)
                  | _, _ => None
                  end
            | None => None
            end
      | _, _ => None
      end
  | _ => None
  end.

Definition decode (s : string) : option (list Byte.byte) :=
  decodeQuads (list_ascii_of_string s).

End Base64.

(** ** The platform: what the code consumes from the host *)

Module Platform.

Inductive OS : Type := web | ios | android.

Inductive PermissionStatus : Type := granted | denied | undetermined.

Definition isGranted (s : PermissionStatus) : bool :=
  match s with granted => true | _ => false end.

(** A node of the local file system. *)
Inductive Node : Type :=
  | Directory
  | File (content : list Byte.byte).

(** The [sound] field of a notification: [true] (the default sound of the
    platform) or the name of a sound file. *)
Inductive Sound : Type :=
  | DefaultSound
  | SoundFile (name : string).

(** The argument of [scheduleNotificationAsync]. *)
Record NotificationRequest : Type := {
  identifier : string;
  title : string;
  body : string;
  sound : Sound;
  priority : string;
  interruptionLevel : string;
  dataType : string;
  triggerType : string;
  seconds : JS.Num
}.

(** The calls to the host that the journal records. *)
Inductive Call : Type :=
  | GetInfo (path : string)
  | MakeDirectory (path : string)
  | Delete (path : string)
  | WriteAsString (path data : string)
  | Download (url path : string)
  | GetPermissions
  | RequestPermissions
  | WebRequestPermission
  | CancelScheduled (id : string)
  | Schedule (request : NotificationRequest).

(** What the environment answers to one call. Each call reads the fields
    that concern it. *)
Record Answer : Type := {
  rejects : bool;              (* the promise rejects *)
  persists : bool;             (* a write or transfer reaches the disk *)
  status : Z;                  (* the status code of a transfer *)
  payload : list Byte.byte;    (* the bytes a transfer delivers *)
  consent : PermissionStatus;  (* the user's reply to a consent request *)
  detaches : bool              (* the screen unmounts while the call is pending *)
}.

(** An entry of the journal: a call and what the host answered. *)
Record Entry : Type := {
  call : Call;
  reply : Answer
}.

Definition rejected (e : Entry) : bool := rejects (reply e).

(** The answer of a host on which nothing goes wrong. *)
Definition cooperative : Answer :=
  {| rejects := false; persists := true; status := 200; payload := [];
     consent := granted; detaches := false |}.

(** The scheduling session of the playback screen. *)
Inductive SchedulingStatus : Type :=
  | Idle | Saving | Scheduling | Scheduled | Cancelling | Error.

(** [ScheduleResult] of the alarm scheduler. *)
Record ScheduleResult : Type := {
  success : bool;
  resultError : option string;
  scheduledTime : option DateTime.Date
}.

Record Session : Type := {
  isMounted : bool;
  schedulingStatus : SchedulingStatus;
  scheduleResult : option ScheduleResult;
  errorMessage : option string;
  localAudioPath : option string
}.

Record World : Type := {
  PlatformOS : OS;
  documentDirectory : option string;
  tza : Z;                                   (* offset of local time, in ms *)
  clock : Z;                                 (* the last reading of the clock *)
  drift : list Z;                            (* what it moves by before each next reading *)
  files : gmap string Node;
  windowNotification : option PermissionStatus;  (* [Notification.permission], when [Notification] is in [window] *)
  permission : PermissionStatus;             (* the permission the native layer reports *)
  registered : list NotificationRequest;     (* the pending notifications of the host *)
  answers : list Answer;
  journal : list Entry;
  console : list (string * string);          (* [console.error(label, error)] *)
  session : Session
}.

Definition setClock (c : Z) (d : list Z) (w : World) : World :=
  {| PlatformOS := PlatformOS w; documentDirectory := documentDirectory w;
     tza := tza w; clock := c; drift := d; files := files w;
     windowNotification := windowNotification w; permission := permission w;
     registered := registered w; answers := answers w; journal := journal w;
     console := console w; session := session w |}.

Definition setFiles (f : gmap string Node) (w : World) : World :=
  {| PlatformOS := PlatformOS w; documentDirectory := documentDirectory w;
     tza := tza w; clock := clock w; drift := drift w; files := f;
     windowNotification := windowNotification w; permission := permission w;
     registered := registered w; answers := answers w; journal := journal w;
     console := console w; session := session w |}.

Definition setWindowNotification (p : option PermissionStatus) (w : World) : World :=
  {| PlatformOS := PlatformOS w; documentDirectory := documentDirectory w;
     tza := tza w; clock := clock w; drift := drift w; files := files w;
     windowNotification := p; permission := permission w;
     registered := registered w; answers := answers w; journal := journal w;
     console := console w; session := session w |}.

Definition setPermission (p : PermissionStatus) (w : World) : World :=
  {| PlatformOS := PlatformOS w; documentDirectory := documentDirectory w;
     tza := tza w; clock := clock w; drift := drift w; files := files w;
     windowNotification := windowNotification w; permission := p;
     registered := registered w; answers := answers w; journal := journal w;
     console := console w; session := session w |}.

Definition setRegistered (r : list NotificationRequest) (w : World) : World :=
  {| PlatformOS := PlatformOS w; documentDirectory := documentDirectory w;
     tza := tza w; clock := clock w; drift := drift w; files := files w;
     windowNotification := windowNotification w; permission := permission w;
     registered := r; answers := answers w; journal := journal w;
     console := console w; session := session w |}.

Definition setConsole (c : list (string * string)) (w : World) : World :=
  {| PlatformOS := PlatformOS w; documentDirectory := documentDirectory w;
     tza := tza w; clock := clock w; drift := drift w; files := files w;
     windowNotification := windowNotification w; permission := permission w;
     registered := registered w; answers := answers w; journal := journal w;
     console := c; session := session w |}.

Definition setSession (s : Session) (w : World) : World :=
  {| PlatformOS := PlatformOS w; documentDirectory := documentDirectory w;
     tza := tza w; clock := clock w; drift := drift w; files := files w;
     windowNotification := windowNotification w; permission := permission w;
     registered := registered w; answers := answers w; journal := journal w;
     console := console w; session := s |}.

(** The host takes a call: the next answer is consumed, the call enters
    the journal, and the screen may unmount meanwhile. *)
Definition answered (c : Call) (w : World) : Answer * World :=
  let a := hd cooperative (answers w) in
  let s := session w in
  (a,
   {| PlatformOS := PlatformOS w; documentDirectory := documentDirectory w;
      tza := tza w; clock := clock w; drift := drift w; files := files w;
      windowNotification := windowNotification w; permission := permission w;
      registered := registered w; answers := tl (answers w);
      journal := journal w ++ [{| call := c; reply := a |}];
      console := console w;
      session := {| isMounted := isMounted s && negb (detaches a);
                    schedulingStatus := schedulingStatus s;
                    scheduleResult := scheduleResult s;
                    errorMessage := errorMessage s;
                    localAudioPath := localAudioPath s |} |}).

(** *** The monad of [async] code: state and exceptions *)

Inductive Outcome (A : Type) : Type :=
  | Returns (a : A)
  | Throws (message : string).

Arguments Returns {A} a.
Arguments Throws {A} message.

Definition M (A : Type) : Type := World -> Outcome A * World.

Definition ret {A} (a : A) : M A := fun w => (Returns a, w).

Definition throw {A} (message : string) : M A := fun w => (Throws message, w).

Definition bind {A B} (m : M A) (k : A -> M B) : M B :=
  fun w =>
    match m w with
    | (Returns a, w') => k a w'
    | (Throws e, w') => (Throws e, w')
    end.

(** [try { body } catch (error) { handler }]. *)
Definition tryCatch {A} (body : M A) (handler : string -> M A) : M A :=
  fun w =>
    match body w with
    | (Returns a, w') => (Returns a, w')
    | (Throws e, w') => handler e w'
    end.

Definition get : M World := fun w => (Returns w, w).

Definition modify (f : World -> World) : M unit := fun w => (Returns tt, f w).

(** A call to the host: it rejects when the environment says so, and
    otherwise continues with [k] on the answer. *)
Definition hostCall {A} (c : Call) (k : Answer -> World -> Outcome A * World) : M A :=
  fun w =>
    let (a, w') := answered c w in
    if rejects a then (Throws "rejected", w') else k a w'.

End Platform.

Notation "'let*' x ':=' m 'in' k" :=
  (Platform.bind m (fun x => k))
  (at level 10, x binder, m at level 100, k at level 200).

(** ** The host libraries

    The calls of [expo-file-system], [expo-notifications] and the browser
    that the code makes, as far as the code depends on them. Every call
    consumes one answer of the environment and rejects when the answer
    says so, leaving the world as it was. *)

Module Host.
Import Platform.

(** *** [expo-file-system/legacy] *)

(** [(await getInfoAsync(path)).exists]: whether there is a node at the
    path. *)
Definition getInfoAsync (path : string) : M bool :=
  hostCall (GetInfo path)
    (fun _ w => (Returns (match files w !! path with Some _ => true | None => false end), w)).

(** [makeDirectoryAsync(path, { intermediates: true })]. *)
Definition makeDirectoryAsync (path : string) : M unit :=
  hostCall (MakeDirectory path)
    (fun _ w => (Returns tt, setFiles (<[path := Directory]> (files w)) w)).

(** [deleteAsync(path, { idempotent: true })]. *)
Definition deleteAsync (path : string) : M unit :=
  hostCall (Delete path)
    (fun _ w => (Returns tt, setFiles (delete path (files w)) w)).

(** [writeAsStringAsync(path, data, { encoding: EncodingType.Base64 })]:
    the file receives the bytes that [data] decodes to; data that is not
    base64 rejects. The environment may lose the write ([persists]). *)
Definition writeAsStringAsync (path data : string) : M unit :=
  hostCall (WriteAsString path data)
    (fun a w =>
       match Base64.decode data with
       | Some bytes =>
           (Returns tt,
            if persists a then setFiles (<[path := File bytes]> (files w)) w else w)
       | None => (Throws "not base64", w)
       end).

Record DownloadResult : Type := {
  downloadStatus : Z;
  uri : string
}.

(** [downloadAsync(url, path)]: the status of the response, and the
    path as [uri]; the body received goes to the path, unless the
    environment loses it. *)
Definition downloadAsync (url path : string) : M DownloadResult :=
  hostCall (Download url path)
    (fun a w =>
       (Returns {| downloadStatus := status a; uri := path |},
        if persists a then setFiles (<[path := File (payload a)]> (files w)) w else w)).

(** *** [expo-notifications] *)

(** [(await Notifications.getPermissionsAsync()).status]. *)
Definition getPermissionsAsync : M PermissionStatus :=
  hostCall GetPermissions (fun _ w => (Returns (permission w), w)).

(** [(await Notifications.requestPermissionsAsync()).status]: what the
    user, or the system for the user, replies. *)
Definition requestPermissionsAsync : M PermissionStatus :=
  hostCall RequestPermissions
    (fun a w => (Returns (consent a), setPermission (consent a) w)).

(** [Notifications.cancelScheduledNotificationAsync(id)]: nothing stays
    pending under the identifier. *)
Definition cancelScheduledNotificationAsync (id : string) : M unit :=
  hostCall (CancelScheduled id)
    (fun _ w =>
       (Returns tt,
        setRegistered (filter (fun r => identifier r ≠ id) (registered w)) w)).

(** [Notifications.scheduleNotificationAsync(request)]: the host adds the
    request to its pending notifications; it is not assumed to look for
    one with the same identifier. *)
Definition scheduleNotificationAsync (request : NotificationRequest) : M string :=
  hostCall (Schedule request)
    (fun _ w =>
       (Returns (identifier request), setRegistered (registered w ++ [request]) w)).

(** *** The Notifications API of the browser *)

(** ['Notification' in window]. *)
Definition notificationInWindow : M bool :=
  fun w => (Returns (match windowNotification w with Some _ => true | None => false end), w).

(** [Notification.requestPermission()]: a permission already decided is
    returned as it is, otherwise the user is asked. *)
Definition Notification_requestPermission : M PermissionStatus :=
  hostCall WebRequestPermission
    (fun a w =>
       match windowNotification w with
       | Some undetermined =>
           (Returns (consent a), setWindowNotification (Some (consent a)) w)
       | Some decided => (Returns decided, w)
       | None => (Throws "Notification is not defined", w)
       end).

(** *** Clock, console and platform *)

(** A reading of the clock, which has moved by the next drift. *)
Definition readClock : M Z :=
  fun w =>
    let t := clock w + hd 0 (drift w) in
    (Returns t, setClock t (tl (drift w)) w).

(** [new Date()]. *)
Definition newDate : M DateTime.Date :=
  let* t := readClock in ret (DateTime.TimeClip (Some t)).

(** [Date.now()]. *)
Definition Date_now : M JS.Num :=
  let* t := readClock in ret (JS.Int t).

(** [console.error(label, error)]. *)
Definition console_error (label error : string) : M unit :=
  modify (fun w => setConsole (console w ++ [(label, error)]) w).

(** [Platform.OS]. *)
Definition Platform_OS : M OS := fun w => (Returns (PlatformOS w), w).

Definition isWeb (os : OS) : bool :=
  match os with web => true | _ => false end.

Definition isIos (os : OS) : bool :=
  match os with ios => true | _ => false end.

(** A template literal prints [null] for a missing document directory. *)
Definition templated (s : option string) : string := default "null" s.

End Host.

(** ** [src/utils/alarmScheduler.ts] *)

Module AlarmScheduler.
Import Platform Host.

Definition ALARM_NOTIFICATION_ID : string := "morning-alarm".

Record ScheduleAlarmParams : Type := {
  wakeUpTime : string;
  name : string;
  soundFileName : option string
}.

Definition requestNotificationPermissions : M bool :=
  let* os := Platform_OS in
  if isWeb os then
    let* present := notificationInWindow in
    if present then
      let* permission := Notification_requestPermission in
      ret (isGranted permission)
    else ret false
  else
    let* existingStatus := getPermissionsAsync in
    if isGranted existingStatus then ret true
    else
      let* status := requestPermissionsAsync in
      ret (isGranted status).

(** The body of [calculateNextAlarmTime] once [now] and [alarmTime] hold
    the two readings of the clock. *)
Definition nextAlarmTime (tza : Z) (wakeUpTime : string)
    (now alarmTime : DateTime.Date) : DateTime.Date :=
  let parts := map JS.Number (JS.split ":" wakeUpTime) in
  let hours := JS.ToNumber (parts !! 0%nat) in
  let minutes := JS.ToNumber (parts !! 1%nat) in
  let alarmTime := DateTime.setHours tza alarmTime hours minutes (JS.Int 0) (JS.Int 0) in
  if DateTime.le alarmTime now
  then DateTime.setDate tza alarmTime (JS.add (DateTime.getDate tza alarmTime) (JS.Int 1))
  else alarmTime.

Definition calculateNextAlarmTime (wakeUpTime : string) : M DateTime.Date :=
  let* now := newDate in
  let* alarmTime := newDate in
  let* w := get in
  ret (nextAlarmTime (tza w) wakeUpTime now alarmTime).

Definition cancelExistingAlarm : M unit :=
  tryCatch
    (let* os := Platform_OS in
     if isWeb os then ret tt
     else cancelScheduledNotificationAsync ALARM_NOTIFICATION_ID)
    (fun error => console_error "Error cancelling alarm:" error).

(** [soundFileName || true]. *)
Definition notificationSound (soundFileName : option string) : Sound :=
  match soundFileName with
  | Some file => if JS.truthy file then SoundFile file else DefaultSound
  | None => DefaultSound
  end.

Definition alarmRequest (name : string) (sound : Sound) (secondsUntilAlarm : JS.Num)
    : NotificationRequest :=
  {| identifier := ALARM_NOTIFICATION_ID;
     title := "Good Morning!";
     body := name +:+ ", your personalized morning audio is ready.";
     sound := sound;
     priority := "max";
     interruptionLevel := "timeSensitive";
     dataType := "morning-alarm";
     triggerType := "timeInterval";
     seconds := secondsUntilAlarm |}.

(** [Math.max(1, Math.floor((alarmTime.getTime() - Date.now()) / 1000))]. *)
Definition secondsUntil (alarmTime : DateTime.Date) (now : JS.Num) : JS.Num :=
  JS.max (JS.Int 1) (JS.floor (JS.divThousand (JS.sub (DateTime.getTime alarmTime) now))).

Definition scheduleAlarm (params : ScheduleAlarmParams) : M ScheduleResult :=
  tryCatch
    (let* hasPermission := requestNotificationPermissions in
     if negb hasPermission then
       ret {| success := false;
              resultError := Some "Notification permissions are required to schedule your morning alarm.";
              scheduledTime := None |}
     else
       let* _ := cancelExistingAlarm in
       let* alarmTime := calculateNextAlarmTime (wakeUpTime params) in
       let* now := Date_now in
       let secondsUntilAlarm := secondsUntil alarmTime now in
       let* os := Platform_OS in
       if isWeb os then
         ret {| success := true;
                resultError := Some "Web notifications have limited background support. Keep the browser tab open for best results.";
                scheduledTime := Some alarmTime |}
       else
         let* _ := scheduleNotificationAsync
                     (alarmRequest (name params)
                                   (notificationSound (soundFileName params))
                                   secondsUntilAlarm) in
         ret {| success := true; resultError := None; scheduledTime := Some alarmTime |})
    (fun error =>
       let* _ := console_error "Error scheduling alarm:" error in
       ret {| success := false;
              resultError := Some "Failed to schedule alarm. Please try again.";
              scheduledTime := None |}).

End AlarmScheduler.

(** ** Inline assets: [isDataUri] and [extractBase64FromDataUri], which
    [src/utils/audioStorage.ts] and the notification-sound cache both
    define, with the same text *)

Module DataUri.

Definition isDataUri (url : string) : bool := JS.startsWith "data:" url.

(** The longest prefix free of [c], and what follows it. *)
Fixpoint spanNot (c : ascii) (s : string) : string * string :=
  match s with
  | EmptyString => (EmptyString, EmptyString)
  | String a r =>
      if Ascii.eqb a c then (EmptyString, s)
      else let (p, rest) := spanNot c r in (String a p, rest)
  end.

(** The characters that [.] does not match. *)
Definition isLineTerminator (c : ascii) : bool :=
  (JS.code c =? 10) || (JS.code c =? 13).

Fixpoint noLineTerminator (s : string) : bool :=
  match s with
  | EmptyString => true
  | String a r => negb (isLineTerminator a) && noLineTerminator r
  end.

(** [dataUri.match(/^data:[^;]+;base64,(.+)$/)], reduced to its first
    group. [[^;]+] can only stop at the first [;], and [(.+)$] takes all
    that follows [;base64,] when it is not empty and has no line
    terminator. *)
Definition matchGroup (dataUri : string) : option string :=
  match JS.dropPrefix "data:" dataUri with
  | Some r =>
      let (mime, r1) := spanNot ";" r in
      if JS.truthy mime then
        match JS.dropPrefix ";base64," r1 with
        | Some payload =>
            if JS.truthy payload && noLineTerminator payload
            then Some payload else None
        | None => None
        end
      else None
  | None => None
  end.

Definition extractBase64FromDataUri (dataUri : string) : option string :=
  matchGroup dataUri.

End DataUri.

(** ** [src/utils/audioStorage.ts]: the cache of the playback audio *)

Module AudioStorage.
Import Platform Host DataUri.

Definition AUDIO_DIRNAME : string := "morning-audio".
Definition AUDIO_FILENAME : string := "morning-alarm.mp3".

Definition audioDirectoryPath (documentDirectory : option string) : string :=
  templated documentDirectory +:+ AUDIO_DIRNAME +:+ "/".

Definition audioFilePath (documentDirectory : option string) : string :=
  audioDirectoryPath documentDirectory +:+ AUDIO_FILENAME.

Definition getAudioDirectoryPath : M string :=
  let* w := get in ret (audioDirectoryPath (documentDirectory w)).

Definition getAudioFilePath : M string :=
  let* w := get in ret (audioFilePath (documentDirectory w)).

Definition ensureDirectoryExists : M unit :=
  let* os := Platform_OS in
  if isWeb os then ret tt
  else
    let* dirPath := getAudioDirectoryPath in
    let* dirInfo := getInfoAsync dirPath in
    if negb dirInfo then makeDirectoryAsync dirPath else ret tt.

Definition saveAudioLocally (audioUrl : string) : M (option string) :=
  let* os := Platform_OS in
  if isWeb os then ret (Some audioUrl)
  else
    tryCatch
      (let* _ := ensureDirectoryExists in
       let* filePath := getAudioFilePath in
       let* fileInfo := getInfoAsync filePath in
       let* _ := (if fileInfo then deleteAsync filePath else ret tt) in
       if isDataUri audioUrl then
         match extractBase64FromDataUri audioUrl with
         | Some base64Data =>
             if JS.truthy base64Data then
               let* _ := writeAsStringAsync filePath base64Data in
               ret (Some filePath)
             else throw "Invalid data URI format"
         | None => throw "Invalid data URI format"
         end
       else
         let* downloadResult := downloadAsync audioUrl filePath in
         if downloadStatus downloadResult =? 200
         then ret (Some (uri downloadResult))
         else ret None)
      (fun error =>
         let* _ := console_error "Error saving audio locally:" error in
         ret None).

Definition getLocalAudioPath : M (option string) :=
  let* os := Platform_OS in
  if isWeb os then ret None
  else
    tryCatch
      (let* filePath := getAudioFilePath in
       let* fileInfo := getInfoAsync filePath in
       if fileInfo then ret (Some filePath) else ret None)
      (fun error =>
         let* _ := console_error "Error getting local audio path:" error in
         ret None).

Definition deleteLocalAudio : M unit :=
  let* os := Platform_OS in
  if isWeb os then ret tt
  else
    tryCatch
      (let* filePath := getAudioFilePath in
       let* fileInfo := getInfoAsync filePath in
       if fileInfo then deleteAsync filePath else ret tt)
      (fun error => console_error "Error deleting local audio:" error).

End AudioStorage.

(** ** The cache of the notification sound ([utils/notificationSound],
    the file [src/unnamed/part_000]) *)

Module NotificationSound.
Import Platform Host DataUri.

Definition NOTIFICATION_SOUND_FILENAME : string := "morning-alarm-notification.wav".

Definition librarySoundsPath (os : OS) (documentDirectory : option string) : string :=
  if isIos os then
    match documentDirectory with
    | Some dir =>
        let libraryPath := JS.replace "/Documents/" "/Library/Sounds/" dir in
        if JS.truthy libraryPath then libraryPath else EmptyString
    | None => EmptyString
    end
  else templated documentDirectory +:+ "sounds/".

Definition notificationSoundPath (os : OS) (documentDirectory : option string) : string :=
  librarySoundsPath os documentDirectory +:+ NOTIFICATION_SOUND_FILENAME.

Definition getLibrarySoundsPath : M string :=
  let* w := get in ret (librarySoundsPath (PlatformOS w) (documentDirectory w)).

Definition getNotificationSoundPath : M string :=
  let* w := get in ret (notificationSoundPath (PlatformOS w) (documentDirectory w)).

Definition ensureSoundsDirectoryExists : M unit :=
  let* os := Platform_OS in
  if isWeb os then ret tt
  else
    let* soundsPath := getLibrarySoundsPath in
    let* dirInfo := getInfoAsync soundsPath in
    if negb dirInfo then makeDirectoryAsync soundsPath else ret tt.

Definition saveNotificationSound (audioUrl : string) : M (option string) :=
  let* os := Platform_OS in
  if isWeb os then ret None
  else
    tryCatch
      (let* _ := ensureSoundsDirectoryExists in
       let* soundPath := getNotificationSoundPath in
       let* existingFile := getInfoAsync soundPath in
       let* _ := (if existingFile then deleteAsync soundPath else ret tt) in
       let* _ :=
         (if isDataUri audioUrl then
            match extractBase64FromDataUri audioUrl with
            | Some base64Data =>
                if JS.truthy base64Data then writeAsStringAsync soundPath base64Data
                else throw "Invalid data URI format"
            | None => throw "Invalid data URI format"
            end
          else
            let* downloadResult := downloadAsync audioUrl soundPath in
            if negb (downloadStatus downloadResult =? 200)
            then throw "Failed to download audio"
            else ret tt) in
       let* savedFile := getInfoAsync soundPath in
       if negb savedFile then throw "Sound file was not saved"
       else ret (Some NOTIFICATION_SOUND_FILENAME))
      (fun error =>
         let* _ := console_error "Error saving notification sound:" error in
         ret None).

Definition deleteNotificationSound : M unit :=
  let* os := Platform_OS in
  if isWeb os then ret tt
  else
    tryCatch
      (let* soundPath := getNotificationSoundPath in
       let* fileInfo := getInfoAsync soundPath in
       if fileInfo then deleteAsync soundPath else ret tt)
      (fun error => console_error "Error deleting notification sound:" error).

Definition getNotificationSoundName : string := NOTIFICATION_SOUND_FILENAME.

End NotificationSound.

(** ** Tasks: [async] code that runs side by side

    An [async] function runs without interruption until it awaits a call
    to the host; it goes on when the host has settled that call, and
    other code may have run in between. A task is such a function, cut
    at the host calls it awaits. The call is made, with its effect on
    the world and its answer, when the task reaches it; what comes back
    to the task when it goes on is the outcome of that call. An [await]
    on anything else, as on the promise of another [async] function, is
    no cut of its own: up to the next host call the function touches
    nothing that the other one reads. *)

Module Tasks.
Import Platform.

(** Where a task stands: settled with an outcome, or waiting for the host
    with what it does next. *)
#[warnings="-register-all"]
Inductive Step (A : Type) : Type :=
  | Settled (o : Outcome A)
  | Awaiting (resume : World -> Step A * World).

Arguments Settled {A} o.
Arguments Awaiting {A} resume.

Definition Task (A : Type) : Type := World -> Step A * World.

(** Code that does not wait for the host. *)
Definition sync {A} (m : M A) : Task A :=
  fun w => let (o, w') := m w in (Settled o, w').

(** [await] on a call to the host: the call is made, and its outcome is
    there when the task goes on. *)
Definition await {A} (m : M A) : Task A :=
  fun w => let (o, w') := m w in (Awaiting (fun w1 => (Settled o, w1)), w').

Definition retT {A} (a : A) : Task A := sync (ret a).

Definition throwT {A} (message : string) : Task A := sync (throw message).

Fixpoint bindStep {A B} (s : Step A) (k : A -> Task B) : Task B :=
  match s with
  | Settled (Returns a) => k a
  | Settled (Throws e) => fun w => (Settled (Throws e), w)
  | Awaiting resume =>
      fun w => (Awaiting (fun w1 => let (s', w2) := resume w1 in bindStep s' k w2), w)
  end.

Definition bindT {A B} (t : Task A) (k : A -> Task B) : Task B :=
  fun w => let (s, w') := t w in bindStep s k w'.

Fixpoint catchStep {A} (s : Step A) (handler : string -> Task A) : Task A :=
  match s with
  | Settled (Returns a) => fun w => (Settled (Returns a), w)
  | Settled (Throws e) => handler e
  | Awaiting resume =>
      fun w => (Awaiting (fun w1 => let (s', w2) := resume w1 in catchStep s' handler w2), w)
  end.

(** [try { body } catch (error) { handler }]. *)
Definition tryCatchT {A} (body : Task A) (handler : string -> Task A) : Task A :=
  fun w => let (s, w') := body w in catchStep s handler w'.

(** A task that nothing else runs beside: [await task]. *)
Fixpoint finish {A} (s : Step A) (w : World) : Outcome A * World :=
  match s with
  | Settled o => (o, w)
  | Awaiting resume => let (s', w') := resume w in finish s' w'
  end.

Definition alone {A} (t : Task A) : M A :=
  fun w => let (s, w') := t w in finish s w'.

(** Which of two tasks that wait for the host goes on. *)
Inductive Turn : Type := former | latter.

(** Two tasks side by side, to the end of both. When both wait, the host
    settles the call of one of them: [order] says which, turn by turn,
    and once [order] is used up it is the call that has waited longest,
    that of [oldest]. *)
Fixpoint both {A B} (sa : Step A)
    : Step B -> list Turn -> Turn -> World -> (Outcome A * Outcome B) * World :=
  fix inner (sb : Step B) (order : list Turn) (oldest : Turn) (w : World) :=
    match sa, sb with
    | Settled oa, Settled ob => ((oa, ob), w)
    | Settled oa, Awaiting rb => let (sb', w') := rb w in inner sb' order oldest w'
    | Awaiting ra, Settled ob => let (sa', w') := ra w in both sa' sb order oldest w'
    | Awaiting ra, Awaiting rb =>
        match hd oldest order with
        | former => let (sa', w') := ra w in both sa' sb (tl order) latter w'
        | latter => let (sb', w') := rb w in inner sb' (tl order) former w'
        end
    end.

(** [await Promise.all([a, b])] on two calls of [async] functions: the
    first runs to its first [await], then the second does, and from there
    they go on as the host settles their calls. [Promise.all] rejects as
    soon as one of the two rejects, while the other is still running;
    here both are run to their end before the first rejection is
    raised. The functions it is used on catch their own failures and
    never reject (lemmas [saveBoth_settles] and [removeBoth_settles]). *)
Definition promiseAll {A B} (order : list Turn) (a : Task A) (b : Task B) : M (A * B) :=
  fun w =>
    let (sa, w1) := a w in
    let (sb, w2) := b w1 in
    let (outcomes, w3) := both sa sb order former w2 in
    (match outcomes with
     | (Returns x, Returns y) => Returns (x, y)
     | (Throws e, _) => Throws e
     | (_, Throws e) => Throws e
     end, w3).

End Tasks.

Notation "'let+' x ':=' t 'in' k" :=
  (Tasks.bindT t (fun x => k))
  (at level 10, x binder, t at level 100, k at level 200).

(** ** The two caches as tasks

    [saveAudioLocally], [saveNotificationSound], [deleteLocalAudio] and
    [deleteNotificationSound] once more, with the [await]s of their host
    calls as the source has them. Run alone, each is the function of the
    same name above (lemmas [alone_saveAudioLocally] and the like). *)

Module Concurrent.
Import Platform Host DataUri Tasks.

Definition ensureDirectoryExists : Task unit :=
  let+ os := sync Platform_OS in
  if isWeb os then retT tt
  else
    let+ dirPath := sync AudioStorage.getAudioDirectoryPath in
    let+ dirInfo := await (getInfoAsync dirPath) in
    if negb dirInfo then await (makeDirectoryAsync dirPath) else retT tt.

Definition saveAudioLocally (audioUrl : string) : Task (option string) :=
  let+ os := sync Platform_OS in
  if isWeb os then retT (Some audioUrl)
  else
    tryCatchT
      (let+ _ := ensureDirectoryExists in
       let+ filePath := sync AudioStorage.getAudioFilePath in
       let+ fileInfo := await (getInfoAsync filePath) in
       let+ _ := (if fileInfo then await (deleteAsync filePath) else retT tt) in
       if isDataUri audioUrl then
         match extractBase64FromDataUri audioUrl with
         | Some base64Data =>
             if JS.truthy base64Data then
               let+ _ := await (writeAsStringAsync filePath base64Data) in
               retT (Some filePath)
             else throwT "Invalid data URI format"
         | None => throwT "Invalid data URI format"
         end
       else
         let+ downloadResult := await (downloadAsync audioUrl filePath) in
         if downloadStatus downloadResult =? 200
         then retT (Some (uri downloadResult))
         else retT None)
      (fun error =>
         let+ _ := sync (console_error "Error saving audio locally:" error) in
         retT None).

Definition deleteLocalAudio : Task unit :=
  let+ os := sync Platform_OS in
  if isWeb os then retT tt
  else
    tryCatchT
      (let+ filePath := sync AudioStorage.getAudioFilePath in
       let+ fileInfo := await (getInfoAsync filePath) in
       if fileInfo then await (deleteAsync filePath) else retT tt)
      (fun error => sync (console_error "Error deleting local audio:" error)).

Definition ensureSoundsDirectoryExists : Task unit :=
  let+ os := sync Platform_OS in
  if isWeb os then retT tt
  else
    let+ soundsPath := sync NotificationSound.getLibrarySoundsPath in
    let+ dirInfo := await (getInfoAsync soundsPath) in
    if negb dirInfo then await (makeDirectoryAsync soundsPath) else retT tt.

Definition saveNotificationSound (audioUrl : string) : Task (option string) :=
  let+ os := sync Platform_OS in
  if isWeb os then retT None
  else
    tryCatchT
      (let+ _ := ensureSoundsDirectoryExists in
       let+ soundPath := sync NotificationSound.getNotificationSoundPath in
       let+ existingFile := await (getInfoAsync soundPath) in
       let+ _ := (if existingFile then await (deleteAsync soundPath) else retT tt) in
       let+ _ :=
         (if isDataUri audioUrl then
            match extractBase64FromDataUri audioUrl with
            | Some base64Data =>
                if JS.truthy base64Data then await (writeAsStringAsync soundPath base64Data)
                else throwT "Invalid data URI format"
            | None => throwT "Invalid data URI format"
            end
          else
            let+ downloadResult := await (downloadAsync audioUrl soundPath) in
            if negb (downloadStatus downloadResult =? 200)
            then throwT "Failed to download audio"
            else retT tt) in
       let+ savedFile := await (getInfoAsync soundPath) in
       if negb savedFile then throwT "Sound file was not saved"
       else retT (Some NotificationSound.NOTIFICATION_SOUND_FILENAME))
      (fun error =>
         let+ _ := sync (console_error "Error saving notification sound:" error) in
         retT None).

Definition deleteNotificationSound : Task unit :=
  let+ os := sync Platform_OS in
  if isWeb os then retT tt
  else
    tryCatchT
      (let+ soundPath := sync NotificationSound.getNotificationSoundPath in
       let+ fileInfo := await (getInfoAsync soundPath) in
       if fileInfo then await (deleteAsync soundPath) else retT tt)
      (fun error => sync (console_error "Error deleting notification sound:" error)).

End Concurrent.

(** ** The scheduling handlers of [src/app/playback.tsx] *)

Module Playback.
Import Platform Host.

(** The route parameters the handlers read. *)
Record Params : Type := {
  audioUrl : string;
  name : string;
  wakeUpTime : string
}.

Definition updateSession (f : Session -> Session) : M unit :=
  modify (fun w => setSession (f (session w)) w).

Definition setSchedulingStatus (v : SchedulingStatus) : M unit :=
  updateSession (fun s =>
    {| isMounted := isMounted s; schedulingStatus := v;
       scheduleResult := scheduleResult s; errorMessage := errorMessage s;
       localAudioPath := localAudioPath s |}).

Definition setScheduleResult (v : option ScheduleResult) : M unit :=
  updateSession (fun s =>
    {| isMounted := isMounted s; schedulingStatus := schedulingStatus s;
       scheduleResult := v; errorMessage := errorMessage s;
       localAudioPath := localAudioPath s |}).

Definition setErrorMessage (v : option string) : M unit :=
  updateSession (fun s =>
    {| isMounted := isMounted s; schedulingStatus := schedulingStatus s;
       scheduleResult := scheduleResult s; errorMessage := v;
       localAudioPath := localAudioPath s |}).

Definition setLocalAudioPath (v : option string) : M unit :=
  updateSession (fun s =>
    {| isMounted := isMounted s; schedulingStatus := schedulingStatus s;
       scheduleResult := scheduleResult s; errorMessage := errorMessage s;
       localAudioPath := v |}).

(** [isMounted.current]. *)
Definition isMountedCurrent : M bool :=
  let* w := get in ret (isMounted (session w)).

(** [x || undefined] on a cached file name. *)
Definition orUndefined (x : option string) : option string :=
  match x with
  | Some s => if JS.truthy s then Some s else None
  | None => None
  end.

(** [!x] on the result of a save. *)
Definition missing (x : option string) : bool :=
  match x with
  | Some s => negb (JS.truthy s)
  | None => true
  end.

(** [Promise.all([saveAudioLocally(audioUrl), saveNotificationSound(audioUrl)])]:
    the two saves side by side, with the host settling their calls in
    the order [order]. *)
Definition saveBoth (order : list Tasks.Turn) (audioUrl : string)
    : M (option string * option string) :=
  Tasks.promiseAll order
    (Concurrent.saveAudioLocally audioUrl) (Concurrent.saveNotificationSound audioUrl).

(** [Promise.all([deleteLocalAudio(), deleteNotificationSound()])]. *)
Definition removeBoth (order : list Tasks.Turn) : M (unit * unit) :=
  Tasks.promiseAll order Concurrent.deleteLocalAudio Concurrent.deleteNotificationSound.

Definition handleScheduleAlarm (order : list Tasks.Turn) (params : Params) : M unit :=
  if negb (JS.truthy (audioUrl params)) then
    let* _ := setErrorMessage (Some "No audio available to schedule.") in
    setSchedulingStatus Error
  else if negb (JS.truthy (wakeUpTime params)) then
    let* _ := setErrorMessage (Some "No wake-up time specified.") in
    setSchedulingStatus Error
  else
    let* _ := setSchedulingStatus Saving in
    let* _ := setErrorMessage None in
    let* saved := saveBoth order (audioUrl params) in
    let savedPath := fst saved in
    let soundFileName := snd saved in
    let* mounted := isMountedCurrent in
    if negb mounted then ret tt
    else if missing savedPath then
      let* _ := setErrorMessage (Some "Failed to save audio. Please try again.") in
      setSchedulingStatus Error
    else
      let* _ := setLocalAudioPath savedPath in
      let* _ := setSchedulingStatus Scheduling in
      let* result :=
        AlarmScheduler.scheduleAlarm
          {| AlarmScheduler.wakeUpTime := wakeUpTime params;
             AlarmScheduler.name := name params;
             AlarmScheduler.soundFileName := orUndefined soundFileName |} in
      let* mounted := isMountedCurrent in
      if negb mounted then ret tt
      else
        let* _ := setScheduleResult (Some result) in
        if success result then
          let* _ := setSchedulingStatus Scheduled in
          match resultError result with
          | Some e => if JS.truthy e then setErrorMessage (Some e) else ret tt
          | None => ret tt
          end
        else
          let* _ := setErrorMessage
                      (Some (match resultError result with
                             | Some e => if JS.truthy e then e else "Failed to schedule alarm."
                             | None => "Failed to schedule alarm."
                             end)) in
          setSchedulingStatus Error.

Definition handleCancelAlarm (order : list Tasks.Turn) : M unit :=
  let* _ := setSchedulingStatus Cancelling in
  let* _ := setErrorMessage None in
  tryCatch
    (let* _ := AlarmScheduler.cancelExistingAlarm in
     let* _ := removeBoth order in
     let* mounted := isMountedCurrent in
     if negb mounted then ret tt
     else
       let* _ := setSchedulingStatus Idle in
       let* _ := setScheduleResult None in
       setLocalAudioPath None)
    (fun error =>
       let* _ := console_error "Error cancelling alarm:" error in
       let* mounted := isMountedCurrent in
       if negb mounted then ret tt
       else
         let* _ := setErrorMessage (Some "Failed to cancel alarm. Please try again.") in
         setSchedulingStatus Scheduled).

End Playback.

(** ** Vocabulary of the properties *)

Module Vocabulary.
Import Platform Host DateTime.

(** The next [n] readings of the clock. *)
Fixpoint readings (n : nat) (c : Z) (d : list Z) : list Z :=
  match n with
  | O => []
  | S n' => let t := c + hd 0 d in t :: readings n' t (tl d)
  end.

Definition clockReads (n : nat) (w : World) : list Z := readings n (clock w) (drift w).

(** A time of day as the time picker writes it. *)
Definition timeOfDay (h m : Z) : string := JS.padStart2 h +:+ ":" +:+ JS.padStart2 m.

Definition localDay (tza t : Z) : Z := Day (LocalTime tza t).

Definition localClock (tza t : Z) : Z * Z * Z * Z :=
  let l := LocalTime tza t in
  (HourFromTime l, MinFromTime l, SecFromTime l, msFromTime l).

(** The instant of local day [day] at [h]:[m]:00.000. *)
Definition atTimeOfDay (tza day h m : Z) : Z :=
  UTC tza (day * msPerDay + h * msPerHour + m * msPerMinute).

Definition run {A} (m : M A) (w : World) : Outcome A := fst (m w).
Definition after {A} (m : M A) (w : World) : World := snd (m w).

(** *** One alarm at a time *)

(** The registrations under the identifier of the alarm. *)
Definition alarms (w : World) : list NotificationRequest :=
  filter (fun r => identifier r = AlarmScheduler.ALARM_NOTIFICATION_ID) (registered w).

(** The operations of the notification scheduler. *)
Inductive Op : Type :=
  | ScheduleOp (params : AlarmScheduler.ScheduleAlarmParams)
  | CancelOp.

Definition perform (op : Op) : M unit :=
  match op with
  | ScheduleOp params => let* _ := AlarmScheduler.scheduleAlarm params in ret tt
  | CancelOp => AlarmScheduler.cancelExistingAlarm
  end.

Fixpoint performAll (ops : list Op) : M unit :=
  match ops with
  | [] => ret tt
  | op :: rest => let* _ := perform op in performAll rest
  end.

(** The calls made between the world [w] and a later world [w']. *)
Definition newEntries (w w' : World) : list Entry :=
  drop (length (journal w)) (journal w').

Definition isCancellation (c : Call) : bool :=
  match c with CancelScheduled _ => true | _ => false end.

(** No cancellation asked of the host between [w] and [w'] was rejected. *)
Definition cancellationsHonoured (w w' : World) : Prop :=
  Forall (fun e => isCancellation (call e) = true -> rejected e = false) (newEntries w w').

(** In a list of calls, every registration comes right after the
    cancellation of the identifier of the alarm, and is made under that
    identifier. [previous] is the call before the list. *)
Fixpoint cancelsBeforeRegistering (previous : option Call) (cs : list Call) : bool :=
  match cs with
  | [] => true
  | c :: rest =>
      match c with
      | Schedule request =>
          match previous with
          | Some (CancelScheduled id) =>
              String.eqb id AlarmScheduler.ALARM_NOTIFICATION_ID
              && String.eqb (identifier request) AlarmScheduler.ALARM_NOTIFICATION_ID
          | _ => false
          end
      | _ => true
      end
      && cancelsBeforeRegistering (Some c) rest
  end.

(** The claim about two calls of [scheduleAlarm]: exactly one
    registration is left under the identifier of the alarm, and it is
    that of the second call, whatever its delay. *)
Definition replacesAsClaimed (w : World)
    (first second : AlarmScheduler.ScheduleAlarmParams) : Prop :=
  let w2 := after (AlarmScheduler.scheduleAlarm second)
              (after (AlarmScheduler.scheduleAlarm first) w) in
  exists secs,
    alarms w2
    = [AlarmScheduler.alarmRequest (AlarmScheduler.name second)
         (AlarmScheduler.notificationSound (AlarmScheduler.soundFileName second)) secs].

(** *** Times of day *)

(** A string [HH:MM]: two digits, a colon, two digits. *)
Definition parseTimeOfDay (s : string) : option (Z * Z) :=
  match s with
  | String a (String b (String c (String d (String e EmptyString)))) =>
      if JS.isDigit a && JS.isDigit b && Ascii.eqb c ":" && JS.isDigit d && JS.isDigit e
      then Some (10 * JS.digitValue a + JS.digitValue b,
                 10 * JS.digitValue d + JS.digitValue e)
      else None
  | _ => None
  end.

(** [HH:MM] with the hour in 0..23 and the minute in 0..59. *)
Definition validTimeOfDay (s : string) : bool :=
  match parseTimeOfDay s with
  | Some (h, m) => (h <=? 23) && (m <=? 59)
  | None => false
  end.

(** The claim that a time of day which is not valid is refused. *)
Definition refusesInvalidTime (s : string) (w : World) : Prop :=
  validTimeOfDay s = false ->
  exists e, run (AlarmScheduler.calculateNextAlarmTime s) w = Throws e.

(** *** The delay of the registration *)

(** The claim that the delay handed to the host, in milliseconds, is the
    larger of one second and the time left until the trigger instant. *)
Definition exactDelay (trigger now : Z) : Prop :=
  exists s, AlarmScheduler.secondsUntil (DateTime.DateAt trigger) (JS.Int now) = JS.Int s
            /\ 1000 * s = Z.max 1000 (trigger - now).

(** *** Consent *)

Definition isConsentRequest (c : Call) : bool :=
  match c with
  | RequestPermissions | WebRequestPermission => true
  | _ => false
  end.

(** The consent requests issued between [w] and [w']. *)
Definition consentRequests (w w' : World) : list Entry :=
  List.filter (fun e => isConsentRequest (call e)) (newEntries w w').

(** Whether the environment can notify at all. *)
Definition hasCapability (w : World) : bool :=
  match PlatformOS w, windowNotification w with
  | web, None => false
  | _, _ => true
  end.

(** The permission as it stands before the call. *)
Definition currentPermission (w : World) : PermissionStatus :=
  match PlatformOS w with
  | web => default denied (windowNotification w)
  | _ => permission w
  end.

(** What a consent request made in [w] and answered as [e] records
    resolves to. *)
Definition requestResult (w : World) (e : Entry) : PermissionStatus :=
  match call e, windowNotification w with
  | WebRequestPermission, Some granted => granted
  | WebRequestPermission, Some denied => denied
  | _, _ => consent (reply e)
  end.

(** The host rejects no call. *)
Definition noRejection (w : World) : Prop :=
  Forall (fun a => rejects a = false) (answers w).

(** The claim about [ensureGranted]: no request without the capability,
    none when the permission is already granted, and otherwise exactly
    one, whose result is returned. *)
Definition consentAsClaimed (w : World) : Prop :=
  let r := run AlarmScheduler.requestNotificationPermissions w in
  let asked := consentRequests w (after AlarmScheduler.requestNotificationPermissions w) in
  if negb (hasCapability w) then r = Returns false /\ asked = []
  else if isGranted (currentPermission w) then r = Returns true /\ asked = []
  else exists e, asked = [e] /\ r = Returns (isGranted (requestResult w e)).

(** *** The media cache *)

Inductive Kind : Type := playbackAudio | notificationSound.

Definition save (k : Kind) : string -> M (option string) :=
  match k with
  | playbackAudio => AudioStorage.saveAudioLocally
  | notificationSound => NotificationSound.saveNotificationSound
  end.

Definition remove (k : Kind) : M unit :=
  match k with
  | playbackAudio => AudioStorage.deleteLocalAudio
  | notificationSound => NotificationSound.deleteNotificationSound
  end.

(** The path at which the asset of a kind is kept. *)
Definition fixedPath (k : Kind) (w : World) : string :=
  match k with
  | playbackAudio => AudioStorage.audioFilePath (documentDirectory w)
  | notificationSound =>
      NotificationSound.notificationSoundPath (PlatformOS w) (documentDirectory w)
  end.

(** What a save that succeeds returns. *)
Definition savedAs (k : Kind) (w : World) : string :=
  match k with
  | playbackAudio => fixedPath playbackAudio w
  | notificationSound => NotificationSound.NOTIFICATION_SOUND_FILENAME
  end.

(** Some call made between [w] and [w'] was rejected. *)
Definition someRejection (w w' : World) : bool :=
  existsb rejected (newEntries w w').

(** The calls made between [w] and [w']. *)
Definition calls (w w' : World) : list Call := map call (newEntries w w').

(** The file at a path, when there is one. *)
Definition fileAt (path : string) (w : World) : option (list Byte.byte) :=
  match files w !! path with
  | Some (File content) => Some content
  | _ => None
  end.

Definition present (path : string) (w : World) : bool :=
  match files w !! path with Some _ => true | None => false end.

(** *** Inline assets *)

Fixpoint lacks (c : ascii) (s : string) : bool :=
  match s with
  | EmptyString => true
  | String a r => negb (Ascii.eqb a c) && lacks c r
  end.

(** The grammar [data:<mime>;base64,<payload>]: the mime type is a
    token without [;] that is not empty, and the payload has no line
    break. *)
Definition inlineAsset (s mime payload : string) : Prop :=
  s = "data:" +:+ mime +:+ ";base64," +:+ payload
  /\ mime <> EmptyString /\ lacks ";" mime = true /\ DataUri.noLineTerminator payload = true.

Definition matchesInlineGrammar (s : string) : Prop :=
  exists mime payload, inlineAsset s mime payload /\ payload <> EmptyString.

(** The host rejects no call and loses no write. *)
Definition hostCooperates (w : World) : Prop :=
  Forall (fun a => rejects a = false /\ persists a = true) (answers w).

Definition isWrite (c : Call) : bool :=
  match c with WriteAsString _ _ => true | _ => false end.

Definition isDownload (c : Call) : bool :=
  match c with Download _ _ => true | _ => false end.

(** The writes and the transfers asked of the host between [w] and [w']. *)
Definition writes (w w' : World) : list Entry :=
  List.filter (fun e => isWrite (call e)) (newEntries w w').

Definition transfers (w w' : World) : list Entry :=
  List.filter (fun e => isDownload (call e)) (newEntries w w').

(** The claim about inline assets. For a source that matches the grammar
    with a payload of base64 text that is not empty, the save succeeds
    and the file at the fixed path holds the decoded payload. For a
    source that the cache takes for an inline asset, as it starts with
    [data:], and that does not match the grammar with such a payload, the
    save fails. *)
Definition inlineSaveAsClaimed (k : Kind) (src : string) (w : World) : Prop :=
  (forall mime payload bytes,
      inlineAsset src mime payload -> payload <> EmptyString ->
      Base64.decode payload = Some bytes ->
      exists r,
        run (save k src) w = Returns (Some r)
        /\ fileAt (fixedPath k w) (after (save k src) w) = Some bytes)
  /\ (DataUri.isDataUri src = true -> ~ matchesInlineGrammar src ->
      run (save k src) w = Returns None).

(** The claim about remote references: a source that does not match the
    grammar is transferred to the fixed path, and the save fails exactly
    when the transfer does not report success. *)
Definition transferAsClaimed (k : Kind) (src : string) (w : World) : Prop :=
  ~ matchesInlineGrammar src ->
  exists a,
    transfers w (after (save k src) w)
      = [{| call := Download src (fixedPath k w); reply := a |}]
    /\ (run (save k src) w = Returns None <-> rejects a = true \/ status a <> 200).

(** *** The scheduling flow of the playback screen *)

(** The world once the flow has entered [Saving]. *)
Definition savingWorld (w : World) : World :=
  after (let* _ := Playback.setSchedulingStatus Saving in Playback.setErrorMessage None) w.


(** The parameters the flow hands to [scheduleAlarm]. *)
Definition alarmParams (params : Playback.Params) (soundFileName : option string)
    : AlarmScheduler.ScheduleAlarmParams :=
  {| AlarmScheduler.wakeUpTime := Playback.wakeUpTime params;
     AlarmScheduler.name := Playback.name params;
     AlarmScheduler.soundFileName := soundFileName |}.

End Vocabulary.

(** ** Scenarios: concrete worlds for the examples *)

Module Scenarios.
Import Platform Host DateTime Vocabulary.

Definition freshSession : Session :=
  {| isMounted := true; schedulingStatus := Idle; scheduleResult := None;
     errorMessage := None; localAudioPath := None |}.

(** A device of platform [os] whose clock stands at [now] (UTC), with an
    empty file system, nothing registered, and the answers [env]. *)
Definition device (os : OS) (now : Z) (env : list Answer) : World :=
  {| PlatformOS := os;
     documentDirectory := Some "file:///var/app/Documents/";
     tza := 0; clock := now; drift := [];
     files := ∅;
     windowNotification := match os with web => Some undetermined | _ => None end;
     permission := undetermined;
     registered := []; answers := env; journal := []; console := [];
     session := freshSession |}.

(** 2024-01-01T10:00:00.000. *)
Definition tenOClock : Z := civil 2024 1 1 10 0 0 0.

Definition morning : World := device android tenOClock [].

(** A request to wake Ann at 07:00 with the default sound. *)
Definition wakeAtSeven : AlarmScheduler.ScheduleAlarmParams :=
  {| AlarmScheduler.wakeUpTime := "07:00";
     AlarmScheduler.name := "Ann";
     AlarmScheduler.soundFileName := None |}.

(** A browser in which the user has already granted notifications. *)
Definition grantedBrowser : World :=
  setWindowNotification (Some granted) (device web tenOClock []).

(** Answers of a host. *)
Definition rejecting : Answer :=
  {| rejects := true; persists := false; status := 0; payload := [];
     consent := denied; detaches := false |}.

Definition losing : Answer :=
  {| rejects := false; persists := false; status := 200; payload := [];
     consent := granted; detaches := false |}.

(** A phone whose file system rejects the first call made to it. *)
Definition failingDisk : World := device android tenOClock [rejecting].

(** A phone on which the fourth call, the write of a first save, reports
    no error and leaves no file. *)
Definition lossyDisk : World :=
  device android tenOClock [cooperative; cooperative; cooperative; losing].

Definition notFound : Answer :=
  {| rejects := false; persists := true; status := 404; payload := [];
     consent := granted; detaches := false |}.

(** A phone for which the fourth call, the transfer of a first save, is
    answered with the status 404. *)
Definition unreachableServer : World :=
  device android tenOClock [cooperative; cooperative; cooperative; notFound].


(** The route parameters of a morning audio for Ann at 07:00. *)
Definition annAtSeven : Playback.Params :=
  {| Playback.audioUrl := "https://example.org/morning.mp3";
     Playback.name := "Ann";
     Playback.wakeUpTime := "07:00" |}.

(** A request to wake Bea at 08:15 with a sound of her own. *)
Definition wakeAtEight : AlarmScheduler.ScheduleAlarmParams :=
  {| AlarmScheduler.wakeUpTime := "08:15";
     AlarmScheduler.name := "Bea";
     AlarmScheduler.soundFileName := Some "morning-alarm-notification.wav" |}.

(** A phone on which the sixth call is rejected: after a first
    [scheduleAlarm], which looks the permission up, asks for it, cancels
    and registers, it is the cancellation of a second [scheduleAlarm]. *)
Definition deafToCancel : World :=
  device android tenOClock (replicate 5 cooperative ++ [rejecting]).


(** A phone on which the fifth call is rejected: the third call of the
    save of the playback audio, when the host settles the calls of the
    two saves in the order it received them. *)
Definition audioRefused : World :=
  device android tenOClock (replicate 4 cooperative ++ [rejecting]).

End Scenarios.

(** ** More of [src/utils/alarmScheduler.ts]: the scheduled alarm read
    back, and the day it is shown for *)

Module AlarmQueries.
Import Platform Host DateTime.

(** The environment answers a query: the next answer is consumed and the
    screen may unmount meanwhile. A query changes nothing and is not
    entered in the journal of the calls. *)
Definition queried (w : World) : Answer * World :=
  let a := hd cooperative (answers w) in
  let s := session w in
  (a,
   {| PlatformOS := PlatformOS w; documentDirectory := documentDirectory w;
      tza := tza w; clock := clock w; drift := drift w; files := files w;
      windowNotification := windowNotification w; permission := permission w;
      registered := registered w; answers := tl (answers w);
      journal := journal w; console := console w;
      session := {| isMounted := isMounted s && negb (detaches a);
                    schedulingStatus := schedulingStatus s;
                    scheduleResult := scheduleResult s;
                    errorMessage := errorMessage s;
                    localAudioPath := localAudioPath s |} |}).

(** [Notifications.getAllScheduledNotificationsAsync()]: the pending
    requests, in the order in which they were registered. *)
Definition getAllScheduledNotificationsAsync : M (list NotificationRequest) :=
  fun w =>
    let (a, w') := queried w in
    if rejects a then (Throws "rejected", w') else (Returns (registered w'), w').

(** [x * 1000]: exact on decimals. *)
Definition timesThousand (x : JS.Num) : JS.Num :=
  match x with
  | JS.Decimal m e => JS.Decimal m (e + 3)
  | _ => x
  end.

(** [new Date(value)] for a number: [TimeClip] of the value. *)
Definition dateOfNumber (x : JS.Num) : Date :=
  match x with
  | JS.Decimal m e =>
      if JS.le (JS.Decimal (Z.abs m) e) (JS.Int maxTime)
      then DateAt (JS.truncate m e) else InvalidDate
  | _ => InvalidDate
  end.

(** The request always carries a time-interval trigger with its
    [seconds], a number: the three tests on [alarm.trigger] hold as soon
    as [find] has found the alarm. *)
Definition getScheduledAlarm : M (option Date) :=
  tryCatch
    (let* os := Platform_OS in
     if isWeb os then ret None
     else
       let* scheduled := getAllScheduledNotificationsAsync in
       match List.find (fun n => String.eqb (identifier n) AlarmScheduler.ALARM_NOTIFICATION_ID)
                       scheduled with
       | Some alarm =>
           let* now := Date_now in
           let scheduledTime := dateOfNumber (JS.add now (timesThousand (seconds alarm))) in
           ret (Some scheduledTime)
       | None => ret None
       end)
    (fun error =>
       let* _ := console_error "Error getting scheduled alarm:" error in
       ret None).

Definition WeekDay (t : Z) : Z := (Day t + 4) mod 7.

(** [d.toDateString()], as what it prints: the day of the week, the
    month, the day and the year in local time, or nothing but
    [Invalid Date]. Two dates print the same text exactly when these
    agree. *)
Definition toDateString (tza : Z) (d : Date) : option (Z * Z * Z * Z) :=
  match d with
  | DateAt t =>
      let l := LocalTime tza t in
      Some (WeekDay l, MonthFromTime l, DateFromTime l, YearFromTime l)
  | InvalidDate => None
  end.

(** The text [formatAlarmDate] returns: one of its two literals, or what
    [toLocaleDateString] prints for the date in the locale of the host,
    which is kept as it is. *)
Inductive AlarmDateText : Type :=
  | Literal (text : string)
  | LocaleDateString (date : Date).

Definition formatAlarmDate (date : Date) : M AlarmDateText :=
  let* today := newDate in
  let* w := get in
  let tomorrow := today in
  let tomorrow := setDate (tza w) tomorrow (JS.add (getDate (tza w) tomorrow) (JS.Int 1)) in
  if bool_decide (toDateString (tza w) date = toDateString (tza w) today)
  then ret (Literal "Today")
  else if bool_decide (toDateString (tza w) date = toDateString (tza w) tomorrow)
  then ret (Literal "Tomorrow")
  else ret (LocaleDateString date).

End AlarmQueries.

(** ** The time picker of [src/app/index.tsx] *)

Module InputScreen.
Import Platform Host DateTime.

(** The decimal digits of a natural number, most significant first. *)
Fixpoint decimalDigits (fuel : nat) (n : Z) (rest : string) : string :=
  let rest' := String (JS.digitChar (n mod 10)) rest in
  match fuel with
  | O => rest'
  | S fuel' => if n <? 10 then rest' else decimalDigits fuel' (n / 10) rest'
  end.

(** [x.toString()] for a number that is an integer or [NaN] ([None]). *)
Definition toString (x : option Z) : string :=
  match x with
  | None => "NaN"
  | Some n =>
      if n <? 0 then String "-" (decimalDigits (Z.to_nat (- n)) (- n) EmptyString)
      else decimalDigits (Z.to_nat n) n EmptyString
  end.

Fixpoint repeatChar (n : nat) (c : ascii) : string :=
  match n with
  | O => EmptyString
  | S n' => String c (repeatChar n' c)
  end.

(** [s.padStart(targetLength, fill)] for a fill of one character. *)
Definition padStart (targetLength : nat) (fill : ascii) (s : string) : string :=
  repeatChar (targetLength - String.length s) fill +:+ s.

(** [Array.from({ length }, (_, i) => f(i))]. *)
Definition arrayFrom {A} (length : nat) (f : Z -> A) : list A :=
  map (fun i => f (Z.of_nat i)) (seq 0 length).

Definition HOURS : list string :=
  arrayFrom 24 (fun i => padStart 2 "0" (toString (Some i))).

Definition MINUTES : list string :=
  arrayFrom 60 (fun i => padStart 2 "0" (toString (Some i))).

(** [d.getHours()]: the hour in local time, [NaN] for an invalid date. *)
Definition getHours (tza : Z) (d : Date) : option Z :=
  match d with
  | DateAt t => Some (HourFromTime (LocalTime tza t))
  | InvalidDate => None
  end.

Record TimeChoice : Type := {
  hour : string;
  minute : string
}.

Definition getNextFullHour : M TimeChoice :=
  let* now := newDate in
  let* w := get in
  let nextHour := (fun h => h + 1) <$> getHours (tza w) now in
  let nextHour :=
    match nextHour with
    | Some h => if 24 <=? h then Some 0 else Some h
    | None => None
    end in
  ret {| hour := padStart 2 "0" (toString nextHour); minute := "00" |}.

(** What the user does with the two lists of the picker: a scroll that
    ends at an offset, of which the handler takes
    [Math.round(y / ITEM_HEIGHT)], an integer or no number at all; a
    press on the item the list shows at a position, if it shows one. *)
Inductive PickerEvent : Type :=
  | HourScrollEnd (index : option Z)
  | HourPress (position : nat)
  | MinuteScrollEnd (index : option Z)
  | MinutePress (position : nat).

(** [index >= 0 && index < list.length], then [list[index]]. *)
Definition scrolledTo (list : list string) (index : option Z) : option string :=
  match index with
  | Some i =>
      if (0 <=? i) && (i <? Z.of_nat (length list)) then list !! Z.to_nat i else None
  | None => None
  end.

(** [selectedHour] and [selectedMinute] after an event. *)
Definition onPickerEvent (s : TimeChoice) (e : PickerEvent) : TimeChoice :=
  match e with
  | HourScrollEnd index =>
      {| hour := default (hour s) (scrolledTo HOURS index); minute := minute s |}
  | HourPress position =>
      {| hour := default (hour s) (HOURS !! position); minute := minute s |}
  | MinuteScrollEnd index =>
      {| hour := hour s; minute := default (minute s) (scrolledTo MINUTES index) |}
  | MinutePress position =>
      {| hour := hour s; minute := default (minute s) (MINUTES !! position) |}
  end.

(** The parameter [wakeUpTime] that [handleGenerate] passes on. *)
Definition wakeUpTimeParam (s : TimeChoice) : string :=
  hour s +:+ ":" +:+ minute s.

(** The screen from its first render to [handleGenerate]: the default is
    computed, then the user works the picker. *)
Definition chooseWakeUpTime (events : list PickerEvent) : M string :=
  let* defaultTime := getNextFullHour in
  ret (wakeUpTimeParam (fold_left onPickerEvent events defaultTime)).

(** [s.trim()], on text of one-byte characters. *)
Definition trimmed (s : string) : string :=
  string_of_list_ascii (JS.trim (list_ascii_of_string s)).

Record Location : Type := {
  city : string;
  country : string
}.

Definition parseLocation (location : string) : Location :=
  let parts := map trimmed (JS.split "," location) in
  {| city := default EmptyString (parts !! 0%nat);
     country := default EmptyString (parts !! 1%nat) |}.

(** The messages of [validateFields], one for each field, empty when
    the field passes. *)
Record FieldErrors : Type := {
  nameError : string;
  locationError : string;
  languageError : string
}.

(** [validateFields] on the three fields of the form: whether they all
    pass, and the errors it sets. *)
Definition validateFields (name location language : string) : bool * FieldErrors :=
  let nameOk := JS.truthy (trimmed name) in
  let locationOk := JS.truthy (trimmed location) in
  let languageOk := JS.truthy language in
  (nameOk && locationOk && languageOk,
   {| nameError := if nameOk then EmptyString else "Please enter your name";
      locationError := if locationOk then EmptyString else "Please enter your location";
      languageError := if languageOk then EmptyString else "Please select a language" |}).

End InputScreen.

(** ** Vocabulary of the further properties *)

Module Observations.
Import Platform Host DateTime Vocabulary.

(** The pending notifications that are not the alarm. *)
Definition others (w : World) : list NotificationRequest :=
  filter (fun r => identifier r ≠ AlarmScheduler.ALARM_NOTIFICATION_ID) (registered w).

Definition isRegistration (c : Call) : bool :=
  match c with Schedule _ => true | _ => false end.

(** The cancellations and registrations asked of the host between [w]
    and [w']. *)
Definition schedulerCalls (w w' : World) : list Entry :=
  List.filter (fun e => isCancellation (call e) || isRegistration (call e)) (newEntries w w').

(** The calls to the notification centre, consent included. *)
Definition isNotificationCall (c : Call) : bool :=
  match c with
  | GetPermissions | RequestPermissions | WebRequestPermission
  | CancelScheduled _ | Schedule _ => true
  | _ => false
  end.

Definition notificationCalls (w w' : World) : list Entry :=
  List.filter (fun e => isNotificationCall (call e)) (newEntries w w').

Definition otherKind (k : Kind) : Kind :=
  match k with
  | playbackAudio => notificationSound
  | notificationSound => playbackAudio
  end.

(** A computation keeps a relation between the world it starts in and
    the world it ends in, whatever it returns. *)
Definition keeps {A} (R : World -> World -> Prop) (m : M A) : Prop :=
  forall w, R w (after m w).

(** The session but for the screen, which may unmount and never mounts
    again. *)
Definition sessionKept (w w' : World) : Prop :=
  schedulingStatus (session w') = schedulingStatus (session w)
  /\ scheduleResult (session w') = scheduleResult (session w)
  /\ errorMessage (session w') = errorMessage (session w)
  /\ localAudioPath (session w') = localAudioPath (session w)
  /\ (isMounted (session w') = true -> isMounted (session w) = true).

(** Between [w] and [w'] the session is kept, the platform is the same,
    nothing pending has changed, no call went to the notification
    centre, and a host that rejected nothing still rejects nothing. *)
Definition diskOnly (w w' : World) : Prop :=
  sessionKept w w'
  /\ PlatformOS w' = PlatformOS w
  /\ documentDirectory w' = documentDirectory w
  /\ windowNotification w' = windowNotification w
  /\ registered w' = registered w
  /\ (noRejection w -> noRejection w')
  /\ exists es, journal w' = journal w ++ es
                /\ Forall (fun e => isNotificationCall (call e) = false) es.

(** Between [w] and [w'] the session is kept, the platform is the same,
    and no file has changed. *)
Definition notificationsOnly (w w' : World) : Prop :=
  sessionKept w w'
  /\ PlatformOS w' = PlatformOS w
  /\ documentDirectory w' = documentDirectory w
  /\ (noRejection w -> noRejection w')
  /\ files w' = files w.

(** What the picker holds at any time: an hour and a minute of its two
    lists. *)
Definition pickerHolds (s : InputScreen.TimeChoice) : Prop :=
  (exists h, 0 <= h <= 23 /\ InputScreen.hour s = JS.padStart2 h)
  /\ (exists m, 0 <= m <= 59 /\ InputScreen.minute s = JS.padStart2 m).

(** The next reading of the clock. *)
Definition nextReading (w : World) : Z := clock w + hd 0 (drift w).

(** The steps of the cache of the other kind: steps of the file system
    that leave what is at the fixed path of [k] as it is. *)
Definition apartFrom (k : Kind) (w w' : World) : Prop :=
  diskOnly w w' /\ files w' !! fixedPath k w = files w !! fixedPath k w.

(** The platform and the document directory of [w0]. *)
Definition sameHost (w0 w : World) : Prop :=
  PlatformOS w = PlatformOS w0 /\ documentDirectory w = documentDirectory w0.

(** What a task of the cache of kind [k] started in [w0] knows where it
    stands: the host is that of [w0], it still rejects nothing if
    [careful] says so, and the outcome [o] and what is at the fixed path
    of [k] satisfy [P]. *)
Definition standing {A} (careful : bool) (k : Kind) (w0 : World)
    (P : Outcome A -> option Node -> Prop) (o : Outcome A) (w : World) : Prop :=
  sameHost w0 w
  /\ (careful = true -> noRejection w)
  /\ P o (files w !! fixedPath k w0).

(** Between [w] and [w'] the clock was not read. *)
Definition clockKept (w w' : World) : Prop :=
  clock w' = clock w /\ drift w' = drift w /\ tza w' = tza w.

End Observations.

(** ** What tasks that run side by side can rely on

    A task takes its steps between the steps of the other: each of its
    steps is in [G], the steps of the other are in [R], and where it
    settles its outcome satisfies [Q], and still does after further
    steps of the other. *)

Module TaskLogic.
Import Platform Tasks.

Section Spec.

Context {A : Type}.
Variables R G : World -> World -> Prop.
Variable Q : Outcome A -> World -> Prop.

(** [StepSpec w0 s]: the task stands at [s] since the world [w0]. *)
Inductive StepSpec : World -> Step A -> Prop :=
  | spec_settled w0 o :
      (forall w, R w0 w -> Q o w) -> StepSpec w0 (Settled o)
  | spec_awaiting w0 resume :
      (forall w, R w0 w -> G w (snd (resume w))) ->
      (forall w, R w0 w -> StepSpec (snd (resume w)) (fst (resume w))) ->
      StepSpec w0 (Awaiting resume).

(** A task started in the world [w]. *)
Definition TaskSpec (t : Task A) (w : World) : Prop :=
  G w (snd (t w)) /\ StepSpec (snd (t w)) (fst (t w)).

End Spec.

(** A relation between worlds that steps can be chained in. *)
Record Preorder (R : World -> World -> Prop) : Prop := {
  preorder_refl : forall w, R w w;
  preorder_trans : forall w1 w2 w3, R w1 w2 -> R w2 w3 -> R w1 w3
}.

End TaskLogic.

(** ** Further scenarios *)

Module MoreScenarios.
Import Platform Host DateTime Vocabulary Scenarios.

(** The user answers the consent request with a refusal. *)
Definition refusing : Answer :=
  {| rejects := false; persists := true; status := 200; payload := [];
     consent := denied; detaches := false |}.

(** A phone whose user refuses notifications: the permission is first
    looked up, then asked for. *)
Definition refusedPhone : World := device android tenOClock [cooperative; refusing].

(** A phone that holds both assets of a morning audio given inline. *)
Definition inlineAudio : string := "data:audio/wav;base64,AAAA".

Definition stockedPhone : World :=
  after (let* _ := save playbackAudio inlineAudio in save notificationSound inlineAudio)
        morning.

(** A source that starts as an inline asset and carries no payload. *)
Definition brokenInline : string := "data:audio/wav".

(** A browser. *)
Definition browser : World := device web tenOClock [].

(** A phone on which the alarm of Ann is scheduled, with both assets
    saved. *)
Definition readyPhone : World := after (Playback.handleScheduleAlarm [] annAtSeven) morning.

(** The same, on a host that rejects the call after the thirteen of the
    scheduling flow: the next cancellation is refused. *)
Definition stubbornPhone : World :=
  after (Playback.handleScheduleAlarm [] annAtSeven)
        (device android tenOClock (replicate 13 cooperative ++ [rejecting])).

End MoreScenarios.

(** * Properties *)

Import Platform Host DateTime Vocabulary Scenarios.

(** ** Numbers and the calendar *)

Lemma rescale_same m e : JS.rescale m e e = m.
Proof. unfold JS.rescale. rewrite Z.sub_diag. simpl. lia. Qed.

Lemma truncate_int z : JS.truncate z 0 = z.
Proof. unfold JS.truncate. simpl. lia. Qed.

Lemma add_int a b : JS.add (JS.Int a) (JS.Int b) = JS.Int (a + b).
Proof. unfold JS.add, JS.Int. simpl Z.min. now rewrite !rescale_same. Qed.

Lemma le_int a b : JS.le (JS.Int a) (JS.Int b) = (a <=? b).
Proof. unfold JS.le, JS.Int. simpl Z.min. now rewrite !rescale_same. Qed.

(** [YearFromDay] is the year of ECMA-262: the largest year that starts
    on or before the day. *)
Lemma DayFromYear_step y : DayFromYear (y + 1) = DayFromYear y + DaysInYear y.
Proof.
  unfold DayFromYear, DaysInYear.
  repeat match goal with |- context [?a =? ?b] => destruct (Z.eqb_spec a b) end; cbn [negb];
    Z.to_euclidean_division_equations; lia.
Qed.

Lemma YearFromDay_spec d :
  DayFromYear (YearFromDay d) <= d < DayFromYear (YearFromDay d + 1).
Proof.
  unfold YearFromDay.
  set (y := 1970 + d * 400 / 146097).
  assert (H : DayFromYear (y - 2) <= d < DayFromYear (y + 3)).
  { subst y. unfold DayFromYear. Z.to_euclidean_division_equations. lia. }
  repeat match goal with |- context [?a <? ?b] => destruct (Z.ltb_spec a b) end.
  all: replace (y - 2 + 1) with (y - 1) by lia; replace (y - 1 + 1) with y by lia;
    replace (y + 1 + 1) with (y + 2) by lia; replace (y + 2 + 1) with (y + 3) in * by lia; lia.
Qed.

(** The calendar on a few days: the epoch and the day before it, a leap
    day, and the first of March of a century year that is not a leap
    year. *)
Lemma civilDate_examples :
  civilDate (civil 1970 1 1 0 0 0 0) = (1970, 1, 1)
  /\ civilDate (-1) = (1969, 12, 31)
  /\ civilDate (civil 2024 2 29 23 59 59 999) = (2024, 2, 29)
  /\ civilDate (civil 2100 2 29 0 0 0 0) = (2100, 3, 1)
  /\ civil 2024 1 1 10 0 0 0 = 1704103200000.
Proof. repeat split. Qed.

Lemma MonthFromTime_range t : 0 <= MonthFromTime t <= 11.
Proof. unfold MonthFromTime. repeat case_match; lia. Qed.

Lemma MakeDay_next t :
  MakeDay (JS.Int (YearFromTime t)) (JS.Int (MonthFromTime t)) (JS.Int (DateFromTime t + 1))
  = Some (Day t + 1).
Proof.
  pose proof (MonthFromTime_range t) as Hm.
  unfold MakeDay, JS.Int. rewrite !truncate_int.
  rewrite Z.div_small, Z.mod_small by lia. rewrite Z.add_0_r.
  f_equal. unfold DateFromTime, DayWithinYear, InLeapYear. lia.
Qed.

Lemma setHours_int tza t h m :
  setHours tza (DateAt t) (JS.Int h) (JS.Int m) (JS.Int 0) (JS.Int 0)
  = TimeClip (Some (atTimeOfDay tza (localDay tza t) h m)).
Proof.
  unfold setHours, MakeTime, MakeDate, JS.Int, atTimeOfDay, localDay.
  rewrite !truncate_int. cbn [fmap option_fmap option_map]. do 3 f_equal. lia.
Qed.

Lemma setDate_next tza t :
  setDate tza (DateAt t) (JS.add (getDate tza (DateAt t)) (JS.Int 1))
  = TimeClip (Some (t + msPerDay)).
Proof.
  unfold setDate, getDate. rewrite add_int, MakeDay_next.
  unfold MakeDate, TimeWithinDay, Day, LocalTime, UTC.
  cbn [fmap option_fmap option_map]. do 2 f_equal.
  pose proof (Z.div_mod (t + tza) msPerDay). unfold msPerDay in *. lia.
Qed.

Lemma TimeClip_in_range t : Z.abs t <= maxTime -> TimeClip (Some t) = DateAt t.
Proof. intros H. unfold TimeClip. case_match; [lia | reflexivity]. Qed.

Lemma localClock_atTimeOfDay tza day h m :
  0 <= h <= 23 -> 0 <= m <= 59 ->
  localClock tza (atTimeOfDay tza day h m) = (h, m, 0, 0)
  /\ localDay tza (atTimeOfDay tza day h m) = day.
Proof.
  intros Hh Hm.
  unfold localClock, localDay, atTimeOfDay, LocalTime, UTC, HourFromTime, MinFromTime,
    SecFromTime, msFromTime, Day, msPerDay, msPerHour, msPerMinute, msPerSecond.
  replace (day * 86400000 + h * 3600000 + m * 60000 - tza + tza)
    with (day * 86400000 + h * 3600000 + m * 60000) by lia.
  split; [repeat f_equal | ]; Z.to_euclidean_division_equations; lia.
Qed.

Lemma atTimeOfDay_next tza day h m :
  atTimeOfDay tza day h m + msPerDay = atTimeOfDay tza (day + 1) h m.
Proof. unfold atTimeOfDay, UTC. lia. Qed.

Lemma secondsUntil_int t n :
  AlarmScheduler.secondsUntil (DateAt t) (JS.Int n) = JS.Int (Z.max 1 ((t - n) / 1000)).
Proof.
  unfold AlarmScheduler.secondsUntil, JS.sub, JS.neg. cbn [getTime JS.Int].
  change (JS.Decimal (- n) 0) with (JS.Int (- n)).
  rewrite add_int. unfold JS.divThousand, JS.floor, JS.Int at 2.
  change (if 0 <=? 0 - 3 then (t + - n) * 10 ^ (0 - 3) else (t + - n) / 10 ^ (- (0 - 3)))
    with ((t + - n) / 1000).
  replace (t + - n) with (t - n) by lia.
  unfold JS.max. cbn [JS.Int]. change (JS.Decimal 1 0) with (JS.Int 1).
  change (JS.Decimal ((t - n) / 1000) 0) with (JS.Int ((t - n) / 1000)).
  rewrite le_int. destruct (Z.leb_spec 1 ((t - n) / 1000)); f_equal; lia.
Qed.

(** ** Strings, times of day and the grammar of inline assets *)

Lemma append_String a s t : String a s +:+ t = String a (s +:+ t).
Proof. reflexivity. Qed.

Lemma append_empty t : EmptyString +:+ t = t.
Proof. reflexivity. Qed.

Lemma append_cancel s t : s +:+ t = s -> t = EmptyString.
Proof.
  induction s as [ | a s IH].
  - now rewrite append_empty.
  - rewrite append_String. intros [= H]. auto.
Qed.

Lemma truthy_nonempty s : JS.truthy s = true <-> s <> EmptyString.
Proof. destruct s; cbn; split; congruence. Qed.

Lemma digit_cases a :
  0 <= a <= 9 ->
  a = 0 \/ a = 1 \/ a = 2 \/ a = 3 \/ a = 4 \/ a = 5 \/ a = 6 \/ a = 7 \/ a = 8 \/ a = 9.
Proof. lia. Qed.

Ltac each_digit H :=
  apply digit_cases in H;
  repeat (destruct H as [H | H]; [subst | ]); [ .. | subst].

Lemma digit_not_colon a : 0 <= a <= 9 -> Ascii.eqb (JS.digitChar a) ":" = false.
Proof. intros H. each_digit H; reflexivity. Qed.

Lemma Number_two_digits a b :
  0 <= a <= 9 -> 0 <= b <= 9 ->
  JS.Number (String (JS.digitChar a) (String (JS.digitChar b) EmptyString))
  = JS.Int (10 * a + b).
Proof. intros Ha Hb. each_digit Ha; each_digit Hb; reflexivity. Qed.

Lemma two_digits n :
  0 <= n <= 99 -> 0 <= n / 10 <= 9 /\ 0 <= n mod 10 <= 9 /\ 10 * (n / 10) + n mod 10 = n.
Proof. intros H. Z.to_euclidean_division_equations. lia. Qed.

Lemma Number_padStart2 n : 0 <= n <= 99 -> JS.Number (JS.padStart2 n) = JS.Int n.
Proof.
  intros H. destruct (two_digits n H) as (H1 & H0 & E).
  unfold JS.padStart2. rewrite Number_two_digits by assumption. now rewrite E.
Qed.

Lemma split_timeOfDay h m :
  0 <= h <= 99 -> 0 <= m <= 99 ->
  JS.split ":" (timeOfDay h m) = [JS.padStart2 h; JS.padStart2 m].
Proof.
  intros Hh Hm. unfold timeOfDay, JS.padStart2.
  destruct (two_digits h Hh) as (h1 & h0 & _), (two_digits m Hm) as (m1 & m0 & _).
  repeat (rewrite append_String || rewrite append_empty). cbn [JS.split].
  rewrite !digit_not_colon by assumption. reflexivity.
Qed.

Lemma parts_timeOfDay h m :
  0 <= h <= 99 -> 0 <= m <= 99 ->
  map JS.Number (JS.split ":" (timeOfDay h m)) = [JS.Int h; JS.Int m].
Proof.
  intros Hh Hm. rewrite split_timeOfDay by assumption.
  cbn [map]. now rewrite !Number_padStart2.
Qed.

Lemma digitChar_code a :
  JS.isDigit a = true -> a = JS.digitChar (JS.digitValue a) /\ 0 <= JS.digitValue a <= 9.
Proof.
  unfold JS.isDigit, JS.digitValue, JS.digitChar, JS.code. intros H. rewrite H.
  apply andb_true_iff in H as [H1 H2]. split; [ | lia].
  replace (Z.to_N (48 + (Z.of_N (N_of_ascii a) - 48))) with (N_of_ascii a) by lia.
  now rewrite ascii_N_embedding.
Qed.

Lemma parseTimeOfDay_picker s h m :
  parseTimeOfDay s = Some (h, m) ->
  s = timeOfDay h m /\ 0 <= h <= 99 /\ 0 <= m <= 99.
Proof.
  unfold parseTimeOfDay.
  destruct s as [ | a [ | b [ | c [ | d [ | e [ | ? ?]]]]]]; try discriminate.
  destruct (JS.isDigit a) eqn:Ha; [ | discriminate].
  destruct (JS.isDigit b) eqn:Hb; [ | discriminate].
  destruct (Ascii.eqb_spec c ":") as [-> | ]; [ | discriminate].
  destruct (JS.isDigit d) eqn:Hd; [ | discriminate].
  destruct (JS.isDigit e) eqn:He; [ | discriminate].
  cbn [andb]. intros [= <- <-].
  apply digitChar_code in Ha as [Ea Ra], Hb as [Eb Rb], Hd as [Ed Rd], He as [Ee Re].
  split; [ | lia].
  unfold timeOfDay, JS.padStart2.
  repeat (rewrite append_String || rewrite append_empty).
  replace ((10 * JS.digitValue a + JS.digitValue b) / 10) with (JS.digitValue a)
    by (Z.to_euclidean_division_equations; lia).
  replace ((10 * JS.digitValue a + JS.digitValue b) mod 10) with (JS.digitValue b)
    by (Z.to_euclidean_division_equations; lia).
  replace ((10 * JS.digitValue d + JS.digitValue e) / 10) with (JS.digitValue d)
    by (Z.to_euclidean_division_equations; lia).
  replace ((10 * JS.digitValue d + JS.digitValue e) mod 10) with (JS.digitValue e)
    by (Z.to_euclidean_division_equations; lia).
  congruence.
Qed.

Lemma dropPrefix_Some p s r : JS.dropPrefix p s = Some r <-> s = p +:+ r.
Proof.
  revert s. induction p as [ | a p IH]; intros s.
  - cbn. rewrite append_empty. split; congruence.
  - rewrite append_String. destruct s as [ | b s]; cbn [JS.dropPrefix].
    + split; discriminate.
    + destruct (Ascii.eqb_spec a b) as [<- | Hne].
      * rewrite IH. split; congruence.
      * split; [discriminate | congruence].
Qed.

Lemma startsWith_dropPrefix p s :
  JS.startsWith p s = match JS.dropPrefix p s with Some _ => true | None => false end.
Proof.
  revert s. induction p as [ | a p IH]; intros s; [reflexivity | ].
  destruct s as [ | b s]; [reflexivity | ]. cbn.
  destruct (Ascii.eqb a b); [apply IH | reflexivity].
Qed.

Lemma spanNot_lacks c mime rest :
  lacks c mime = true ->
  DataUri.spanNot c (mime +:+ String c rest) = (mime, String c rest).
Proof.
  induction mime as [ | a mime IH]; intros H.
  - rewrite append_empty. cbn. now rewrite Ascii.eqb_refl.
  - cbn [lacks] in H. apply andb_true_iff in H as [Ha H].
    rewrite append_String. cbn [DataUri.spanNot].
    apply negb_true_iff in Ha. rewrite Ha. now rewrite IH.
Qed.

Lemma spanNot_split c s mime rest :
  DataUri.spanNot c s = (mime, rest) ->
  s = mime +:+ rest /\ lacks c mime = true.
Proof.
  revert mime rest. induction s as [ | a s IH]; intros mime rest.
  - cbn. intros [= <- <-]. now split.
  - cbn [DataUri.spanNot]. destruct (Ascii.eqb a c) eqn:Ha.
    + intros [= <- <-]. now split.
    + destruct (DataUri.spanNot c s) as [p r]. intros [= <- <-].
      destruct (IH p r eq_refl) as [-> Hl]. split; [reflexivity | ].
      cbn [lacks]. now rewrite Ha, Hl.
Qed.

(** The regular expression accepts the grammar with a payload that is
    not empty, and its group is the payload. *)
Lemma matchGroup_grammar s payload :
  DataUri.matchGroup s = Some payload
  <-> exists mime, inlineAsset s mime payload /\ payload <> EmptyString.
Proof.
  unfold DataUri.matchGroup, inlineAsset. split.
  - destruct (JS.dropPrefix "data:" s) as [r | ] eqn:Hd; [ | discriminate].
    apply dropPrefix_Some in Hd as ->.
    destruct (DataUri.spanNot ";" r) as [mime r1] eqn:Hs.
    apply spanNot_split in Hs as [-> Hl].
    destruct (JS.truthy mime) eqn:Hm; [ | discriminate].
    destruct (JS.dropPrefix ";base64," r1) as [p | ] eqn:Hb; [ | discriminate].
    apply dropPrefix_Some in Hb as ->.
    destruct (JS.truthy p) eqn:Hp; [ | discriminate].
    destruct (DataUri.noLineTerminator p) eqn:Hn; [ | discriminate].
    intros [= <-]. exists mime. apply truthy_nonempty in Hm, Hp. repeat split; assumption.
  - intros (mime & (-> & Hm & Hl & Hn) & Hp).
    assert (E : JS.dropPrefix "data:" ("data:" +:+ mime +:+ ";base64," +:+ payload)
                = Some (mime +:+ ";base64," +:+ payload)) by now apply dropPrefix_Some.
    rewrite E. change (";base64," +:+ payload) with (String ";" ("base64," +:+ payload)).
    rewrite spanNot_lacks by assumption.
    apply truthy_nonempty in Hm, Hp. rewrite Hm.
    assert (E2 : JS.dropPrefix ";base64," (String ";" ("base64," +:+ payload)) = Some payload)
      by now apply dropPrefix_Some.
    rewrite E2, Hp, Hn. reflexivity.
Qed.

Lemma matchGroup_none s : DataUri.matchGroup s = None <-> ~ matchesInlineGrammar s.
Proof.
  unfold matchesInlineGrammar. split.
  - intros H (mime & payload & Hg).
    assert (DataUri.matchGroup s = Some payload) by (apply matchGroup_grammar; eauto).
    congruence.
  - intros H. destruct (DataUri.matchGroup s) as [p | ] eqn:E; [ | reflexivity].
    apply matchGroup_grammar in E as (mime & Hg). exfalso. apply H. eauto.
Qed.

Lemma matchGroup_isDataUri s p : DataUri.matchGroup s = Some p -> DataUri.isDataUri s = true.
Proof.
  unfold DataUri.matchGroup, DataUri.isDataUri. rewrite startsWith_dropPrefix.
  destruct (JS.dropPrefix "data:" s); [reflexivity | discriminate].
Qed.

(** ** Running the code *)

(** How [bind] runs once the first computation is known. *)
Lemma bind_returns {A B} (m : M A) (k : A -> M B) w a :
  run m w = Returns a -> bind m k w = k a (after m w).
Proof. unfold run, after, bind. destruct (m w) as [o w']. cbn. now intros ->. Qed.

Lemma bind_eq {A B} (m : M A) (k : A -> M B) w a w' :
  m w = (Returns a, w') -> bind m k w = k a w'.
Proof. unfold bind. now intros ->. Qed.

Lemma bind_modify {B} f (k : unit -> M B) w : bind (modify f) k w = k tt (f w).
Proof. reflexivity. Qed.

Lemma bind_isMounted {B} (k : bool -> M B) w :
  bind Playback.isMountedCurrent k w = k (isMounted (session w)) w.
Proof. reflexivity. Qed.

Lemma drop_journal {A} (l es : list A) : drop (length l) (l ++ es) = es.
Proof. now rewrite drop_app_length. Qed.

Lemma drop_journal_nil {A} (l : list A) : drop (length l) l = [].
Proof. apply drop_all. Qed.

Lemma Forall_tails {A} (P : A -> Prop) (l : list A) k :
  Forall P l -> Forall P (Nat.iter k (@tl A) l).
Proof.
  intros H. induction k as [ | k IH]; [exact H | ].
  simpl. destruct IH; [constructor | assumption].
Qed.

Lemma noRejection_nth w k :
  noRejection w -> rejects (hd cooperative (Nat.iter k (@tl Answer) (answers w))) = false.
Proof.
  intros H. apply (Forall_tails _ _ k) in H. destruct H; [reflexivity | assumption].
Qed.

Lemma hostCooperates_nth w k :
  hostCooperates w ->
  rejects (hd cooperative (Nat.iter k (@tl Answer) (answers w))) = false
  /\ persists (hd cooperative (Nat.iter k (@tl Answer) (answers w))) = true.
Proof.
  intros H. apply (Forall_tails _ _ k) in H. destruct H; [now split | assumption].
Qed.

(** The first answers of a host that rejects nothing. *)
Ltac no_rejection H :=
  pose proof (noRejection_nth _ 0 H);
  pose proof (noRejection_nth _ 1 H);
  pose proof (noRejection_nth _ 2 H);
  pose proof (noRejection_nth _ 3 H);
  pose proof (noRejection_nth _ 4 H);
  pose proof (noRejection_nth _ 5 H);
  simpl Nat.iter in *; cbn [answers] in *.

(** The first answers of a host that cooperates. *)
Ltac cooperation H :=
  destruct (hostCooperates_nth _ 0 H);
  destruct (hostCooperates_nth _ 1 H);
  destruct (hostCooperates_nth _ 2 H);
  destruct (hostCooperates_nth _ 3 H);
  destruct (hostCooperates_nth _ 4 H);
  destruct (hostCooperates_nth _ 5 H);
  simpl Nat.iter in *; cbn [answers] in *.

(** The journal after a run as the journal before it and the new calls. *)
Ltac journal :=
  repeat rewrite <- app_assoc in *; cbn [app] in *;
  rewrite ?drop_journal, ?drop_journal_nil in *.

(** A rejected cancellation contradicts [cancellationsHonoured]. *)
Ltac honoured :=
  repeat match goal with
    | H : Forall _ (_ :: _) |- _ => inversion H; clear H; subst
    end;
  try match goal with
    | H : isCancellation _ = true -> _ = false |- _ =>
        specialize (H eq_refl); unfold rejected in H; cbn in H; congruence
    end.

(** Whether one of the calls of a run was rejected, from the case at hand. *)
Ltac rejections :=
  unfold rejected; cbn [existsb reply orb];
  repeat match goal with
    | H : rejects _ = _ |- _ => rewrite H; clear H
    end;
  cbn [orb].

(** Symbolic execution of the scheduler: one case for each answer of the
    host that the code looks at. *)
Ltac exec_step :=
  match goal with
  | |- context [if rejects ?a then _ else _] => destruct (rejects a) eqn:?
  | |- context [if isGranted ?a then _ else _] => destruct (isGranted a) eqn:?
  | |- context [if negb (isGranted ?a) then _ else _] => destruct (isGranted a) eqn:?
  | |- context [match ?x with _ => _ end] => is_var x; destruct x eqn:?
  end.

Ltac simp :=
  cbn -[AlarmScheduler.nextAlarmTime AlarmScheduler.secondsUntil TimeClip filter drop
        Z.add Z.sub Z.mul] in *.

Ltac exec := repeat (simp; try exec_step).

Ltac unfold_scheduler :=
  unfold run, after, AlarmScheduler.scheduleAlarm, AlarmScheduler.cancelExistingAlarm,
    AlarmScheduler.requestNotificationPermissions, AlarmScheduler.calculateNextAlarmTime,
    Notification_requestPermission, notificationInWindow,
    getPermissionsAsync, requestPermissionsAsync, cancelScheduledNotificationAsync,
    scheduleNotificationAsync, newDate, Date_now, readClock, console_error, Platform_OS,
    tryCatch, bind, ret, throw, get, modify, hostCall, answered in *.

(** Symbolic execution of the media cache: one case for each answer of
    the host, each file looked up and each test on the source. *)
Ltac unfold_cache :=
  unfold run, after, save, remove,
    AudioStorage.saveAudioLocally, AudioStorage.getLocalAudioPath,
    AudioStorage.deleteLocalAudio, AudioStorage.ensureDirectoryExists,
    AudioStorage.getAudioFilePath, AudioStorage.getAudioDirectoryPath,
    NotificationSound.saveNotificationSound, NotificationSound.deleteNotificationSound,
    NotificationSound.ensureSoundsDirectoryExists,
    NotificationSound.getNotificationSoundPath, NotificationSound.getLibrarySoundsPath,
    getInfoAsync, makeDirectoryAsync, deleteAsync, writeAsStringAsync, downloadAsync,
    console_error, Platform_OS,
    tryCatch, bind, ret, throw, get, modify, hostCall, answered in *.

Ltac simp_cache :=
  cbn -[lookup insert delete DataUri.isDataUri DataUri.extractBase64FromDataUri
        Base64.decode JS.truthy AudioStorage.audioFilePath AudioStorage.audioDirectoryPath
        NotificationSound.notificationSoundPath NotificationSound.librarySoundsPath
        Z.eqb drop existsb] in *.

Ltac cache_step :=
  match goal with
  | |- context [if rejects ?a then _ else _] => destruct (rejects a) eqn:?
  | |- context [if persists ?a then _ else _] => destruct (persists a) eqn:?
  | |- context [if DataUri.isDataUri ?s then _ else _] => destruct (DataUri.isDataUri s) eqn:?
  | |- context [if JS.truthy ?s then _ else _] => destruct (JS.truthy s) eqn:?
  | |- context [if ?a =? ?b then _ else _] => destruct (Z.eqb_spec a b)
  | |- context [if negb (?a =? ?b) then _ else _] => destruct (Z.eqb_spec a b)
  | |- context [match DataUri.extractBase64FromDataUri ?s with _ => _ end] =>
      destruct (DataUri.extractBase64FromDataUri s) eqn:?
  | |- context [match Base64.decode ?s with _ => _ end] => destruct (Base64.decode s) eqn:?
  | |- context [match ?m !! ?k with _ => _ end] => destruct (m !! k) eqn:?
  end.

Ltac exec_cache := repeat (simp_cache; try cache_step).

(** The same, using what the hypotheses say of a test before splitting
    on it. *)
Ltac cache_known :=
  match goal with
  | |- context [<[?k:=?v]> ?m !! ?k] => rewrite (lookup_insert_eq m k v)
  | H : ?x = _ |- context [if ?x then _ else _] => rewrite H
  | H : ?x = _ |- context [match ?x with _ => _ end] => rewrite H
  end.

Ltac exec_known := repeat (simp_cache; try (cache_known || cache_step)).

Ltac settle_returns :=
  eexists; split; [reflexivity | ]; rejections; (reflexivity || discriminate || congruence || auto).

(** ** The alarm scheduler, call by call *)

Lemma calculateNextAlarmTime_frozen w now s :
  clockReads 2 w = [now; now] ->
  run (AlarmScheduler.calculateNextAlarmTime s) w
  = Returns (AlarmScheduler.nextAlarmTime (tza w) s (TimeClip (Some now)) (TimeClip (Some now))).
Proof.
  unfold clockReads, readings. intros H. injection H as H1 H2.
  unfold run, AlarmScheduler.calculateNextAlarmTime, newDate, readClock, bind, ret, get.
  cbn. rewrite H1 in H2 |- *. rewrite H2. reflexivity.
Qed.

(** Two digits each for the hour and the minute, whatever their values:
    the date of [now] at midnight plus [h] hours and [m] minutes, and one
    day more when that is not after [now]. *)
Lemma calculateNextAlarmTime_digits w now h m :
  0 <= h <= 99 -> 0 <= m <= 99 ->
  clockReads 2 w = [now; now] ->
  Z.abs (tza w) <= msPerDay ->
  Z.abs now <= maxTime - 6 * msPerDay ->
  let first := atTimeOfDay (tza w) (localDay (tza w) now) h m in
  run (AlarmScheduler.calculateNextAlarmTime (timeOfDay h m)) w
  = Returns (DateAt (if now <? first then first else first + msPerDay)).
Proof.
  intros Hh Hm Hclock Htz Hnow first.
  assert (Hnear : now - msPerDay < first < now + 5 * msPerDay).
  { subst first. unfold atTimeOfDay, localDay, UTC, LocalTime, Day,
      msPerDay, msPerHour, msPerMinute.
    Z.to_euclidean_division_equations. lia. }
  rewrite (calculateNextAlarmTime_frozen w now) by assumption.
  unfold AlarmScheduler.nextAlarmTime.
  rewrite parts_timeOfDay by lia. cbn [lookup list_lookup JS.ToNumber].
  rewrite (TimeClip_in_range now) by (unfold msPerDay, maxTime in *; lia).
  rewrite setHours_int. fold first.
  rewrite (TimeClip_in_range first) by (unfold msPerDay, maxTime in *; lia).
  unfold DateTime.le. cbn [getTime]. rewrite le_int.
  destruct (Z.ltb_spec now first) as [Hlt | Hge].
  - destruct (Z.leb_spec first now); [lia | reflexivity].
  - destruct (Z.leb_spec first now); [ | lia].
    rewrite setDate_next.
    rewrite TimeClip_in_range by (unfold msPerDay, maxTime in *; lia). reflexivity.
Qed.

Lemma filter_notAlarm_alarms (l : list NotificationRequest) :
  filter (fun r => identifier r = AlarmScheduler.ALARM_NOTIFICATION_ID)
    (filter (fun r => identifier r ≠ AlarmScheduler.ALARM_NOTIFICATION_ID) l) = [].
Proof.
  induction l as [ | r l IH]; [reflexivity | ].
  rewrite (filter_cons (fun r => identifier r ≠ _)).
  destruct (decide (identifier r ≠ AlarmScheduler.ALARM_NOTIFICATION_ID)) as [Hne | He];
    [ | exact IH].
  rewrite filter_cons. destruct (decide _); [contradiction | exact IH].
Qed.

Lemma scheduleAlarm_returns p w :
  exists r, run (AlarmScheduler.scheduleAlarm p) w = Returns r.
Proof.
  unfold_scheduler. destruct w as [os dd tz ck dr fs wn pm rg ans jr cs ss].
  destruct os; exec; eauto.
Qed.

Lemma scheduleAlarm_journal p w :
  exists es, journal (after (AlarmScheduler.scheduleAlarm p) w) = journal w ++ es.
Proof.
  unfold_scheduler. destruct w as [os dd tz ck dr fs wn pm rg ans jr cs ss].
  destruct os; exec; journal; eauto using app_nil_r.
Qed.

Lemma scheduleAlarm_platform p w :
  PlatformOS (after (AlarmScheduler.scheduleAlarm p) w) = PlatformOS w.
Proof.
  unfold_scheduler. destruct w as [os dd tz ck dr fs wn pm rg ans jr cs ss].
  destruct os; exec; reflexivity.
Qed.

Lemma scheduleAlarm_registered p w :
  let w' := after (AlarmScheduler.scheduleAlarm p) w in
  cancellationsHonoured w w' ->
  registered w' = registered w
  \/ alarms w' = []
  \/ exists secs,
       alarms w' =
         [AlarmScheduler.alarmRequest (AlarmScheduler.name p)
            (AlarmScheduler.notificationSound (AlarmScheduler.soundFileName p)) secs].
Proof.
  unfold cancellationsHonoured, newEntries, alarms. unfold_scheduler.
  destruct w as [os dd tz ck dr fs wn pm rg ans jr cs ss].
  destruct os; exec; journal; intros H; eauto; honoured.
  all: right; rewrite ?filter_app, filter_notAlarm_alarms; eauto.
Qed.

Lemma scheduleAlarm_success p w r :
  let w' := after (AlarmScheduler.scheduleAlarm p) w in
  PlatformOS w <> web ->
  run (AlarmScheduler.scheduleAlarm p) w = Returns r ->
  success r = true ->
  cancellationsHonoured w w' ->
  exists secs,
    alarms w' =
      [AlarmScheduler.alarmRequest (AlarmScheduler.name p)
         (AlarmScheduler.notificationSound (AlarmScheduler.soundFileName p)) secs].
Proof.
  unfold cancellationsHonoured, newEntries, alarms. unfold_scheduler.
  destruct w as [os dd tz ck dr fs wn pm rg ans jr cs ss].
  destruct os; exec; journal; intros Hos Hr Hs H; try congruence;
    try (injection Hr as <-; discriminate Hs); honoured.
  all: rewrite ?filter_app, filter_notAlarm_alarms; eauto.
Qed.

Lemma scheduleAlarm_delay p w r :
  let w' := after (AlarmScheduler.scheduleAlarm p) w in
  PlatformOS w <> web ->
  run (AlarmScheduler.scheduleAlarm p) w = Returns r ->
  success r = true ->
  exists alarmTime,
    scheduledTime r = Some alarmTime
    /\ last (registered w')
       = Some (AlarmScheduler.alarmRequest (AlarmScheduler.name p)
                 (AlarmScheduler.notificationSound (AlarmScheduler.soundFileName p))
                 (AlarmScheduler.secondsUntil alarmTime (JS.Int (clock w')))).
Proof.
  unfold_scheduler. destruct w as [os dd tz ck dr fs wn pm rg ans jr cs ss].
  destruct os; exec; intros Hos Hr Hs; try congruence;
    injection Hr as <-; try discriminate Hs; cbn [scheduledTime];
    (eexists; split; [reflexivity | ]); now rewrite last_snoc.
Qed.

Lemma scheduleAlarm_cancels_first p w :
  cancelsBeforeRegistering None
    (map call (newEntries w (after (AlarmScheduler.scheduleAlarm p) w))) = true.
Proof.
  unfold newEntries. unfold_scheduler.
  destruct w as [os dd tz ck dr fs wn pm rg ans jr cs ss].
  destruct os; exec; journal; reflexivity.
Qed.

Lemma cancelExistingAlarm_returns w :
  run AlarmScheduler.cancelExistingAlarm w = Returns tt.
Proof.
  unfold_scheduler. destruct w as [os dd tz ck dr fs wn pm rg ans jr cs ss].
  destruct os; exec; reflexivity.
Qed.

Lemma cancelExistingAlarm_journal w :
  exists es, journal (after AlarmScheduler.cancelExistingAlarm w) = journal w ++ es.
Proof.
  unfold_scheduler. destruct w as [os dd tz ck dr fs wn pm rg ans jr cs ss].
  destruct os; exec; journal; eauto using app_nil_r.
Qed.

Lemma cancelExistingAlarm_registered w :
  let w' := after AlarmScheduler.cancelExistingAlarm w in
  cancellationsHonoured w w' ->
  registered w' = registered w \/ alarms w' = [].
Proof.
  unfold cancellationsHonoured, newEntries, alarms. unfold_scheduler.
  destruct w as [os dd tz ck dr fs wn pm rg ans jr cs ss].
  destruct os; exec; journal; intros H; eauto; honoured.
  all: right; apply filter_notAlarm_alarms.
Qed.

(** ** The media cache, call by call *)

Lemma save_returns k src w :
  exists r, run (save k src) w = Returns r
            /\ (someRejection w (after (save k src) w) = true -> r = None).
Proof.
  unfold someRejection, newEntries. unfold_cache.
  destruct w as [os dd tz ck dr fs wn pm rg ans jr cs ss].
  destruct k, os; exec_cache; journal; settle_returns.
Qed.

Lemma getLocalAudioPath_returns w :
  exists r, run AudioStorage.getLocalAudioPath w = Returns r
            /\ (someRejection w (after AudioStorage.getLocalAudioPath w) = true -> r = None).
Proof.
  unfold someRejection, newEntries. unfold_cache.
  destruct w as [os dd tz ck dr fs wn pm rg ans jr cs ss].
  destruct os; exec_cache; journal; settle_returns.
Qed.

Lemma remove_returns k w :
  run (remove k) w = Returns tt
  /\ (someRejection w (after (remove k) w) = true -> files (after (remove k) w) = files w).
Proof.
  unfold someRejection, newEntries. unfold_cache.
  destruct w as [os dd tz ck dr fs wn pm rg ans jr cs ss].
  destruct k, os; exec_cache; journal; (split; [reflexivity | ]); rejections;
    (reflexivity || discriminate || congruence || auto).
Qed.

Lemma inline_save_writes k w src mime payload bytes :
  let w' := after (save k src) w in
  PlatformOS w <> web ->
  inlineAsset src mime payload -> payload <> EmptyString ->
  Base64.decode payload = Some bytes ->
  hostCooperates w ->
  run (save k src) w = Returns (Some (savedAs k w))
  /\ fileAt (fixedPath k w) w' = Some bytes
  /\ map call (writes w w') = [WriteAsString (fixedPath k w) payload]
  /\ transfers w w' = [].
Proof.
  intros w' Hos Hg Hp Hd Hc. subst w'.
  assert (Hm : DataUri.extractBase64FromDataUri src = Some payload)
    by (apply matchGroup_grammar; eauto).
  pose proof (matchGroup_isDataUri _ _ Hm) as Hi.
  apply truthy_nonempty in Hp.
  unfold writes, transfers, fileAt, newEntries, savedAs, fixedPath. unfold_cache.
  destruct w as [os dd tz ck dr fs wn pm rg ans jr cs ss].
  cooperation Hc. cbn [PlatformOS] in Hos.
  destruct k, os; try congruence; exec_known; journal;
    cbn [List.filter isWrite isDownload call map];
    rewrite ?lookup_insert_eq; repeat split; reflexivity.
Qed.

Lemma inline_save_refused k w src :
  let w' := after (save k src) w in
  PlatformOS w <> web ->
  DataUri.isDataUri src = true ->
  ~ matchesInlineGrammar src ->
  run (save k src) w = Returns None /\ writes w w' = [] /\ transfers w w' = [].
Proof.
  intros w' Hos Hi Hg. subst w'.
  apply matchGroup_none in Hg.
  change (DataUri.extractBase64FromDataUri src = None) in Hg.
  unfold writes, transfers, newEntries. unfold_cache.
  destruct w as [os dd tz ck dr fs wn pm rg ans jr cs ss]. cbn [PlatformOS] in Hos.
  destruct k, os; try congruence; exec_known; journal;
    cbn [List.filter isWrite isDownload call]; repeat split; reflexivity.
Qed.

Lemma inline_never_transferred k w src :
  DataUri.isDataUri src = true -> transfers w (after (save k src) w) = [].
Proof.
  intros Hi. unfold transfers, newEntries. unfold_cache.
  destruct w as [os dd tz ck dr fs wn pm rg ans jr cs ss].
  destruct k, os; exec_known; journal; reflexivity.
Qed.

Lemma remote_save_transfers k w src :
  let w' := after (save k src) w in
  let r := run (save k src) w in
  PlatformOS w <> web ->
  DataUri.isDataUri src = false ->
  (transfers w w' = [] /\ someRejection w w' = true /\ r = Returns None)
  \/ exists a,
       transfers w w' = [{| call := Download src (fixedPath k w); reply := a |}]
       /\ (rejects a = true \/ status a <> 200 -> r = Returns None)
       /\ (rejects a = false -> status a = 200 ->
           match k with
           | playbackAudio => r = Returns (Some (savedAs k w))
           | notificationSound =>
               r = Returns (Some (savedAs k w)) /\ present (fixedPath k w) w' = true
               \/ r = Returns None
           end).
Proof.
  intros w' r Hos Hi. subst w' r.
  unfold transfers, someRejection, present, savedAs, fixedPath, newEntries. unfold_cache.
  destruct w as [os dd tz ck dr fs wn pm rg ans jr cs ss]. cbn [PlatformOS] in Hos.
  destruct k, os; try congruence; exec_known; journal;
    cbn [List.filter isWrite isDownload call].
  all: try (left; repeat split; rejections; reflexivity).
  all: right; eexists; split; [reflexivity | ]; split; intros; try tauto; try congruence.
  all: try match goal with H : _ \/ _ |- _ => destruct H; congruence end.
  all: try reflexivity.
  all: try (right; reflexivity).
  all: try (left; split; [reflexivity | ]).
Qed.

(** ** The next occurrence of a time of day (C1) *)

(** C1. When the clock reads [now] throughout the call and the time of
    day is a string [HH:MM] with the hour [h] in 0..23 and the minute [m]
    in 0..59, [calculateNextAlarmTime] returns the instant of the local
    day of [now] at [h]:[m]:00.000 when that instant is strictly after
    [now], and otherwise the instant of the following local day at the
    same time of day, which is exactly one day later. *)
Theorem calculateNextAlarmTime_next_occurrence :
  forall (w : World) (now : Z) (s : string) (h m : Z),
    parseTimeOfDay s = Some (h, m) ->
    h <= 23 -> m <= 59 ->
    clockReads 2 w = [now; now] ->
    Z.abs (tza w) <= msPerDay ->
    Z.abs now <= maxTime - 6 * msPerDay ->
    let today := atTimeOfDay (tza w) (localDay (tza w) now) h m in
    let tomorrow := atTimeOfDay (tza w) (localDay (tza w) now + 1) h m in
    let next := if now <? today then today else tomorrow in
    run (AlarmScheduler.calculateNextAlarmTime s) w = Returns (DateAt next)
    /\ tomorrow = today + msPerDay
    /\ now < next
    /\ localClock (tza w) next = (h, m, 0, 0)
    /\ localDay (tza w) next = localDay (tza w) now + (if now <? today then 0 else 1).
Proof.
  intros w now s h m Hs Hh Hm Hclock Htz Hnow today tomorrow next.
  apply parseTimeOfDay_picker in Hs as (-> & Hh0 & Hm0).
  assert (Hnext : tomorrow = today + msPerDay).
  { subst today tomorrow. now rewrite atTimeOfDay_next. }
  assert (Hnear : now - msPerDay < today).
  { subst today. unfold atTimeOfDay, localDay, UTC, LocalTime, Day,
      msPerDay, msPerHour, msPerMinute.
    Z.to_euclidean_division_equations. lia. }
  split; [ | split; [exact Hnext | ] ].
  - rewrite calculateNextAlarmTime_digits with (now := now) by (assumption || lia).
    fold today. subst next. rewrite Hnext. reflexivity.
  - subst next. destruct (Z.ltb_spec now today) as [Hlt | Hge]; subst today tomorrow.
    + split; [exact Hlt | ].
      destruct (localClock_atTimeOfDay (tza w) (localDay (tza w) now) h m) as [-> ->];
        [lia | lia | ].
      split; [reflexivity | lia].
    + split; [unfold msPerDay in *; lia | ].
      destruct (localClock_atTimeOfDay (tza w) (localDay (tza w) now + 1) h m) as [-> ->];
        [lia | lia | ].
      split; reflexivity.
Qed.

(** The examples of C1: at 2024-01-01T10:00:00, ["11:30"] is for the same
    day and ["09:00"] for the next. *)
Lemma calculateNextAlarmTime_examples :
  run (AlarmScheduler.calculateNextAlarmTime "11:30") morning
    = Returns (DateAt (civil 2024 1 1 11 30 0 0))
  /\ run (AlarmScheduler.calculateNextAlarmTime "09:00") morning
    = Returns (DateAt (civil 2024 1 2 9 0 0 0)).
Proof.
  split.
  - refine (proj1 (calculateNextAlarmTime_next_occurrence
                     morning tenOClock "11:30" 11 30 _ _ _ _ _ _));
      [reflexivity | lia | lia | reflexivity | vm_compute; discriminate
      | vm_compute; discriminate].
  - refine (proj1 (calculateNextAlarmTime_next_occurrence
                     morning tenOClock "09:00" 9 0 _ _ _ _ _ _));
      [reflexivity | lia | lia | reflexivity | vm_compute; discriminate
      | vm_compute; discriminate].
Defined.

(** ** One alarm at a time (C2) *)

Lemma perform_returns op w : run (perform op) w = Returns tt.
Proof.
  destruct op as [p | ]; [ | apply cancelExistingAlarm_returns].
  destruct (scheduleAlarm_returns p w) as [r Hr].
  unfold run, perform. now rewrite (bind_returns _ _ _ _ Hr).
Qed.

Lemma perform_after_schedule p w :
  after (perform (ScheduleOp p)) w = after (AlarmScheduler.scheduleAlarm p) w.
Proof.
  destruct (scheduleAlarm_returns p w) as [r Hr].
  unfold after at 1, perform. now rewrite (bind_returns _ _ _ _ Hr).
Qed.

Lemma perform_journal op w :
  exists es, journal (after (perform op) w) = journal w ++ es.
Proof.
  destruct op as [p | ].
  - rewrite perform_after_schedule. apply scheduleAlarm_journal.
  - apply cancelExistingAlarm_journal.
Qed.

Lemma perform_alarms op w :
  let w' := after (perform op) w in
  cancellationsHonoured w w' ->
  (length (alarms w) <= 1)%nat -> (length (alarms w') <= 1)%nat.
Proof.
  intros w' Hh Hone. subst w'. destruct op as [p | ].
  - rewrite perform_after_schedule in *.
    destruct (scheduleAlarm_registered p w Hh) as [E | [E | [secs E]]].
    + unfold alarms in *. now rewrite E.
    + rewrite E. cbn. lia.
    + rewrite E. cbn. lia.
  - cbn [perform] in *.
    destruct (cancelExistingAlarm_registered w Hh) as [E | E].
    + unfold alarms in *. now rewrite E.
    + rewrite E. cbn. lia.
Qed.

Lemma performAll_cons op ops w :
  after (performAll (op :: ops)) w = after (performAll ops) (after (perform op) w).
Proof.
  unfold after at 1. cbn [performAll].
  now rewrite (bind_returns _ _ _ _ (perform_returns op w)).
Qed.

Lemma performAll_journal ops w :
  exists es, journal (after (performAll ops) w) = journal w ++ es.
Proof.
  revert w. induction ops as [ | op ops IH]; intros w.
  - exists []. cbn. now rewrite app_nil_r.
  - rewrite performAll_cons.
    destruct (perform_journal op w) as [es1 E1].
    destruct (IH (after (perform op) w)) as [es2 E2].
    exists (es1 ++ es2). now rewrite E2, E1, app_assoc.
Qed.

Lemma honoured_split w w1 w2 es1 es2 :
  journal w1 = journal w ++ es1 ->
  journal w2 = journal w1 ++ es2 ->
  cancellationsHonoured w w2 ->
  cancellationsHonoured w w1 /\ cancellationsHonoured w1 w2.
Proof.
  unfold cancellationsHonoured, newEntries. intros E1 E2.
  rewrite E2, E1, <- app_assoc, !drop_journal, (app_assoc (journal w)), drop_journal.
  apply Forall_app.
Qed.

Lemma performAll_alarms ops w :
  let w' := after (performAll ops) w in
  cancellationsHonoured w w' ->
  (length (alarms w) <= 1)%nat -> (length (alarms w') <= 1)%nat.
Proof.
  revert w. induction ops as [ | op ops IH]; intros w w'; subst w'.
  - cbn. auto.
  - rewrite performAll_cons. intros Hh Hone.
    destruct (perform_journal op w) as [es1 E1].
    destruct (performAll_journal ops (after (perform op) w)) as [es2 E2].
    destruct (honoured_split _ _ _ _ _ E1 E2 Hh) as [H1 H2].
    apply IH; [exact H2 | ]. now apply perform_alarms.
Qed.

Lemma scheduleAlarm_tza p w : tza (after (AlarmScheduler.scheduleAlarm p) w) = tza w.
Proof.
  unfold_scheduler. destruct w as [os dd tz ck dr fs wn pm rg ans jr cs ss].
  destruct os; exec; reflexivity.
Qed.

(** In a browser nothing is registered and nothing is cancelled. *)
Lemma scheduleAlarm_web p w :
  PlatformOS w = web -> registered (after (AlarmScheduler.scheduleAlarm p) w) = registered w.
Proof.
  unfold_scheduler. destruct w as [os dd tz ck dr fs wn pm rg ans jr cs ss].
  cbn [PlatformOS]. intros ->. exec; reflexivity.
Qed.

(** [soundFileName || true]. *)
Lemma notificationSound_cases (soundFileName : option string) :
  AlarmScheduler.notificationSound soundFileName
  = match soundFileName with
    | Some (String c s) => SoundFile (String c s)
    | _ => DefaultSound
    end.
Proof. destruct soundFileName as [[ | c s] | ]; reflexivity. Qed.

(** The registration that a successful call leaves, with its delay. *)
Lemma scheduleAlarm_replaces p w r t1 t2 t3 :
  let w' := after (AlarmScheduler.scheduleAlarm p) w in
  let alarmTime :=
    AlarmScheduler.nextAlarmTime (tza w) (AlarmScheduler.wakeUpTime p)
      (TimeClip (Some t1)) (TimeClip (Some t2)) in
  PlatformOS w <> web ->
  run (AlarmScheduler.scheduleAlarm p) w = Returns r ->
  success r = true ->
  cancellationsHonoured w w' ->
  clockReads 3 w = [t1; t2; t3] ->
  scheduledTime r = Some alarmTime
  /\ alarms w'
     = [AlarmScheduler.alarmRequest (AlarmScheduler.name p)
          (AlarmScheduler.notificationSound (AlarmScheduler.soundFileName p))
          (AlarmScheduler.secondsUntil alarmTime (JS.Int t3))].
Proof.
  unfold cancellationsHonoured, newEntries, alarms, clockReads, readings.
  unfold_scheduler. destruct w as [os dd tz ck dr fs wn pm rg ans jr cs ss].
  destruct os; exec; journal; intros Hos Hr Hs H Hc; try congruence;
    try (injection Hr as <-; discriminate Hs); honoured.
  all: injection Hc as <- <- <-; injection Hr as <-; cbn [scheduledTime].
  all: split; [reflexivity | ].
  all: rewrite ?filter_app, filter_notAlarm_alarms; reflexivity.
Qed.

Lemma clockReads_frozen w now :
  clockReads 3 w = [now; now; now] -> clockReads 2 w = [now; now].
Proof. unfold clockReads, readings. intros [= H1 H2 _]. rewrite H1 in H2 |- *. now rewrite H2. Qed.

(** The second call of [scheduleAlarm] on [deafToCancel] reports success
    and leaves the alarm of the first call beside its own; in a browser
    both calls report success and nothing is registered. *)
Lemma rejected_cancellation_leaves_two :
  let phone := after (AlarmScheduler.scheduleAlarm wakeAtSeven) deafToCancel in
  let tab := after (AlarmScheduler.scheduleAlarm wakeAtSeven) grantedBrowser in
  run (AlarmScheduler.scheduleAlarm wakeAtEight) phone
  = Returns {| success := true; resultError := None;
               scheduledTime := Some (DateAt (civil 2024 1 2 8 15 0 0)) |}
  /\ body <$> alarms (after (AlarmScheduler.scheduleAlarm wakeAtEight) phone)
     = ["Ann, your personalized morning audio is ready.";
        "Bea, your personalized morning audio is ready."]
  /\ ~ replacesAsClaimed deafToCancel wakeAtSeven wakeAtEight
  /\ run (AlarmScheduler.scheduleAlarm wakeAtEight) tab
     = Returns {| success := true;
                  resultError := Some "Web notifications have limited background support. Keep the browser tab open for best results.";
                  scheduledTime := Some (DateAt (civil 2024 1 2 8 15 0 0)) |}
  /\ alarms (after (AlarmScheduler.scheduleAlarm wakeAtEight) tab) = []
  /\ ~ replacesAsClaimed grantedBrowser wakeAtSeven wakeAtEight.
Proof.
  split; [vm_compute; reflexivity | ].
  split; [vm_compute; reflexivity | ].
  split; [intros [secs E]; vm_compute in E; discriminate E | ].
  split; [vm_compute; reflexivity | ].
  split; [vm_compute; reflexivity | ].
  intros [secs E]; vm_compute in E; discriminate E.
Qed.

(** C2, amended. [scheduleAlarm] never asks the host to register the
    alarm without having asked it, in the call before, to cancel the
    registration under ["morning-alarm"]. So, from a world with at most
    one registration under that identifier, every sequence of
    [scheduleAlarm] and [cancelExistingAlarm] calls leaves at most one, as
    long as the host rejects none of the cancellations it is asked for:
    a rejected cancellation is logged, and the registration goes on.
    When, on a native platform, a second [scheduleAlarm] reports success
    and its cancellation is not rejected, exactly one registration is
    left under the identifier, and it is that of the second call: its
    name in the body, its sound file, or the default sound without one,
    and the delay to the next occurrence of its wake-up time from the
    three readings [t1], [t2], [t3] that the call makes of the clock.
    With a wake-up time [h]:[m] of the time picker and a clock that
    stands at [now], that delay is the whole number of seconds from
    [now] to the next [h]:[m], and at least one. In a browser
    [scheduleAlarm] registers nothing. *)
Theorem one_alarm_at_a_time :
  (forall (w : World) (p : AlarmScheduler.ScheduleAlarmParams),
      cancelsBeforeRegistering None
        (map call (newEntries w (after (AlarmScheduler.scheduleAlarm p) w))) = true)
  /\ (forall (ops : list Op) (w : World),
        let w' := after (performAll ops) w in
        cancellationsHonoured w w' ->
        (length (alarms w) <= 1)%nat ->
        (length (alarms w') <= 1)%nat)
  /\ (forall (w : World) (first second : AlarmScheduler.ScheduleAlarmParams)
             (r : ScheduleResult) (t1 t2 t3 : Z),
        let w1 := after (AlarmScheduler.scheduleAlarm first) w in
        let w2 := after (AlarmScheduler.scheduleAlarm second) w1 in
        let alarmTime :=
          AlarmScheduler.nextAlarmTime (tza w) (AlarmScheduler.wakeUpTime second)
            (TimeClip (Some t1)) (TimeClip (Some t2)) in
        PlatformOS w <> web ->
        run (AlarmScheduler.scheduleAlarm second) w1 = Returns r ->
        success r = true ->
        cancellationsHonoured w1 w2 ->
        clockReads 3 w1 = [t1; t2; t3] ->
        scheduledTime r = Some alarmTime
        /\ alarms w2
           = [{| identifier := "morning-alarm";
                 title := "Good Morning!";
                 body := AlarmScheduler.name second
                         +:+ ", your personalized morning audio is ready.";
                 sound := match AlarmScheduler.soundFileName second with
                          | Some (String c s) => SoundFile (String c s)
                          | _ => DefaultSound
                          end;
                 priority := "max";
                 interruptionLevel := "timeSensitive";
                 dataType := "morning-alarm";
                 triggerType := "timeInterval";
                 seconds := AlarmScheduler.secondsUntil alarmTime (JS.Int t3) |}])
  /\ (forall (w : World) (first second : AlarmScheduler.ScheduleAlarmParams)
             (r : ScheduleResult) (h m now : Z),
        let w1 := after (AlarmScheduler.scheduleAlarm first) w in
        let w2 := after (AlarmScheduler.scheduleAlarm second) w1 in
        let today := atTimeOfDay (tza w) (localDay (tza w) now) h m in
        let tomorrow := atTimeOfDay (tza w) (localDay (tza w) now + 1) h m in
        let next := if now <? today then today else tomorrow in
        PlatformOS w <> web ->
        run (AlarmScheduler.scheduleAlarm second) w1 = Returns r ->
        success r = true ->
        cancellationsHonoured w1 w2 ->
        parseTimeOfDay (AlarmScheduler.wakeUpTime second) = Some (h, m) ->
        h <= 23 -> m <= 59 ->
        clockReads 3 w1 = [now; now; now] ->
        Z.abs (tza w) <= msPerDay ->
        Z.abs now <= maxTime - 6 * msPerDay ->
        scheduledTime r = Some (DateAt next)
        /\ seconds <$> alarms w2 = [JS.Int (Z.max 1 ((next - now) / 1000))])
  /\ (forall (w : World) (p : AlarmScheduler.ScheduleAlarmParams),
        PlatformOS w = web ->
        registered (after (AlarmScheduler.scheduleAlarm p) w) = registered w).
Proof.
  split; [ | split; [ | split; [ | split] ] ].
  - intros w p. apply scheduleAlarm_cancels_first.
  - apply performAll_alarms.
  - intros w p1 p2 r t1 t2 t3 w1 w2 alarmTime Hos Hr Hs Hh Hc.
    assert (Hos1 : PlatformOS w1 <> web) by (subst w1; now rewrite scheduleAlarm_platform).
    destruct (scheduleAlarm_replaces p2 w1 r t1 t2 t3 Hos1 Hr Hs Hh Hc) as [E1 E2].
    subst w1 alarmTime. rewrite scheduleAlarm_tza in E1, E2.
    split; [exact E1 | ]. subst w2. rewrite E2.
    unfold AlarmScheduler.alarmRequest. now rewrite notificationSound_cases.
  - intros w p1 p2 r h m now w1 w2 today tomorrow next Hos Hr Hs Hh Hp Hh23 Hm59 Hc Htz Hnow.
    assert (Hos1 : PlatformOS w1 <> web) by (subst w1; now rewrite scheduleAlarm_platform).
    destruct (scheduleAlarm_replaces p2 w1 r now now now Hos1 Hr Hs Hh Hc) as [E1 E2].
    apply parseTimeOfDay_picker in Hp as (Hp & Hh0 & Hm0).
    assert (Htz1 : tza w1 = tza w) by (subst w1; apply scheduleAlarm_tza).
    assert (Hnext : today + msPerDay = tomorrow).
    { subst today tomorrow. now rewrite atTimeOfDay_next. }
    assert (F : AlarmScheduler.nextAlarmTime (tza w1) (AlarmScheduler.wakeUpTime p2)
                  (TimeClip (Some now)) (TimeClip (Some now)) = DateAt next).
    { pose proof (calculateNextAlarmTime_frozen w1 now (AlarmScheduler.wakeUpTime p2)
                    (clockReads_frozen _ _ Hc)) as F.
      pose proof (calculateNextAlarmTime_digits w1 now h m) as G. cbv zeta in G.
      rewrite <- Hp, Htz1 in G. fold today in G. rewrite Hnext in G. fold next in G.
      rewrite G in F by (assumption || lia || now apply clockReads_frozen).
      congruence. }
    rewrite F in E1, E2. split; [exact E1 | ].
    subst w2. rewrite E2. cbn [fmap list_fmap AlarmScheduler.alarmRequest seconds].
    now rewrite secondsUntil_int.
  - intros w p. apply scheduleAlarm_web.
Qed.

Lemma one_alarm_at_a_time_witness :
  (length (alarms (after (performAll [ScheduleOp wakeAtSeven; ScheduleOp wakeAtEight;
                                      CancelOp; ScheduleOp wakeAtSeven]) morning)) <= 1)%nat
  /\ alarms (after (AlarmScheduler.scheduleAlarm wakeAtEight)
               (after (AlarmScheduler.scheduleAlarm wakeAtSeven) morning))
     = [{| identifier := "morning-alarm";
           title := "Good Morning!";
           body := "Bea, your personalized morning audio is ready.";
           sound := SoundFile "morning-alarm-notification.wav";
           priority := "max";
           interruptionLevel := "timeSensitive";
           dataType := "morning-alarm";
           triggerType := "timeInterval";
           seconds := JS.Int 80100 |}]
  /\ seconds <$> alarms (after (AlarmScheduler.scheduleAlarm wakeAtEight)
                           (after (AlarmScheduler.scheduleAlarm wakeAtSeven) morning))
     = [JS.Int 80100]
  /\ registered (after (AlarmScheduler.scheduleAlarm wakeAtSeven) grantedBrowser) = [].
Proof.
  assert (Hr : run (AlarmScheduler.scheduleAlarm wakeAtEight)
                 (after (AlarmScheduler.scheduleAlarm wakeAtSeven) morning)
               = Returns {| success := true; resultError := None;
                            scheduledTime := Some (DateAt (civil 2024 1 2 8 15 0 0)) |})
    by (vm_compute; reflexivity).
  assert (Hh : cancellationsHonoured (after (AlarmScheduler.scheduleAlarm wakeAtSeven) morning)
                 (after (AlarmScheduler.scheduleAlarm wakeAtEight)
                    (after (AlarmScheduler.scheduleAlarm wakeAtSeven) morning))).
  { vm_compute. repeat (constructor; [intros; reflexivity | ]). constructor. }
  split; [ | split; [ | split] ].
  - apply (proj1 (proj2 one_alarm_at_a_time)).
    + vm_compute. repeat (constructor; [intros; reflexivity | ]). constructor.
    + vm_compute. lia.
  - exact (proj2 (proj1 (proj2 (proj2 one_alarm_at_a_time)) morning wakeAtSeven wakeAtEight _
                    tenOClock tenOClock tenOClock ltac:(discriminate) Hr eq_refl Hh eq_refl)).
  - exact (proj2 (proj1 (proj2 (proj2 (proj2 one_alarm_at_a_time)))
                    morning wakeAtSeven wakeAtEight _ 8 15 tenOClock
                    ltac:(discriminate) Hr eq_refl Hh eq_refl ltac:(lia) ltac:(lia) eq_refl
                    ltac:(vm_compute; discriminate) ltac:(vm_compute; discriminate))).
  - exact (proj2 (proj2 (proj2 (proj2 one_alarm_at_a_time))) grantedBrowser wakeAtSeven
             eq_refl).
Defined.

(** ** No validation of the time of day (C3) *)

(** ["25:99"] is not a valid time of day, and [calculateNextAlarmTime]
    returns an instant for it: 02:39 on the next day. *)
Lemma invalid_time_accepted :
  run (AlarmScheduler.calculateNextAlarmTime "25:99") morning
    = Returns (DateAt (civil 2024 1 2 2 39 0 0))
  /\ ~ refusesInvalidTime "25:99" morning.
Proof.
  split; [reflexivity | ].
  intros H. destruct (H eq_refl) as [e He]. discriminate He.
Qed.

(** C3, amended. [calculateNextAlarmTime] validates nothing and never
    fails: every string gives a [Date]. For a string [HH:MM] the hour and
    the minute are not checked against 23 and 59: the result is midnight
    of the local day of [now] plus [HH] hours and [MM] minutes, one day
    later when that is not after [now], so an out-of-range time of day
    does give a trigger instant. *)
Theorem calculateNextAlarmTime_total :
  (forall (s : string) (w : World),
      exists d, run (AlarmScheduler.calculateNextAlarmTime s) w = Returns d)
  /\ (forall (w : World) (now : Z) (s : string) (h m : Z),
        parseTimeOfDay s = Some (h, m) ->
        clockReads 2 w = [now; now] ->
        Z.abs (tza w) <= msPerDay ->
        Z.abs now <= maxTime - 6 * msPerDay ->
        let first := atTimeOfDay (tza w) (localDay (tza w) now) h m in
        let next := if now <? first then first else first + msPerDay in
        run (AlarmScheduler.calculateNextAlarmTime s) w = Returns (DateAt next)
        /\ now < next).
Proof.
  split.
  - intros s w. eexists. reflexivity.
  - intros w now s h m Hs Hclock Htz Hnow first next.
    apply parseTimeOfDay_picker in Hs as (-> & Hh & Hm).
    split; [now apply calculateNextAlarmTime_digits | ].
    subst next. destruct (Z.ltb_spec now first); [assumption | ].
    subst first. unfold atTimeOfDay, localDay, UTC, LocalTime, Day,
      msPerDay, msPerHour, msPerMinute.
    Z.to_euclidean_division_equations. lia.
Qed.

Lemma calculateNextAlarmTime_total_witness :
  run (AlarmScheduler.calculateNextAlarmTime "25:99") morning
    = Returns (DateAt (civil 2024 1 2 2 39 0 0))
  /\ tenOClock < civil 2024 1 2 2 39 0 0.
Proof.
  refine (proj2 calculateNextAlarmTime_total morning tenOClock "25:99" 25 99 _ _ _ _);
    [reflexivity | reflexivity | vm_compute; discriminate | vm_compute; discriminate].
Defined.

(** ** Failures never reach the caller (C4) *)

(** C4. Whatever the source and whatever the host answers, rejections
    included, [save], [load] and [remove] return to the caller for both
    kinds of asset: a rejected call makes [save] and [load] return null
    and leaves the files as they were in [remove], and the name of the
    notification sound is a constant that needs no call. *)
Theorem media_cache_never_raises :
  forall (w : World) (src : string) (k : Kind),
    (exists r, run (save k src) w = Returns r
               /\ (someRejection w (after (save k src) w) = true -> r = None))
    /\ (exists r, run AudioStorage.getLocalAudioPath w = Returns r
                  /\ (someRejection w (after AudioStorage.getLocalAudioPath w) = true
                      -> r = None))
    /\ NotificationSound.getNotificationSoundName = "morning-alarm-notification.wav"
    /\ run (remove k) w = Returns tt
    /\ (someRejection w (after (remove k) w) = true
        -> files (after (remove k) w) = files w).
Proof.
  intros w src k.
  split; [apply save_returns | ].
  split; [apply getLocalAudioPath_returns | ].
  split; [reflexivity | apply remove_returns].
Qed.

Lemma media_cache_never_raises_witness :
  run (save notificationSound "https://example.org/morning.mp3") failingDisk = Returns None.
Proof.
  destruct (proj1 (media_cache_never_raises failingDisk "https://example.org/morning.mp3"
                     notificationSound)) as (r & E & H).
  rewrite E. f_equal. apply H. reflexivity.
Defined.

(** ** Inline assets (C5) *)

(** The inline asset of the example matches the grammar, and its save
    fails or writes nothing when the host rejects a call, when the host
    loses the write, and in a browser. *)
Lemma inline_save_depends_on_host :
  let src := "data:audio/wav;base64,AAAA" in
  inlineAsset src "audio/wav" "AAAA"
  /\ Base64.decode "AAAA" = Some [Byte.x00; Byte.x00; Byte.x00]
  /\ run (save playbackAudio src) failingDisk = Returns None
  /\ ~ inlineSaveAsClaimed playbackAudio src failingDisk
  /\ run (save notificationSound src) lossyDisk = Returns None
  /\ ~ inlineSaveAsClaimed notificationSound src lossyDisk
  /\ run (save notificationSound src) grantedBrowser = Returns None
  /\ ~ inlineSaveAsClaimed notificationSound src grantedBrowser.
Proof.
  intros src.
  assert (Hg : inlineAsset src "audio/wav" "AAAA") by (repeat split; discriminate).
  assert (Hd : Base64.decode "AAAA" = Some [Byte.x00; Byte.x00; Byte.x00]) by reflexivity.
  assert (Hne : "AAAA" <> EmptyString) by discriminate.
  split; [exact Hg | ]. split; [exact Hd | ].
  split; [reflexivity | ].
  split; [intros [Hc _]; destruct (Hc _ _ _ Hg Hne Hd) as (r & E & _); discriminate E | ].
  split; [reflexivity | ].
  split; [intros [Hc _]; destruct (Hc _ _ _ Hg Hne Hd) as (r & E & _); discriminate E | ].
  split; [reflexivity | ].
  intros [Hc _]; destruct (Hc _ _ _ Hg Hne Hd) as (r & E & _); discriminate E.
Qed.

(** C5, amended. On a platform with a local file system and a host that
    rejects no call and loses no write, for every source that matches
    [data:<mime>;base64,<payload>] with a payload that is not empty and
    decodes as base64, [save] writes the payload once to the fixed path
    of the kind, the file then holds exactly its decoding, and [save]
    returns a result that is not null. For every source that starts with
    [data:] and does not match the grammar with a payload that is not
    empty, [save] returns null and asks for no write and no transfer. *)
Theorem inline_asset_saved :
  (forall (k : Kind) (w : World) (src mime payload : string) (bytes : list Byte.byte),
      let w' := after (save k src) w in
      PlatformOS w <> web ->
      inlineAsset src mime payload -> payload <> EmptyString ->
      Base64.decode payload = Some bytes ->
      hostCooperates w ->
      run (save k src) w = Returns (Some (savedAs k w))
      /\ fileAt (fixedPath k w) w' = Some bytes
      /\ map call (writes w w') = [WriteAsString (fixedPath k w) payload]
      /\ transfers w w' = [])
  /\ (forall (k : Kind) (w : World) (src : string),
        let w' := after (save k src) w in
        PlatformOS w <> web ->
        DataUri.isDataUri src = true ->
        ~ matchesInlineGrammar src ->
        run (save k src) w = Returns None /\ writes w w' = [] /\ transfers w w' = []).
Proof.
  split.
  - intros k w src mime payload bytes. apply inline_save_writes.
  - intros k w src. apply inline_save_refused.
Qed.

Lemma inline_asset_saved_witness :
  fileAt (fixedPath notificationSound morning)
    (after (save notificationSound "data:audio/wav;base64,AAAA") morning)
  = Base64.decode "AAAA"
  /\ run (save notificationSound "data:audio/wav;base64,") morning = Returns None.
Proof.
  split.
  - refine (proj1 (proj2 (proj1 inline_asset_saved notificationSound morning
                            "data:audio/wav;base64,AAAA" "audio/wav" "AAAA"
                            [Byte.x00; Byte.x00; Byte.x00] _ _ _ _ _)));
      [discriminate | repeat split; discriminate | discriminate | reflexivity | constructor].
  - refine (proj1 (proj2 inline_asset_saved notificationSound morning
                     "data:audio/wav;base64," _ _ _));
      [discriminate | reflexivity | now apply matchGroup_none].
Defined.


(** ** Remote references (C6) *)

(** A source that starts with [data:] and does not match the grammar is
    not transferred: its save fails without a call to the transfer. *)
Lemma broken_inline_not_transferred :
  ~ matchesInlineGrammar "data:audio/wav"
  /\ transfers morning (after (save playbackAudio "data:audio/wav") morning) = []
  /\ ~ transferAsClaimed playbackAudio "data:audio/wav" morning.
Proof.
  assert (H : ~ matchesInlineGrammar "data:audio/wav") by now apply matchGroup_none.
  split; [exact H | ]. split; [reflexivity | ].
  intros Hc. destruct (Hc H) as (a & E & _). discriminate E.
Qed.

(** C6, amended. [save] treats as a remote URL every source that does
    not start with [data:]; a source that starts with [data:] is never
    transferred, whether it matches the grammar or not. On a platform
    with a local file system, for a source that does not start with
    [data:], either a call that comes before the transfer is rejected and
    [save] returns null, or [save] asks for exactly one transfer, of the
    source to the fixed path of the kind; it then returns null when the
    transfer is rejected or reports a status other than 200; when the
    status is 200 the playback save returns the path, and the save of the
    notification sound returns its name only if the file is there. *)
Theorem remote_reference_transferred :
  (forall (k : Kind) (w : World) (src : string),
      DataUri.isDataUri src = true -> transfers w (after (save k src) w) = [])
  /\ (forall (k : Kind) (w : World) (src : string),
        let w' := after (save k src) w in
        let r := run (save k src) w in
        PlatformOS w <> web ->
        DataUri.isDataUri src = false ->
        (transfers w w' = [] /\ someRejection w w' = true /\ r = Returns None)
        \/ exists a,
             transfers w w' = [{| call := Download src (fixedPath k w); reply := a |}]
             /\ (rejects a = true \/ status a <> 200 -> r = Returns None)
             /\ (rejects a = false -> status a = 200 ->
                 match k with
                 | playbackAudio => r = Returns (Some (savedAs k w))
                 | notificationSound =>
                     r = Returns (Some (savedAs k w)) /\ present (fixedPath k w) w' = true
                     \/ r = Returns None
                 end)).
Proof.
  split.
  - intros k w src. apply inline_never_transferred.
  - intros k w src. apply remote_save_transfers.
Qed.

Lemma remote_reference_transferred_witness :
  transfers morning (after (save playbackAudio "data:audio/wav;base64,AAAA") morning) = []
  /\ exists a,
       transfers unreachableServer
         (after (save playbackAudio "https://example.org/morning.mp3") unreachableServer)
       = [{| call := Download "https://example.org/morning.mp3"
                       (fixedPath playbackAudio unreachableServer);
             reply := a |}]
       /\ status a = 404
       /\ run (save playbackAudio "https://example.org/morning.mp3") unreachableServer
          = Returns None.
Proof.
  split.
  - apply (proj1 remote_reference_transferred). reflexivity.
  - destruct (proj2 remote_reference_transferred playbackAudio unreachableServer
                "https://example.org/morning.mp3" ltac:(discriminate) eq_refl)
      as [(E & _) | (a & E & Hfail & _)]; [discriminate E | ].
    exists a. split; [exact E | ].
    assert (Ha : status a = 404) by (vm_compute in E; now injection E as <-).
    split; [exact Ha | ]. apply Hfail. right. rewrite Ha. discriminate.
Defined.

(** ** The check that the asset was persisted (C7) *)

(** C7. The save of the playback audio does not check that the file
    exists once it is written: on a host whose write reports no error and
    leaves no file, it returns the path although nothing is at that path.
    The save of the notification sound, which has the check, returns null
    there and reports that the file was not saved. *)
Theorem playback_save_unchecked :
  run (save playbackAudio "data:audio/wav;base64,AAAA") lossyDisk
    = Returns (Some (fixedPath playbackAudio lossyDisk))
  /\ present (fixedPath playbackAudio lossyDisk)
       (after (save playbackAudio "data:audio/wav;base64,AAAA") lossyDisk) = false
  /\ run (save notificationSound "data:audio/wav;base64,AAAA") lossyDisk = Returns None
  /\ console (after (save notificationSound "data:audio/wav;base64,AAAA") lossyDisk)
     = [("Error saving notification sound:", "Sound file was not saved")].
Proof. repeat split. Qed.

(** ** Consent requests (C8) *)

(** In a browser that has already been granted the permission, the call
    still issues a consent request. *)
Lemma granted_browser_is_asked :
  hasCapability grantedBrowser = true
  /\ currentPermission grantedBrowser = granted
  /\ length (consentRequests grantedBrowser
               (after AlarmScheduler.requestNotificationPermissions grantedBrowser)) = 1%nat
  /\ ~ consentAsClaimed grantedBrowser.
Proof.
  repeat split. intros [_ H]. discriminate H.
Qed.

(** C8, amended. [requestNotificationPermissions] never issues more than
    one consent request. Without the capability it returns false and
    issues none. On a native platform whose permission is already
    granted it returns true and issues none, and otherwise it issues
    exactly one and returns its result. In a browser that has the
    capability it issues exactly one consent request whatever the current
    permission, and returns its result. (The results are those of a host
    that rejects no call.) *)
Theorem requestNotificationPermissions_consent :
  forall w : World,
    let r := run AlarmScheduler.requestNotificationPermissions w in
    let asked := consentRequests w (after AlarmScheduler.requestNotificationPermissions w) in
    (length asked <= 1)%nat
    /\ (hasCapability w = false -> r = Returns false /\ asked = [])
    /\ (noRejection w -> PlatformOS w <> web -> permission w = granted ->
        r = Returns true /\ asked = [])
    /\ (noRejection w -> PlatformOS w <> web -> permission w <> granted ->
        exists e, asked = [e] /\ call e = RequestPermissions
                  /\ r = Returns (isGranted (consent (reply e))))
    /\ (noRejection w -> PlatformOS w = web -> hasCapability w = true ->
        exists e, asked = [e] /\ call e = WebRequestPermission
                  /\ r = Returns (isGranted (requestResult w e))).
Proof.
  intros w r asked. subst r asked.
  unfold consentRequests, newEntries, hasCapability, requestResult.
  destruct w as [os dd tz ck dr fs wn pm rg ans jr cs ss]. cbn [PlatformOS windowNotification permission].
  split; [ | split; [ | split; [ | split]]].
  - unfold_scheduler. destruct os; exec; journal; cbn; lia.
  - unfold_scheduler. destruct os, wn; try discriminate. intros _. cbn. journal. now split.
  - intros Hn Hos ->. no_rejection Hn. unfold_scheduler.
    destruct os; [congruence | | ]; exec; journal; (congruence || now split).
  - intros Hn Hos Hpm. no_rejection Hn. unfold_scheduler.
    destruct os; [congruence | | ]; destruct pm; try congruence; exec; journal;
      try congruence; eexists; repeat split; cbn [reply consent];
      first [rewrite Heqb1 | rewrite Heqb0 | idtac]; reflexivity.
  - intros Hn -> Hwn. no_rejection Hn. unfold_scheduler.
    destruct wn as [[ | | ] | ]; try discriminate; exec; journal;
      try congruence; eexists; repeat split; cbn [reply consent call];
      first [rewrite Heqb0 | idtac]; reflexivity.
Qed.

Lemma requestNotificationPermissions_consent_witness :
  exists e,
    consentRequests morning (after AlarmScheduler.requestNotificationPermissions morning) = [e]
    /\ call e = RequestPermissions
    /\ run AlarmScheduler.requestNotificationPermissions morning
       = Returns (isGranted (consent (reply e))).
Proof.
  apply (proj1 (proj2 (proj2 (proj2 (requestNotificationPermissions_consent morning)))));
    [constructor | discriminate | discriminate].
Defined.

(** ** The delay of the registration (C9) *)

(** At 10:00:00.500 an alarm for 11:30:00.000 is registered with a delay
    of 5399 seconds, not of the 5399.5 seconds that are left. *)
Lemma delay_is_floored :
  AlarmScheduler.secondsUntil (DateAt (civil 2024 1 1 11 30 0 0))
    (JS.Int (civil 2024 1 1 10 0 0 500)) = JS.Int 5399
  /\ ~ exactDelay (civil 2024 1 1 11 30 0 0) (civil 2024 1 1 10 0 0 500).
Proof.
  split; [reflexivity | ].
  intros (s & E & H). vm_compute in E. injection E as <-. vm_compute in H. discriminate H.
Qed.

(** C9, amended. The delay that a successful [scheduleAlarm] hands to the
    host is [Math.max(1, Math.floor((alarmTime - Date.now()) / 1000))]
    seconds, read at the time of the registration. For a trigger instant
    [t] and a reading [n] of the clock it is the whole number
    [max 1 ((t - n) / 1000)]: at least one second, so that the delivery is
    never before [n] plus one second, even when [t] has passed; and when
    at least one second is left, not after [t] and less than one second
    before it. *)
Theorem registration_delay :
  (forall (w : World) (p : AlarmScheduler.ScheduleAlarmParams) (r : ScheduleResult),
      let w' := after (AlarmScheduler.scheduleAlarm p) w in
      PlatformOS w <> web ->
      run (AlarmScheduler.scheduleAlarm p) w = Returns r ->
      success r = true ->
      exists alarmTime,
        scheduledTime r = Some alarmTime
        /\ seconds <$> last (registered w')
           = Some (AlarmScheduler.secondsUntil alarmTime (JS.Int (clock w'))))
  /\ (forall t n : Z,
        let s := Z.max 1 ((t - n) / 1000) in
        AlarmScheduler.secondsUntil (DateAt t) (JS.Int n) = JS.Int s
        /\ 1 <= s
        /\ n + 1000 <= n + 1000 * s
        /\ (1000 <= t - n -> t - 1000 < n + 1000 * s <= t)).
Proof.
  split.
  - intros w p r w' Hos Hr Hs.
    destruct (scheduleAlarm_delay p w r Hos Hr Hs) as (alarmTime & E1 & E2).
    exists alarmTime. split; [exact E1 | ]. subst w'. now rewrite E2.
  - intros t n s. split; [apply secondsUntil_int | ].
    subst s. Z.to_euclidean_division_equations. lia.
Qed.

Lemma registration_delay_witness :
  exists alarmTime,
    alarmTime = DateAt (civil 2024 1 2 7 0 0 0)
    /\ seconds <$> last (registered (after (AlarmScheduler.scheduleAlarm wakeAtSeven) morning))
       = Some (AlarmScheduler.secondsUntil alarmTime (JS.Int tenOClock)).
Proof.
  assert (Hr : run (AlarmScheduler.scheduleAlarm wakeAtSeven) morning
               = Returns {| success := true; resultError := None;
                            scheduledTime := Some (DateAt (civil 2024 1 2 7 0 0 0)) |})
    by (vm_compute; reflexivity).
  destruct (proj1 registration_delay morning wakeAtSeven _
              ltac:(discriminate) Hr eq_refl) as (alarmTime & E1 & E2).
  injection E1 as <-. eexists. split; [reflexivity | ].
  vm_compute in E2 |- *. exact E2.
Defined.

(** * Further properties of the code *)

Import AlarmQueries InputScreen Observations MoreScenarios.

(** ** The alarm scheduler and the other notifications *)

Lemma filter_notAlarm_twice (l : list NotificationRequest) :
  filter (fun r => identifier r ≠ AlarmScheduler.ALARM_NOTIFICATION_ID)
    (filter (fun r => identifier r ≠ AlarmScheduler.ALARM_NOTIFICATION_ID) l)
  = filter (fun r => identifier r ≠ AlarmScheduler.ALARM_NOTIFICATION_ID) l.
Proof.
  induction l as [ | r l IH]; [reflexivity | ].
  rewrite (filter_cons _ r l).
  destruct (decide (identifier r ≠ AlarmScheduler.ALARM_NOTIFICATION_ID)) as [Hne | He];
    [ | exact IH].
  rewrite filter_cons. destruct (decide _); [ | contradiction]. now rewrite IH.
Qed.

Lemma filter_notAlarm_snoc (l : list NotificationRequest) name sound secs :
  filter (fun r => identifier r ≠ AlarmScheduler.ALARM_NOTIFICATION_ID)
    (l ++ [AlarmScheduler.alarmRequest name sound secs])
  = filter (fun r => identifier r ≠ AlarmScheduler.ALARM_NOTIFICATION_ID) l.
Proof.
  rewrite filter_app, filter_cons.
  destruct (decide _) as [Hne | _]; [now contradiction Hne | ].
  rewrite filter_nil. apply app_nil_r.
Qed.

Lemma scheduleAlarm_others p w :
  others (after (AlarmScheduler.scheduleAlarm p) w) = others w.
Proof.
  unfold others. unfold_scheduler.
  destruct w as [os dd tz ck dr fs wn pm rg ans jr cs ss].
  destruct os; exec; rewrite ?filter_notAlarm_snoc, ?filter_notAlarm_twice; reflexivity.
Qed.

Lemma cancelExistingAlarm_others w :
  others (after AlarmScheduler.cancelExistingAlarm w) = others w.
Proof.
  unfold others. unfold_scheduler.
  destruct w as [os dd tz ck dr fs wn pm rg ans jr cs ss].
  destruct os; exec; rewrite ?filter_notAlarm_twice; reflexivity.
Qed.

(** X1. Whatever sequence of [scheduleAlarm] and [cancelExistingAlarm]
    runs, and whatever the host answers, the pending notifications whose
    identifier is not that of the alarm are the same afterwards, in the
    same order. *)
Theorem scheduler_keeps_other_notifications :
  forall (ops : list Op) (w : World),
    others (after (performAll ops) w) = others w.
Proof.
  intros ops. induction ops as [ | op ops IH]; intros w; [reflexivity | ].
  rewrite performAll_cons, IH. destruct op as [p | ].
  - rewrite perform_after_schedule. apply scheduleAlarm_others.
  - apply cancelExistingAlarm_others.
Qed.

(** X2. When the permission is not obtained, [scheduleAlarm] returns the
    failure that names the permission, with no time, and asks the host
    for no cancellation and no registration: an alarm registered before
    stays as it was. *)
Theorem denied_permission_registers_nothing :
  forall (w : World) (p : AlarmScheduler.ScheduleAlarmParams),
    run AlarmScheduler.requestNotificationPermissions w = Returns false ->
    let w' := after (AlarmScheduler.scheduleAlarm p) w in
    run (AlarmScheduler.scheduleAlarm p) w
    = Returns {| success := false;
                 resultError := Some "Notification permissions are required to schedule your morning alarm.";
                 scheduledTime := None |}
    /\ registered w' = registered w
    /\ schedulerCalls w w' = [].
Proof.
  intros w p H w'. subst w'. unfold schedulerCalls, newEntries. unfold_scheduler.
  destruct w as [os dd tz ck dr fs wn pm rg ans jr cs ss].
  destruct os; exec; journal; try discriminate H; try congruence; repeat split.
Qed.

Lemma denied_permission_registers_nothing_witness :
  run AlarmScheduler.requestNotificationPermissions refusedPhone = Returns false
  /\ run (AlarmScheduler.scheduleAlarm wakeAtSeven) refusedPhone
     = Returns {| success := false;
                  resultError := Some "Notification permissions are required to schedule your morning alarm.";
                  scheduledTime := None |}
  /\ registered (after (AlarmScheduler.scheduleAlarm wakeAtSeven) refusedPhone) = [].
Proof.
  assert (H : run AlarmScheduler.requestNotificationPermissions refusedPhone = Returns false)
    by (vm_compute; reflexivity).
  split; [exact H | ].
  destruct (denied_permission_registers_nothing refusedPhone wakeAtSeven H) as (Hr & Hg & _).
  split; [exact Hr | exact Hg].
Defined.

(** X3. [scheduleAlarm] never raises. A result that reports success
    carries the time of the alarm, and one that reports failure carries a
    message and no time. On the web nothing is cancelled or registered,
    and a success comes with the caveat about background support. *)
Theorem scheduleAlarm_result_shape :
  forall (w : World) (p : AlarmScheduler.ScheduleAlarmParams),
    let w' := after (AlarmScheduler.scheduleAlarm p) w in
    exists r,
      run (AlarmScheduler.scheduleAlarm p) w = Returns r
      /\ (if success r then scheduledTime r <> None
          else resultError r <> None /\ scheduledTime r = None)
      /\ (PlatformOS w = web ->
          registered w' = registered w /\ schedulerCalls w w' = []
          /\ (success r = true -> resultError r <> None)).
Proof.
  intros w p w'. subst w'. unfold schedulerCalls, newEntries. unfold_scheduler.
  destruct w as [os dd tz ck dr fs wn pm rg ans jr cs ss].
  destruct os; exec; journal; eexists; (split; [reflexivity | ]); cbn;
    repeat split; try discriminate; try congruence.
Qed.

(** ** The scheduled alarm read back *)

Lemma find_alarm (l : list NotificationRequest) :
  List.find (fun n => String.eqb (identifier n) AlarmScheduler.ALARM_NOTIFICATION_ID) l
  = head (filter (fun r => identifier r = AlarmScheduler.ALARM_NOTIFICATION_ID) l).
Proof.
  induction l as [ | r l IH]; [reflexivity | ].
  cbn [List.find]. rewrite filter_cons.
  destruct (String.eqb_spec (identifier r) AlarmScheduler.ALARM_NOTIFICATION_ID) as [E | N];
    destruct (decide _); try contradiction; [reflexivity | exact IH].
Qed.

(** The query of the pending notifications, unfolded. *)
Ltac unfold_queries :=
  unfold run, after, getScheduledAlarm, getAllScheduledNotificationsAsync, queried,
    Date_now, readClock, console_error, Platform_OS,
    tryCatch, bind, ret, throw, get, modify in *.

(** What [getScheduledAlarm] returns, in every world. *)
Lemma getScheduledAlarm_run w :
  run getScheduledAlarm w
  = Returns
      (if isWeb (PlatformOS w) then None
       else if rejects (hd cooperative (answers w)) then None
       else (fun alarm =>
               dateOfNumber (JS.add (JS.Int (nextReading w)) (timesThousand (seconds alarm))))
              <$> head (alarms w)).
Proof.
  unfold alarms, nextReading. unfold_queries.
  destruct w as [os dd tz ck dr fs wn pm rg ans jr cs ss].
  destruct os; cbn -[List.find filter JS.add]; try reflexivity.
  all: destruct (rejects (hd cooperative ans)); cbn -[List.find filter JS.add];
    try reflexivity.
  all: rewrite find_alarm; now destruct (head _).
Qed.

Lemma getScheduledAlarm_frame w :
  let w' := after getScheduledAlarm w in
  registered w' = registered w /\ files w' = files w /\ journal w' = journal w.
Proof.
  unfold_queries.
  destruct w as [os dd tz ck dr fs wn pm rg ans jr cs ss].
  destruct os; cbn -[List.find]; auto.
  all: destruct (rejects (hd cooperative ans)); cbn -[List.find]; auto.
  all: destruct (List.find _ rg); cbn; auto.
Qed.

Lemma cancelExistingAlarm_none w :
  let w' := after AlarmScheduler.cancelExistingAlarm w in
  cancellationsHonoured w w' -> PlatformOS w' = web \/ alarms w' = [].
Proof.
  unfold cancellationsHonoured, newEntries, alarms. unfold_scheduler.
  destruct w as [os dd tz ck dr fs wn pm rg ans jr cs ss].
  destruct os; exec; journal; intros H; eauto; honoured.
  all: right; apply filter_notAlarm_alarms.
Qed.

(** X4. After [cancelExistingAlarm], unless the host rejected the
    cancellation, [getScheduledAlarm] reports no alarm. *)
Theorem cancelled_alarm_not_reported :
  forall (w : World),
    let w' := after AlarmScheduler.cancelExistingAlarm w in
    cancellationsHonoured w w' -> run getScheduledAlarm w' = Returns None.
Proof.
  intros w w' H. apply cancelExistingAlarm_none in H. fold w' in H.
  rewrite getScheduledAlarm_run.
  destruct H as [-> | ->]; [reflexivity | ]. now repeat case_match.
Qed.

Lemma honoured_forallb w w' :
  forallb (fun e => implb (isCancellation (call e)) (negb (rejected e))) (newEntries w w') = true ->
  cancellationsHonoured w w'.
Proof.
  unfold cancellationsHonoured. intros H. apply Forall_forall. intros e He Hc.
  rewrite forallb_forall in H. specialize (H e). rewrite Hc in H.
  apply list_elem_of_In in He. specialize (H He). now destruct (rejected e).
Qed.

(** A phone on which an alarm is pending: the one registered on
    [morning]. *)
Lemma cancelled_alarm_not_reported_witness :
  let pending := after (AlarmScheduler.scheduleAlarm wakeAtSeven) morning in
  length (alarms pending) = 1%nat
  /\ run getScheduledAlarm (after AlarmScheduler.cancelExistingAlarm pending) = Returns None.
Proof.
  intros pending. split; [vm_compute; reflexivity | ].
  apply (cancelled_alarm_not_reported pending).
  apply honoured_forallb. vm_compute. reflexivity.
Defined.

(** X5. [getScheduledAlarm] raises in no world, whatever the host
    answers; it reports no alarm on the web, when the listing is
    rejected, and when no notification is pending under the identifier
    of the alarm; and it leaves the pending notifications and the files
    as they are. *)
Theorem getScheduledAlarm_quiet :
  forall (w : World),
    let w' := after getScheduledAlarm w in
    exists r,
      run getScheduledAlarm w = Returns r
      /\ (PlatformOS w = web \/ rejects (hd cooperative (answers w)) = true
          \/ alarms w = [] -> r = None)
      /\ registered w' = registered w
      /\ files w' = files w.
Proof.
  intros w w'. eexists. split; [apply getScheduledAlarm_run | ].
  split; [ | split; apply getScheduledAlarm_frame].
  intros [-> | [-> | ->]]; [reflexivity | now case_match | now repeat case_match].
Qed.

Lemma last_alarm (l : list NotificationRequest) (x y : NotificationRequest) :
  filter (fun r => identifier r = AlarmScheduler.ALARM_NOTIFICATION_ID) l = [x] ->
  last l = Some y -> identifier y = AlarmScheduler.ALARM_NOTIFICATION_ID -> y = x.
Proof.
  intros Hf Hl Hy.
  assert (Hin : y ∈ filter (fun r => identifier r = AlarmScheduler.ALARM_NOTIFICATION_ID) l).
  { apply list_elem_of_filter. split; [exact Hy | ].
    apply last_Some in Hl as [l' ->]. apply elem_of_app. right. apply list_elem_of_singleton.
    reflexivity. }
  rewrite Hf in Hin. now apply list_elem_of_singleton in Hin.
Qed.

Lemma dateOfNumber_int t : Z.abs t <= maxTime -> dateOfNumber (JS.Int t) = DateAt t.
Proof.
  intros H.
  change (dateOfNumber (JS.Int t))
    with (if JS.le (JS.Int (Z.abs t)) (JS.Int maxTime)
          then DateAt (JS.truncate t 0) else InvalidDate).
  rewrite le_int, truncate_int. destruct (Z.leb_spec (Z.abs t) maxTime); [reflexivity | lia].
Qed.

Lemma timesThousand_int s : timesThousand (JS.Int s) = JS.Decimal s 3.
Proof. reflexivity. Qed.

Lemma add_thousands n s : JS.add (JS.Int n) (JS.Decimal s 3) = JS.Int (n + 1000 * s).
Proof.
  unfold JS.add, JS.Int, JS.rescale.
  change (Z.min 0 3) with 0. change (10 ^ (0 - 0)) with 1. change (10 ^ (3 - 0)) with 1000.
  f_equal. lia.
Qed.

(** X6. After a [scheduleAlarm] that reports success on a native
    platform, with its cancellation honoured, [getScheduledAlarm]
    reports the alarm just registered and no older one: the instant it
    returns is its own reading of the clock plus the whole seconds of
    the registered delay. When the clock has not moved since the
    registration and at least one second was left, that instant is not
    after the scheduled time and less than one second before it. *)
Theorem scheduled_alarm_reported :
  forall (w : World) (p : AlarmScheduler.ScheduleAlarmParams) (r : ScheduleResult) (t : Z),
    let w' := after (AlarmScheduler.scheduleAlarm p) w in
    let delay := Z.max 1 ((t - clock w') / 1000) in
    let reported := nextReading w' + 1000 * delay in
    PlatformOS w <> web ->
    run (AlarmScheduler.scheduleAlarm p) w = Returns r ->
    success r = true ->
    scheduledTime r = Some (DateAt t) ->
    cancellationsHonoured w w' ->
    rejects (hd cooperative (answers w')) = false ->
    Z.abs reported <= maxTime ->
    run getScheduledAlarm w' = Returns (Some (DateAt reported))
    /\ (nextReading w' = clock w' -> 1000 <= t - clock w' -> t - 1000 < reported <= t).
Proof.
  intros w p r t w' delay reported Hos Hr Hs Ht Hc Ha Hm.
  destruct (scheduleAlarm_success p w r Hos Hr Hs Hc) as [secs Hsecs].
  destruct (scheduleAlarm_delay p w r Hos Hr Hs) as (alarmTime & Ht' & Hlast).
  fold w' in Hsecs, Hlast. rewrite Ht in Ht'. injection Ht' as <-.
  rewrite secondsUntil_int in Hlast. fold delay in Hlast.
  unfold alarms in Hsecs.
  pose proof (last_alarm _ _ _ Hsecs Hlast eq_refl) as E.
  split.
  - rewrite getScheduledAlarm_run, Ha. unfold alarms. rewrite Hsecs, <- E.
    unfold w' at 1. rewrite scheduleAlarm_platform.
    destruct (PlatformOS w); [congruence | | ].
    all: cbn [head fmap option_fmap option_map isWeb];
      cbn [seconds AlarmScheduler.alarmRequest];
      rewrite timesThousand_int, add_thousands, dateOfNumber_int by exact Hm; reflexivity.
  - intros Hn Hleft. subst reported delay. rewrite Hn.
    Z.to_euclidean_division_equations. lia.
Qed.

Lemma scheduled_alarm_reported_witness :
  let w' := after (AlarmScheduler.scheduleAlarm wakeAtSeven) morning in
  run getScheduledAlarm w' = Returns (Some (DateAt (civil 2024 1 2 7 0 0 0))).
Proof.
  intros w'.
  assert (Hr : run (AlarmScheduler.scheduleAlarm wakeAtSeven) morning
               = Returns {| success := true; resultError := None;
                            scheduledTime := Some (DateAt (civil 2024 1 2 7 0 0 0)) |})
    by (vm_compute; reflexivity).
  assert (Hc : cancellationsHonoured morning w').
  { apply honoured_forallb. vm_compute. reflexivity. }
  assert (Hos : PlatformOS morning <> web) by discriminate.
  destruct (scheduled_alarm_reported morning wakeAtSeven _ (civil 2024 1 2 7 0 0 0)
              Hos Hr eq_refl eq_refl Hc eq_refl) as [H _].
  - vm_compute. discriminate.
  - exact H.
Defined.

(** ** The day an alarm is shown for *)

Lemma Day_of_date t :
  Day t = DayFromYear (YearFromTime t) + monthStart (InLeapYear t) (MonthFromTime t)
          + DateFromTime t - 1.
Proof. unfold DateFromTime, DayWithinYear. lia. Qed.

Lemma calendar_of_Day a b :
  Day a = Day b ->
  YearFromTime a = YearFromTime b /\ MonthFromTime a = MonthFromTime b
  /\ DateFromTime a = DateFromTime b /\ WeekDay a = WeekDay b.
Proof.
  intros H.
  assert (Hy : YearFromTime a = YearFromTime b) by (unfold YearFromTime; now rewrite H).
  assert (Hl : InLeapYear a = InLeapYear b) by (unfold InLeapYear; now rewrite Hy).
  assert (Hd : DayWithinYear a = DayWithinYear b) by (unfold DayWithinYear; now rewrite H, Hy).
  assert (Hm : MonthFromTime a = MonthFromTime b) by (unfold MonthFromTime; now rewrite Hd, Hl).
  repeat split; try assumption.
  - unfold DateFromTime. now rewrite Hd, Hl, Hm.
  - unfold WeekDay. now rewrite H.
Qed.

(** Two valid dates print the same [toDateString] exactly when they fall
    on the same local day. *)
Lemma toDateString_same_day tza a b :
  toDateString tza (DateAt a) = toDateString tza (DateAt b)
  <-> localDay tza a = localDay tza b.
Proof.
  unfold toDateString, localDay. split.
  - intros [= Hw Hm Hd Hy].
    rewrite (Day_of_date (LocalTime tza a)), (Day_of_date (LocalTime tza b)).
    unfold InLeapYear. now rewrite Hy, Hm, Hd.
  - intros H. destruct (calendar_of_Day _ _ H) as (Hy & Hm & Hd & Hw).
    now rewrite Hy, Hm, Hd, Hw.
Qed.

Lemma localDay_next tza t : localDay tza (t + msPerDay) = localDay tza t + 1.
Proof.
  unfold localDay, LocalTime, Day, msPerDay. Z.to_euclidean_division_equations. lia.
Qed.

Lemma formatAlarmDate_run w t :
  let now := nextReading w in
  Z.abs now <= maxTime - msPerDay ->
  run (formatAlarmDate (DateAt t)) w
  = Returns (if localDay (tza w) t =? localDay (tza w) now then Literal "Today"
             else if localDay (tza w) t =? localDay (tza w) now + 1 then Literal "Tomorrow"
             else LocaleDateString (DateAt t)).
Proof.
  intros now Hnow. unfold nextReading in now.
  unfold run, formatAlarmDate, newDate, readClock, bind, ret, get.
  cbn -[TimeClip setDate getDate toDateString JS.add]. fold now.
  rewrite (TimeClip_in_range now) by (unfold msPerDay, maxTime in *; lia).
  rewrite setDate_next.
  rewrite TimeClip_in_range by (unfold msPerDay, maxTime in *; lia).
  destruct (Z.eqb_spec (localDay (tza w) t) (localDay (tza w) now)) as [E | N].
  - rewrite bool_decide_eq_true_2 by now apply toDateString_same_day. reflexivity.
  - rewrite bool_decide_eq_false_2 by now rewrite toDateString_same_day.
    rewrite <- localDay_next.
    destruct (Z.eqb_spec (localDay (tza w) t) (localDay (tza w) (now + msPerDay))) as [E' | N'].
    + rewrite bool_decide_eq_true_2 by now apply toDateString_same_day. reflexivity.
    + rewrite bool_decide_eq_false_2 by now rewrite toDateString_same_day. reflexivity.
Qed.

(** X7. [formatAlarmDate] goes by the local calendar day, not by the
    hours left: a date on the local day of the clock is [Today], a date
    on the day after is [Tomorrow], and any other date, a past one
    included, is printed by [toLocaleDateString]. *)
Theorem formatAlarmDate_by_local_day :
  forall (w : World) (t : Z),
    let now := nextReading w in
    let day := localDay (tza w) in
    Z.abs now <= maxTime - msPerDay ->
    run (formatAlarmDate (DateAt t)) w
    = Returns (if day t =? day now then Literal "Today"
               else if day t =? day now + 1 then Literal "Tomorrow"
               else LocaleDateString (DateAt t)).
Proof. intros w t now day H. now apply formatAlarmDate_run. Qed.

Lemma formatAlarmDate_by_local_day_witness :
  run (formatAlarmDate (DateAt (civil 2024 1 1 23 59 0 0))) morning = Returns (Literal "Today")
  /\ run (formatAlarmDate (DateAt (civil 2024 1 2 0 1 0 0))) morning = Returns (Literal "Tomorrow")
  /\ run (formatAlarmDate (DateAt (civil 2023 12 31 23 0 0 0))) morning
     = Returns (LocaleDateString (DateAt (civil 2023 12 31 23 0 0 0))).
Proof.
  assert (H : Z.abs (nextReading morning) <= maxTime - msPerDay) by (vm_compute; discriminate).
  split; [ | split].
  - exact (formatAlarmDate_by_local_day morning (civil 2024 1 1 23 59 0 0) H).
  - exact (formatAlarmDate_by_local_day morning (civil 2024 1 2 0 1 0 0) H).
  - exact (formatAlarmDate_by_local_day morning (civil 2023 12 31 23 0 0 0) H).
Defined.

(** X8. The time [calculateNextAlarmTime] returns for a time of day of
    the picker is always shown as [Today] or [Tomorrow], as long as it is
    shown on the local day on which it was computed: [Today] when the
    time of day is still ahead, [Tomorrow] otherwise. *)
Theorem next_alarm_is_today_or_tomorrow :
  forall (w : World) (now later h m : Z),
    0 <= h <= 23 -> 0 <= m <= 59 ->
    clockReads 3 w = [now; now; later] ->
    localDay (tza w) later = localDay (tza w) now ->
    Z.abs (tza w) <= msPerDay ->
    Z.abs now <= maxTime - 6 * msPerDay ->
    Z.abs later <= maxTime - msPerDay ->
    run (let* alarmTime := AlarmScheduler.calculateNextAlarmTime (timeOfDay h m) in
         formatAlarmDate alarmTime) w
    = Returns (Literal (if now <? atTimeOfDay (tza w) (localDay (tza w) now) h m
                        then "Today" else "Tomorrow")).
Proof.
  intros w now later h m Hh Hm Hclock Hday Htz Hnow Hlater.
  assert (H2 : clockReads 2 w = [now; now]).
  { unfold clockReads in *. cbn [readings] in *. now injection Hclock as -> -> _. }
  pose proof (calculateNextAlarmTime_digits w now h m ltac:(lia) ltac:(lia) H2 Htz Hnow) as Hc.
  cbn zeta in Hc.
  set (first := atTimeOfDay (tza w) (localDay (tza w) now) h m) in *.
  set (alarm := if now <? first then first else first + msPerDay) in *.
  unfold run at 1. rewrite (bind_returns _ _ w (DateAt alarm)) by exact Hc.
  set (w2 := after (AlarmScheduler.calculateNextAlarmTime (timeOfDay h m)) w).
  assert (Htza : tza w2 = tza w) by reflexivity.
  assert (Hnext : nextReading w2 = later).
  { unfold clockReads in Hclock. cbn [readings] in Hclock.
    injection Hclock as H1 H2' H3. exact H3. }
  change (fst (formatAlarmDate (DateAt alarm) w2)) with (run (formatAlarmDate (DateAt alarm)) w2).
  rewrite formatAlarmDate_run by (rewrite Hnext; exact Hlater).
  rewrite Hnext, Htza, Hday.
  assert (Hfirst : localDay (tza w) first = localDay (tza w) now)
    by (subst first; now apply localClock_atTimeOfDay).
  subst alarm. destruct (now <? first).
  - rewrite Hfirst, Z.eqb_refl. reflexivity.
  - rewrite localDay_next, Hfirst.
    destruct (Z.eqb_spec (localDay (tza w) now + 1) (localDay (tza w) now)); [lia | ].
    rewrite Z.eqb_refl. reflexivity.
Qed.

Lemma next_alarm_is_today_or_tomorrow_witness :
  run (let* alarmTime := AlarmScheduler.calculateNextAlarmTime (timeOfDay 7 0) in
       formatAlarmDate alarmTime) morning = Returns (Literal "Tomorrow")
  /\ run (let* alarmTime := AlarmScheduler.calculateNextAlarmTime (timeOfDay 22 30) in
          formatAlarmDate alarmTime) morning = Returns (Literal "Today").
Proof.
  assert (Hc : clockReads 3 morning = [tenOClock; tenOClock; tenOClock])
    by (vm_compute; reflexivity).
  assert (Hd : localDay (tza morning) tenOClock = localDay (tza morning) tenOClock)
    by reflexivity.
  assert (Hz : Z.abs (tza morning) <= msPerDay) by (vm_compute; discriminate).
  assert (Hn : Z.abs tenOClock <= maxTime - 6 * msPerDay) by (vm_compute; discriminate).
  assert (Hl : Z.abs tenOClock <= maxTime - msPerDay) by (vm_compute; discriminate).
  split.
  - exact (next_alarm_is_today_or_tomorrow morning tenOClock tenOClock 7 0
             ltac:(lia) ltac:(lia) Hc Hd Hz Hn Hl).
  - exact (next_alarm_is_today_or_tomorrow morning tenOClock tenOClock 22 30
             ltac:(lia) ltac:(lia) Hc Hd Hz Hn Hl).
Defined.

(** ** The two caches side by side *)

Lemma length_append (a b : string) :
  String.length (a +:+ b) = (String.length a + String.length b)%nat.
Proof.
  induction a as [ | c a IH]; [now rewrite append_empty | ].
  rewrite append_String. cbn [String.length]. now rewrite IH.
Qed.

Lemma cutAt_length p s before after :
  JS.cutAt p s = Some (before, after) ->
  String.length s = (String.length before + String.length p + String.length after)%nat.
Proof.
  revert before. induction s as [ | c s IH]; intros before.
  - destruct p; cbn; [intros [= <- <-]; reflexivity | discriminate].
  - cbn [JS.cutAt].
    destruct (JS.dropPrefix p (String c s)) as [rest | ] eqn:Hd.
    + intros [= <- <-]. apply dropPrefix_Some in Hd. rewrite Hd, length_append. reflexivity.
    + destruct (JS.cutAt p s) as [[b a] | ]; [ | discriminate].
      intros [= <- <-]. cbn [String.length]. rewrite (IH b eq_refl). lia.
Qed.

Lemma replace_length s :
  let r := JS.replace "/Documents/" "/Library/Sounds/" s in
  String.length r = String.length s \/ String.length r = (String.length s + 5)%nat.
Proof.
  unfold JS.replace. destruct (JS.cutAt "/Documents/" s) as [[b a] | ] eqn:E; [ | now left].
  right. apply cutAt_length in E. rewrite E, !length_append. cbn [String.length]. lia.
Qed.

Lemma librarySoundsPath_length os dd :
  let n := String.length (NotificationSound.librarySoundsPath os dd) in
  let d := String.length (templated dd) in
  (n = 0%nat /\ (d <= 4)%nat) \/ n = d \/ n = (d + 5)%nat \/ n = (d + 7)%nat.
Proof.
  unfold NotificationSound.librarySoundsPath.
  destruct (isIos os).
  - destruct dd as [dir | ]; [ | left; split; [reflexivity | cbn; lia]].
    destruct (JS.truthy _) eqn:Ht.
    + destruct (replace_length dir) as [-> | ->]; cbn [templated default]; auto.
    + cbn [templated default String.length].
      pose proof (replace_length dir) as E. cbn zeta in E.
      destruct (JS.replace _ _ dir); [ | discriminate Ht]. cbn [String.length] in E.
      unfold id. lia.
  - rewrite length_append. cbn [String.length]. auto.
Qed.

(** The paths of the two caches and of their directories differ. *)
Lemma cache_paths_differ os dd :
  AudioStorage.audioFilePath dd <> NotificationSound.notificationSoundPath os dd
  /\ AudioStorage.audioFilePath dd <> NotificationSound.librarySoundsPath os dd
  /\ NotificationSound.notificationSoundPath os dd <> AudioStorage.audioDirectoryPath dd.
Proof.
  pose proof (librarySoundsPath_length os dd) as H. cbn zeta in H.
  assert (Ha : String.length (AudioStorage.audioFilePath dd)
               = (String.length (templated dd) + 31)%nat).
  { unfold AudioStorage.audioFilePath, AudioStorage.audioDirectoryPath.
    rewrite !length_append. cbn -[templated]. lia. }
  assert (Hd : String.length (AudioStorage.audioDirectoryPath dd)
               = (String.length (templated dd) + 14)%nat).
  { unfold AudioStorage.audioDirectoryPath. rewrite !length_append. cbn -[templated]. lia. }
  assert (Hn : String.length (NotificationSound.notificationSoundPath os dd)
               = (String.length (NotificationSound.librarySoundsPath os dd) + 30)%nat).
  { unfold NotificationSound.notificationSoundPath. rewrite length_append. reflexivity. }
  repeat split; intros E; apply (f_equal String.length) in E; lia.
Qed.

(** Lookups at the path of the other cache go through the writes and
    deletions of this one. *)
Ltac other_paths os dd :=
  destruct (cache_paths_differ os dd) as (? & ? & ?);
  repeat first [rewrite lookup_insert_ne by congruence | rewrite lookup_delete_ne by congruence].

Lemma save_other_kind k src w :
  files (after (save k src) w) !! fixedPath (otherKind k) w
  = files w !! fixedPath (otherKind k) w.
Proof.
  unfold fixedPath, otherKind. unfold_cache.
  destruct w as [os dd tz ck dr fs wn pm rg ans jr cs ss].
  destruct k, os; exec_cache; try reflexivity.
  all: first [other_paths ios dd; reflexivity | other_paths android dd; reflexivity].
Qed.

Lemma remove_other_kind k w :
  files (after (remove k) w) !! fixedPath (otherKind k) w
  = files w !! fixedPath (otherKind k) w.
Proof.
  unfold fixedPath, otherKind. unfold_cache.
  destruct w as [os dd tz ck dr fs wn pm rg ans jr cs ss].
  destruct k, os; exec_cache; try reflexivity.
  all: first [other_paths ios dd; reflexivity | other_paths android dd; reflexivity].
Qed.

(** X9. The two caches do not disturb each other: whatever the source
    and whatever the host answers, a save or a removal of one kind
    leaves what is at the fixed path of the other kind as it was. *)
Theorem caches_are_separate :
  forall (k : Kind) (src : string) (w : World),
    fixedPath k w <> fixedPath (otherKind k) w
    /\ files (after (save k src) w) !! fixedPath (otherKind k) w
       = files w !! fixedPath (otherKind k) w
    /\ files (after (remove k) w) !! fixedPath (otherKind k) w
       = files w !! fixedPath (otherKind k) w.
Proof.
  intros k src w. split; [ | split; [apply save_other_kind | apply remove_other_kind]].
  destruct (cache_paths_differ (PlatformOS w) (documentDirectory w)) as (H & _ & _).
  destruct k; cbn [fixedPath otherKind]; congruence.
Qed.

(** A file just written is there, a file just deleted is not. *)
Ltac known_files :=
  repeat first [rewrite lookup_delete_eq | rewrite lookup_insert_eq].

Lemma remove_absent k w :
  PlatformOS w <> web -> noRejection w ->
  present (fixedPath k w) (after (remove k) w) = false.
Proof.
  intros Hos Hn. unfold fixedPath. unfold_cache.
  destruct w as [os dd tz ck dr fs wn pm rg ans jr cs ss].
  no_rejection Hn. cbn [PlatformOS] in Hos.
  destruct k, os; try congruence; exec_known; unfold present; simp_cache;
    known_files; try congruence.
  all: match goal with H : ?x = None |- context [?x] => now rewrite H end.
Qed.

(** X10. On a platform with a file system and a host that rejects no
    call, a removal leaves nothing at the fixed path of its kind, whether
    or not something was there, and [getLocalAudioPath] then finds no
    audio. *)
Theorem removed_asset_is_gone :
  forall (w : World),
    PlatformOS w <> web -> noRejection w ->
    (forall k, present (fixedPath k w) (after (remove k) w) = false)
    /\ run AudioStorage.getLocalAudioPath (after AudioStorage.deleteLocalAudio w)
       = Returns None.
Proof.
  intros w Hos Hn. split; [intros k; now apply remove_absent | ].
  unfold_cache.
  destruct w as [os dd tz ck dr fs wn pm rg ans jr cs ss].
  no_rejection Hn. cbn [PlatformOS] in Hos.
  destruct os; try congruence; exec_known; known_files; try congruence.
  all: match goal with H : delete ?p ?m !! ?p = Some _ |- _ =>
         rewrite lookup_delete_eq in H; discriminate H end.
Qed.

Lemma removed_asset_is_gone_witness :
  present (fixedPath playbackAudio stockedPhone) stockedPhone = true
  /\ present (fixedPath playbackAudio stockedPhone)
       (after (remove playbackAudio) stockedPhone) = false
  /\ run AudioStorage.getLocalAudioPath (after AudioStorage.deleteLocalAudio stockedPhone)
     = Returns None.
Proof.
  assert (Hos : PlatformOS stockedPhone <> web) by (vm_compute; discriminate).
  assert (Hn : noRejection stockedPhone) by (vm_compute; constructor).
  destruct (removed_asset_is_gone stockedPhone Hos Hn) as [Hk Hl].
  split; [vm_compute; reflexivity | ]. split; [apply Hk | exact Hl].
Defined.

(** X11. On a platform with a file system, with a host that rejects no
    call and loses no write, what [saveAudioLocally] returns is what
    [getLocalAudioPath] finds afterwards. *)
Theorem saved_audio_is_found :
  forall (w : World) (src p : string),
    PlatformOS w <> web -> hostCooperates w ->
    run (AudioStorage.saveAudioLocally src) w = Returns (Some p) ->
    run AudioStorage.getLocalAudioPath (after (AudioStorage.saveAudioLocally src) w)
    = Returns (Some p).
Proof.
  intros w src p Hos Hc. unfold_cache.
  destruct w as [os dd tz ck dr fs wn pm rg ans jr cs ss].
  cooperation Hc. cbn [PlatformOS] in Hos.
  destruct os; try congruence; exec_known; known_files; intros E;
    try discriminate E; try congruence.
  all: try match goal with H : <[?p:=?v]> ?m !! ?p = None |- _ =>
             rewrite lookup_insert_eq in H; discriminate H end.
Qed.

Lemma saved_audio_is_found_witness :
  run AudioStorage.getLocalAudioPath (after (AudioStorage.saveAudioLocally inlineAudio) morning)
  = Returns (Some "file:///var/app/Documents/morning-audio/morning-alarm.mp3").
Proof.
  apply (saved_audio_is_found morning inlineAudio).
  - discriminate.
  - vm_compute. constructor.
  - vm_compute. reflexivity.
Defined.

(** X12. In a browser there is no cache: [saveAudioLocally] returns the
    source itself, [saveNotificationSound] and [getLocalAudioPath]
    return null, the removals do nothing, and none of them makes a call
    to the host or changes a file. *)
Theorem no_cache_in_browser :
  forall (w : World) (src : string) (k : Kind),
    PlatformOS w = web ->
    run (AudioStorage.saveAudioLocally src) w = Returns (Some src)
    /\ run (NotificationSound.saveNotificationSound src) w = Returns None
    /\ run AudioStorage.getLocalAudioPath w = Returns None
    /\ after (save k src) w = w
    /\ after (remove k) w = w
    /\ after AudioStorage.getLocalAudioPath w = w.
Proof.
  intros w src k Hos. unfold_cache.
  destruct w as [os dd tz ck dr fs wn pm rg ans jr cs ss]. cbn [PlatformOS] in Hos.
  subst os. destruct k; repeat split.
Qed.

Lemma no_cache_in_browser_witness :
  run (AudioStorage.saveAudioLocally "https://example.org/morning.mp3") browser
  = Returns (Some "https://example.org/morning.mp3")
  /\ run AudioStorage.getLocalAudioPath
       (after (AudioStorage.saveAudioLocally "https://example.org/morning.mp3") browser)
     = Returns None.
Proof.
  destruct (no_cache_in_browser browser "https://example.org/morning.mp3" playbackAudio eq_refl)
    as (Hs & _ & _ & Ha & _).
  split; [exact Hs | ].
  change (after (AudioStorage.saveAudioLocally "https://example.org/morning.mp3") browser)
    with (after (save playbackAudio "https://example.org/morning.mp3") browser).
  rewrite Ha.
  apply (no_cache_in_browser browser "https://example.org/morning.mp3" playbackAudio eq_refl).
Defined.

(** X13. A save removes the asset it finds before it looks at the
    source: with a host that rejects no call, a save whose source
    starts with [data:] and does not match the grammar of inline assets
    returns null and leaves nothing at the fixed path, also when an
    asset was there. *)
Theorem failed_save_loses_previous_asset :
  forall (k : Kind) (w : World) (src : string),
    PlatformOS w <> web -> noRejection w ->
    DataUri.isDataUri src = true -> ~ matchesInlineGrammar src ->
    run (save k src) w = Returns None
    /\ present (fixedPath k w) (after (save k src) w) = false.
Proof.
  intros k w src Hos Hn Hi Hg.
  apply matchGroup_none in Hg.
  change (DataUri.extractBase64FromDataUri src = None) in Hg.
  unfold fixedPath. unfold_cache.
  destruct w as [os dd tz ck dr fs wn pm rg ans jr cs ss].
  no_rejection Hn. cbn [PlatformOS] in Hos.
  destruct k, os; try congruence; exec_known; (split; [reflexivity | ]);
    unfold present; simp_cache; known_files; try congruence.
  all: match goal with H : ?x = None |- context [?x] => now rewrite H end.
Qed.

Lemma failed_save_loses_previous_asset_witness :
  present (fixedPath playbackAudio stockedPhone) stockedPhone = true
  /\ run (save playbackAudio brokenInline) stockedPhone = Returns None
  /\ present (fixedPath playbackAudio stockedPhone)
       (after (save playbackAudio brokenInline) stockedPhone) = false.
Proof.
  split; [vm_compute; reflexivity | ].
  apply (failed_save_loses_previous_asset playbackAudio stockedPhone brokenInline).
  - vm_compute. discriminate.
  - vm_compute. constructor.
  - reflexivity.
  - apply matchGroup_none. vm_compute. reflexivity.
Defined.

(** ** What a computation keeps *)

Section Keeps.

Variable R : World -> World -> Prop.
Hypothesis R_refl : forall w, R w w.
Hypothesis R_trans : forall w1 w2 w3, R w1 w2 -> R w2 w3 -> R w1 w3.

Lemma keeps_ret {A} (a : A) : keeps R (ret a).
Proof. intros w. apply R_refl. Qed.

Lemma keeps_throw {A} e : keeps R (@throw A e).
Proof. intros w. apply R_refl. Qed.

Lemma keeps_get : keeps R get.
Proof. intros w. apply R_refl. Qed.

Lemma keeps_bind {A B} (m : M A) (k : A -> M B) :
  keeps R m -> (forall a, keeps R (k a)) -> keeps R (bind m k).
Proof.
  intros Hm Hk w. specialize (Hm w). unfold after, bind in *.
  destruct (m w) as [[a | e] w1]; cbn [snd] in *; [ | exact Hm].
  eapply R_trans; [exact Hm | apply Hk].
Qed.

Lemma keeps_tryCatch {A} (body : M A) (handler : string -> M A) :
  keeps R body -> (forall e, keeps R (handler e)) -> keeps R (tryCatch body handler).
Proof.
  intros Hm Hk w. specialize (Hm w). unfold after, tryCatch in *.
  destruct (body w) as [[a | e] w1]; cbn [snd] in *; [exact Hm | ].
  eapply R_trans; [exact Hm | apply Hk].
Qed.

End Keeps.

Lemma sessionKept_refl w : sessionKept w w.
Proof. unfold sessionKept. tauto. Qed.

Lemma sessionKept_trans w1 w2 w3 : sessionKept w1 w2 -> sessionKept w2 w3 -> sessionKept w1 w3.
Proof. unfold sessionKept. intuition congruence. Qed.

Lemma diskOnly_refl w : diskOnly w w.
Proof.
  split; [apply sessionKept_refl | ]. do 4 (split; [reflexivity | ]). split; [tauto | ].
  exists []. split; [now rewrite app_nil_r | constructor].
Qed.

Lemma diskOnly_trans w1 w2 w3 : diskOnly w1 w2 -> diskOnly w2 w3 -> diskOnly w1 w3.
Proof.
  intros (Hs & Ho & Hd & Hw & Hr & Ha & es & Hj & Hn)
         (Hs' & Ho' & Hd' & Hw' & Hr' & Ha' & es' & Hj' & Hn').
  split; [eapply sessionKept_trans; eassumption | ].
  do 4 (split; [congruence | ]). split; [tauto | ].
  exists (es ++ es'). split; [rewrite Hj', Hj; now rewrite app_assoc | ].
  apply Forall_app. now split.
Qed.

Lemma notificationsOnly_refl w : notificationsOnly w w.
Proof. split; [apply sessionKept_refl | ]. repeat split. tauto. Qed.

Lemma noRejection_tail w w' : answers w' = tl (answers w) -> noRejection w -> noRejection w'.
Proof.
  unfold noRejection. intros -> H. destruct H; [constructor | assumption].
Qed.

Lemma notificationsOnly_trans w1 w2 w3 :
  notificationsOnly w1 w2 -> notificationsOnly w2 w3 -> notificationsOnly w1 w3.
Proof.
  intros (Hs & Ho & Hd & Ha & Hf) (Hs' & Ho' & Hd' & Ha' & Hf').
  split; [eapply sessionKept_trans; eassumption | ].
  do 2 (split; [congruence | ]). split; [tauto | congruence].
Qed.

(** A call to the host keeps the session but for the screen. *)
Lemma answered_sessionKept c w : sessionKept w (snd (answered c w)).
Proof.
  unfold sessionKept, answered. cbn. repeat split.
  intros H. now apply andb_true_iff in H.
Qed.

(** The steps of a computation are taken one by one. *)
Ltac keeps_steps refl trans :=
  repeat first
    [ apply (keeps_bind _ trans); [ | intros ?]
    | apply (keeps_tryCatch _ trans); [ | intros ?]
    | apply (keeps_ret _ refl)
    | apply (keeps_throw _ refl)
    | apply (keeps_get _ refl)
    | match goal with
      | |- keeps _ (if ?c then _ else _) => destruct c
      | |- keeps _ (match ?x with _ => _ end) => destruct x
      end ].

(** A call to the file system keeps the session and what is pending,
    and is no call to the notification centre. *)
Ltac disk_step :=
  intros w; unfold after, hostCall, modify, setConsole, setFiles; cbn;
  repeat case_match; cbn;
  (split; [unfold sessionKept; cbn; repeat split; try tauto;
           let Hm := fresh "Hm" in intros Hm; now apply andb_true_iff in Hm | ]);
  do 4 (split; [reflexivity | ]);
  (split; [first [tauto | now apply noRejection_tail] | ]);
  first [ exists []; split; [now rewrite app_nil_r | constructor]
        | eexists; split; [reflexivity | repeat constructor] ].

Lemma getInfoAsync_diskOnly path : keeps diskOnly (getInfoAsync path).
Proof. unfold getInfoAsync. disk_step. Qed.

Lemma makeDirectoryAsync_diskOnly path : keeps diskOnly (makeDirectoryAsync path).
Proof. unfold makeDirectoryAsync. disk_step. Qed.

Lemma deleteAsync_diskOnly path : keeps diskOnly (deleteAsync path).
Proof. unfold deleteAsync. disk_step. Qed.

Lemma writeAsStringAsync_diskOnly path data : keeps diskOnly (writeAsStringAsync path data).
Proof. unfold writeAsStringAsync. disk_step. Qed.

Lemma downloadAsync_diskOnly url path : keeps diskOnly (downloadAsync url path).
Proof. unfold downloadAsync. disk_step. Qed.

Lemma console_error_diskOnly label e : keeps diskOnly (console_error label e).
Proof. unfold console_error. disk_step. Qed.

Lemma Platform_OS_diskOnly : keeps diskOnly Platform_OS.
Proof. intros w. apply diskOnly_refl. Qed.

(** The steps of the media cache, one by one. *)
Ltac disk_steps :=
  repeat first
    [ apply getInfoAsync_diskOnly | apply makeDirectoryAsync_diskOnly
    | apply deleteAsync_diskOnly | apply writeAsStringAsync_diskOnly
    | apply downloadAsync_diskOnly | apply console_error_diskOnly
    | apply Platform_OS_diskOnly
    | progress keeps_steps diskOnly_refl diskOnly_trans ].

Lemma save_diskOnly k src : keeps diskOnly (save k src).
Proof.
  destruct k; unfold save, AudioStorage.saveAudioLocally, AudioStorage.ensureDirectoryExists,
    AudioStorage.getAudioFilePath, AudioStorage.getAudioDirectoryPath,
    NotificationSound.saveNotificationSound, NotificationSound.ensureSoundsDirectoryExists,
    NotificationSound.getNotificationSoundPath, NotificationSound.getLibrarySoundsPath;
    disk_steps.
Qed.

Lemma remove_diskOnly k : keeps diskOnly (remove k).
Proof.
  destruct k; unfold remove, AudioStorage.deleteLocalAudio, AudioStorage.getAudioFilePath,
    NotificationSound.deleteNotificationSound, NotificationSound.getNotificationSoundPath;
    disk_steps.
Qed.

(** A call to the notification centre, a reading of the clock or a line
    on the console keeps the files and the session. *)
Ltac notification_step :=
  intros w; unfold after, hostCall, modify, readClock, bind, ret,
    setConsole, setPermission, setRegistered, setWindowNotification, setClock; cbn;
  repeat case_match; cbn;
  (split; [unfold sessionKept; cbn; repeat split; try tauto;
           let Hm := fresh "Hm" in intros Hm; now apply andb_true_iff in Hm | ]);
  do 2 (split; [reflexivity | ]);
  (split; [first [tauto | now apply noRejection_tail] | reflexivity]).

Lemma getPermissionsAsync_notificationsOnly : keeps notificationsOnly getPermissionsAsync.
Proof. unfold getPermissionsAsync. notification_step. Qed.

Lemma requestPermissionsAsync_notificationsOnly : keeps notificationsOnly requestPermissionsAsync.
Proof. unfold requestPermissionsAsync. notification_step. Qed.

Lemma cancelScheduled_notificationsOnly id :
  keeps notificationsOnly (cancelScheduledNotificationAsync id).
Proof. unfold cancelScheduledNotificationAsync. notification_step. Qed.

Lemma scheduleNotification_notificationsOnly request :
  keeps notificationsOnly (scheduleNotificationAsync request).
Proof. unfold scheduleNotificationAsync. notification_step. Qed.

Lemma notificationInWindow_notificationsOnly : keeps notificationsOnly notificationInWindow.
Proof. intros w. apply notificationsOnly_refl. Qed.

Lemma webRequestPermission_notificationsOnly :
  keeps notificationsOnly Notification_requestPermission.
Proof. unfold Notification_requestPermission. notification_step. Qed.

Lemma newDate_notificationsOnly : keeps notificationsOnly newDate.
Proof. unfold newDate. notification_step. Qed.

Lemma Date_now_notificationsOnly : keeps notificationsOnly Date_now.
Proof. unfold Date_now. notification_step. Qed.

Lemma console_error_notificationsOnly label e : keeps notificationsOnly (console_error label e).
Proof. unfold console_error. notification_step. Qed.

Lemma Platform_OS_notificationsOnly : keeps notificationsOnly Platform_OS.
Proof. intros w. apply notificationsOnly_refl. Qed.

(** The steps of the scheduler, one by one. *)
Ltac notification_steps :=
  repeat first
    [ apply getPermissionsAsync_notificationsOnly
    | apply requestPermissionsAsync_notificationsOnly
    | apply cancelScheduled_notificationsOnly
    | apply scheduleNotification_notificationsOnly
    | apply notificationInWindow_notificationsOnly
    | apply webRequestPermission_notificationsOnly
    | apply newDate_notificationsOnly | apply Date_now_notificationsOnly
    | apply console_error_notificationsOnly | apply Platform_OS_notificationsOnly
    | progress keeps_steps notificationsOnly_refl notificationsOnly_trans ].

Lemma cancelExistingAlarm_notificationsOnly :
  keeps notificationsOnly AlarmScheduler.cancelExistingAlarm.
Proof. unfold AlarmScheduler.cancelExistingAlarm. notification_steps. Qed.

Lemma scheduleAlarm_notificationsOnly p :
  keeps notificationsOnly (AlarmScheduler.scheduleAlarm p).
Proof.
  unfold AlarmScheduler.scheduleAlarm, AlarmScheduler.requestNotificationPermissions,
    AlarmScheduler.cancelExistingAlarm, AlarmScheduler.calculateNextAlarmTime.
  notification_steps.
Qed.

(** ** The time picker *)

Lemma digit_is_digit a :
  0 <= a <= 9 -> JS.isDigit (JS.digitChar a) = true /\ JS.digitValue (JS.digitChar a) = a.
Proof. intros H. each_digit H; split; reflexivity. Qed.

Lemma parseTimeOfDay_timeOfDay h m :
  0 <= h <= 99 -> 0 <= m <= 99 -> parseTimeOfDay (timeOfDay h m) = Some (h, m).
Proof.
  intros Hh Hm.
  destruct (two_digits h Hh) as (h1 & h0 & Eh), (two_digits m Hm) as (m1 & m0 & Em).
  unfold timeOfDay, JS.padStart2.
  repeat (rewrite append_String || rewrite append_empty). unfold parseTimeOfDay.
  destruct (digit_is_digit _ h1) as [-> ->], (digit_is_digit _ h0) as [-> ->],
    (digit_is_digit _ m1) as [-> ->], (digit_is_digit _ m0) as [-> ->].
  cbn. now rewrite Eh, Em.
Qed.

(** The items of the picker are the numbers of their positions, on two
    digits. *)
Lemma padStart_toString (n : nat) :
  (n < 60)%nat -> padStart 2 "0" (toString (Some (Z.of_nat n))) = JS.padStart2 (Z.of_nat n).
Proof.
  intros H. do 60 (destruct n as [ | n]; [reflexivity | ]). lia.
Qed.

Lemma arrayFrom_lookup {A} (n : nat) (f : Z -> A) (i : nat) (x : A) :
  arrayFrom n f !! i = Some x -> (i < n)%nat /\ x = f (Z.of_nat i).
Proof.
  unfold arrayFrom. rewrite list_lookup_fmap. intros H.
  destruct (seq 0 n !! i) as [j | ] eqn:E; [ | discriminate].
  apply lookup_seq in E as [-> Hi]. cbn in H. injection H as <-. now split.
Qed.

Lemma HOURS_item i s :
  HOURS !! i = Some s -> exists h, 0 <= h <= 23 /\ s = JS.padStart2 h.
Proof.
  intros H. apply arrayFrom_lookup in H as [Hi ->].
  exists (Z.of_nat i). split; [lia | ]. apply padStart_toString. lia.
Qed.

Lemma MINUTES_item i s :
  MINUTES !! i = Some s -> exists m, 0 <= m <= 59 /\ s = JS.padStart2 m.
Proof.
  intros H. apply arrayFrom_lookup in H as [Hi ->].
  exists (Z.of_nat i). split; [lia | ]. apply padStart_toString. lia.
Qed.

Lemma scrolledTo_item list index s :
  scrolledTo list index = Some s -> exists i, list !! i = Some s.
Proof.
  unfold scrolledTo. destruct index as [i | ]; [ | discriminate].
  destruct (_ && _); [ | discriminate]. eauto.
Qed.

Lemma onPickerEvent_holds s e : pickerHolds s -> pickerHolds (onPickerEvent s e).
Proof.
  intros [Hh Hm]. destruct e as [index | position | index | position];
    (split; cbn [onPickerEvent hour minute]; [ | ]); try assumption.
  - destruct (scrolledTo HOURS index) as [x | ] eqn:E; [ | exact Hh].
    apply scrolledTo_item in E as [i E]. now apply HOURS_item in E.
  - destruct (HOURS !! position) as [x | ] eqn:E; [ | exact Hh]. now apply HOURS_item in E.
  - destruct (scrolledTo MINUTES index) as [x | ] eqn:E; [ | exact Hm].
    apply scrolledTo_item in E as [i E]. now apply MINUTES_item in E.
  - destruct (MINUTES !! position) as [x | ] eqn:E; [ | exact Hm]. now apply MINUTES_item in E.
Qed.

Lemma picker_events_hold events s :
  pickerHolds s -> pickerHolds (fold_left onPickerEvent events s).
Proof.
  revert s. induction events as [ | e events IH]; intros s H; [exact H | ].
  cbn [fold_left]. apply IH. now apply onPickerEvent_holds.
Qed.

Lemma getNextFullHour_run w :
  Z.abs (nextReading w) <= maxTime ->
  exists h, 0 <= h <= 23
            /\ h = (HourFromTime (LocalTime (tza w) (nextReading w)) + 1) mod 24
            /\ run getNextFullHour w = Returns {| hour := JS.padStart2 h; minute := "00" |}.
Proof.
  intros Hnow. unfold nextReading in *.
  unfold run, getNextFullHour, newDate, readClock, bind, ret, get.
  cbn -[TimeClip padStart toString HourFromTime LocalTime].
  rewrite TimeClip_in_range by exact Hnow.
  cbn -[padStart toString HourFromTime LocalTime].
  set (H := HourFromTime (LocalTime (tza w) (clock w + hd 0 (drift w)))).
  assert (HH : 0 <= H <= 23).
  { subst H. unfold HourFromTime. Z.to_euclidean_division_equations. lia. }
  exists ((H + 1) mod 24). split; [Z.to_euclidean_division_equations; lia | ].
  split; [reflexivity | ].
  destruct (Z.leb_spec 24 (H + 1)) as [Hw | Hw].
  - replace ((H + 1) mod 24) with 0 by (Z.to_euclidean_division_equations; lia).
    reflexivity.
  - replace ((H + 1) mod 24) with (H + 1) by (Z.to_euclidean_division_equations; lia).
    do 2 f_equal. rewrite <- (Z2Nat.id (H + 1)) by lia. apply padStart_toString. lia.
Qed.

(** X20. Every wake-up time the input screen can hand over is a valid
    time of day: whatever the user does with the picker, and from the
    default alone, [handleGenerate] passes a string [HH:MM] with the
    hour in 0..23 and the minute in 0..59, which is what
    [calculateNextAlarmTime] needs. The default is the hour after the
    current one, at minute 0. *)
Theorem picker_gives_valid_time :
  forall (w : World) (events : list PickerEvent),
    Z.abs (nextReading w) <= maxTime ->
    exists h m,
      run (chooseWakeUpTime events) w = Returns (timeOfDay h m)
      /\ 0 <= h <= 23 /\ 0 <= m <= 59
      /\ parseTimeOfDay (timeOfDay h m) = Some (h, m)
      /\ validTimeOfDay (timeOfDay h m) = true
      /\ (events = [] ->
          h = (HourFromTime (LocalTime (tza w) (nextReading w)) + 1) mod 24 /\ m = 0).
Proof.
  intros w events Hnow.
  destruct (getNextFullHour_run w Hnow) as (h0 & Hh0 & Eh0 & Hrun).
  assert (Hd : pickerHolds {| hour := JS.padStart2 h0; minute := "00" |}).
  { split; [exists h0 | exists 0]; split; (lia || reflexivity). }
  pose proof (picker_events_hold events _ Hd) as [(h & Hh & Eh) (m & Hm & Em)].
  exists h, m.
  assert (Hp : parseTimeOfDay (timeOfDay h m) = Some (h, m))
    by (apply parseTimeOfDay_timeOfDay; lia).
  split; [ | split; [exact Hh | split; [exact Hm | split; [exact Hp | split]]]].
  - unfold chooseWakeUpTime, run. rewrite (bind_returns _ _ _ _ Hrun).
    cbn [ret fst]. unfold wakeUpTimeParam, timeOfDay. now rewrite Eh, Em.
  - unfold validTimeOfDay. rewrite Hp.
    apply andb_true_iff. split; apply Z.leb_le; lia.
  - intros ->. cbn [fold_left hour minute] in Eh, Em.
    assert (Hinj : forall a b, 0 <= a <= 99 -> 0 <= b <= 99 ->
                               JS.padStart2 a = JS.padStart2 b -> a = b).
    { intros a b Ha Hb E. apply (f_equal JS.Number) in E.
      rewrite !Number_padStart2 in E by assumption. now injection E. }
    split.
    + rewrite <- Eh0. symmetry. apply Hinj; [lia | lia | exact Eh].
    + symmetry. apply Hinj; [lia | lia | exact Em].
Qed.

Lemma picker_gives_valid_time_witness :
  run (chooseWakeUpTime []) morning = Returns "11:00"
  /\ run (chooseWakeUpTime [HourScrollEnd (Some 7); MinutePress 30; HourScrollEnd (Some 24);
                            MinuteScrollEnd None]) morning = Returns "07:30".
Proof.
  assert (H : Z.abs (nextReading morning) <= maxTime) by (vm_compute; discriminate).
  split.
  - destruct (picker_gives_valid_time morning [] H) as (h & m & Hr & _ & _ & _ & _ & Hd).
    destruct (Hd eq_refl) as [-> ->]. exact Hr.
  - destruct (picker_gives_valid_time morning
                [HourScrollEnd (Some 7); MinutePress 30; HourScrollEnd (Some 24);
                 MinuteScrollEnd None] H) as (h & m & Hr & _).
    rewrite Hr. vm_compute in Hr. exact (eq_sym Hr).
Defined.

(** ** Inline assets with parameters *)

Lemma extract_first_parameter mime rest :
  mime <> EmptyString -> lacks ";" mime = true ->
  DataUri.extractBase64FromDataUri ("data:" +:+ mime +:+ ";" +:+ rest)
  = match JS.dropPrefix "base64," rest with
    | Some payload =>
        if JS.truthy payload && DataUri.noLineTerminator payload then Some payload else None
    | None => None
    end.
Proof.
  intros Hm Hl. unfold DataUri.extractBase64FromDataUri, DataUri.matchGroup.
  assert (E : JS.dropPrefix "data:" ("data:" +:+ mime +:+ ";" +:+ rest)
              = Some (mime +:+ ";" +:+ rest)) by now apply dropPrefix_Some.
  rewrite E. change (";" +:+ rest) with (String ";" rest).
  rewrite spanNot_lacks by exact Hl.
  apply truthy_nonempty in Hm. rewrite Hm. reflexivity.
Qed.

(** X21. The regular expression of [extractBase64FromDataUri] looks at
    the first parameter only: of [data:<mime>;<rest>] it returns what
    follows [base64,] when [rest] starts with it, and nothing otherwise.
    So an inline asset that carries another parameter before [base64],
    as in [data:audio/mpeg;charset=utf-8;base64,...], is refused: on a
    native platform the save returns null and asks for no write and no
    transfer. *)
Theorem parameterised_inline_asset_refused :
  forall (k : Kind) (w : World) (mime rest : string),
    let src := "data:" +:+ mime +:+ ";" +:+ rest in
    let w' := after (save k src) w in
    mime <> EmptyString -> lacks ";" mime = true ->
    JS.startsWith "base64," rest = false ->
    PlatformOS w <> web ->
    DataUri.extractBase64FromDataUri src = None
    /\ run (save k src) w = Returns None
    /\ writes w w' = [] /\ transfers w w' = [].
Proof.
  intros k w mime rest src w' Hm Hl Hb Hos.
  assert (He : DataUri.extractBase64FromDataUri src = None).
  { subst src. rewrite extract_first_parameter by assumption.
    rewrite startsWith_dropPrefix in Hb.
    destruct (JS.dropPrefix "base64," rest); [discriminate Hb | reflexivity]. }
  split; [exact He | ].
  apply inline_save_refused; [exact Hos | reflexivity | ].
  apply matchGroup_none. exact He.
Qed.

Lemma parameterised_inline_asset_refused_witness :
  run (save playbackAudio "data:audio/mpeg;charset=utf-8;base64,AAAA") morning = Returns None
  /\ run (save playbackAudio "data:audio/mpeg;base64,AAAA") morning
     = Returns (Some "file:///var/app/Documents/morning-audio/morning-alarm.mp3").
Proof.
  split; [ | vm_compute; reflexivity].
  apply (parameterised_inline_asset_refused playbackAudio morning "audio/mpeg"
           "charset=utf-8;base64,AAAA"); try reflexivity; discriminate.
Defined.

(** ** The location of the form *)

Lemma split_lacks c s : lacks c s = true -> JS.split c s = [s].
Proof.
  induction s as [ | a s IH]; [reflexivity | ].
  cbn [lacks JS.split]. intros H. apply andb_true_iff in H as [Ha H].
  apply negb_true_iff in Ha. rewrite Ha, (IH H). reflexivity.
Qed.

Lemma split_first c a rest :
  lacks c a = true -> JS.split c (a +:+ String c rest) = a :: JS.split c rest.
Proof.
  induction a as [ | x a IH]; intros H.
  - rewrite append_empty. cbn [JS.split]. now rewrite Ascii.eqb_refl.
  - cbn [lacks] in H. apply andb_true_iff in H as [Hx H].
    apply negb_true_iff in Hx. rewrite append_String. cbn [JS.split].
    rewrite Hx, (IH H). reflexivity.
Qed.

(** X22. [parseLocation] takes the city from the text before the first
    comma and the country from the text between the first comma and the
    second, both trimmed; without a comma the country is empty, and what
    follows a second comma is ignored. *)
Theorem parseLocation_splits_at_commas :
  forall (a b c : string),
    lacks "," a = true -> lacks "," b = true ->
    parseLocation a = {| city := trimmed a; country := EmptyString |}
    /\ parseLocation (a +:+ "," +:+ b) = {| city := trimmed a; country := trimmed b |}
    /\ parseLocation (a +:+ "," +:+ b +:+ "," +:+ c)
       = {| city := trimmed a; country := trimmed b |}.
Proof.
  intros a b c Ha Hb. unfold parseLocation. repeat split.
  - now rewrite split_lacks.
  - change ("," +:+ b) with (String "," b).
    rewrite split_first, split_lacks by assumption. reflexivity.
  - change ("," +:+ b +:+ "," +:+ c) with (String "," (b +:+ String "," c)).
    rewrite split_first, split_first by assumption. reflexivity.
Qed.

Lemma parseLocation_splits_at_commas_witness :
  parseLocation "Paris" = {| city := "Paris"; country := EmptyString |}
  /\ parseLocation " Paris , France " = {| city := "Paris"; country := "France" |}
  /\ parseLocation "Paris,France,Europe" = {| city := "Paris"; country := "France" |}.
Proof.
  destruct (parseLocation_splits_at_commas " Paris " " France " "x" eq_refl eq_refl)
    as (_ & H2 & _).
  destruct (parseLocation_splits_at_commas "Paris" "France" "Europe" eq_refl eq_refl)
    as (H1 & _ & H3).
  split; [exact H1 | ]. split; [exact H2 | exact H3].
Defined.

Lemma dropWhiteSpace_snoc l c :
  JS.isStrWhiteSpace c = false -> JS.dropWhiteSpace (l ++ [c]) <> [].
Proof.
  intros Hc. induction l as [ | x l IH]; cbn [app JS.dropWhiteSpace].
  - now rewrite Hc.
  - destruct (JS.isStrWhiteSpace x); [exact IH | discriminate].
Qed.

Lemma trimmed_from_comma rest : JS.truthy (trimmed (String "," rest)) = true.
Proof.
  unfold trimmed, JS.trim. cbn [list_ascii_of_string JS.dropWhiteSpace].
  change (JS.isStrWhiteSpace ",") with false. cbn [rev].
  pose proof (dropWhiteSpace_snoc (rev (list_ascii_of_string rest)) "," eq_refl) as H.
  destruct (JS.dropWhiteSpace _) as [ | x l] eqn:E; [contradiction | ].
  destruct (rev (x :: l)) as [ | y r] eqn:Er; [ | reflexivity].
  apply (f_equal (@length ascii)) in Er. rewrite length_rev in Er. discriminate Er.
Qed.

(** X23. [validateFields] looks at the whole location and not at the
    city: a location that starts with a comma passes it, with a name
    and a language given, and [parseLocation] then yields an empty
    city. *)
Theorem validated_location_without_city :
  forall (name language rest : string),
    JS.truthy (trimmed name) = true -> JS.truthy language = true ->
    let location := "," +:+ rest in
    validateFields name location language
    = (true, {| nameError := EmptyString; locationError := EmptyString;
                languageError := EmptyString |})
    /\ city (parseLocation location) = EmptyString.
Proof.
  intros name language rest Hn Hl location. subst location.
  change ("," +:+ rest) with (String "," rest). split.
  - unfold validateFields. rewrite Hn, Hl, trimmed_from_comma. reflexivity.
  - unfold parseLocation. cbn [JS.split]. rewrite Ascii.eqb_refl. reflexivity.
Qed.

Lemma validated_location_without_city_witness :
  fst (validateFields "Ann" ", France" "English") = true
  /\ parseLocation ", France" = {| city := EmptyString; country := "France" |}.
Proof.
  destruct (validated_location_without_city "Ann" "English" " France" eq_refl eq_refl)
    as [Hv Hc].
  split; [exact (f_equal fst Hv) | ].
  vm_compute. reflexivity.
Defined.

(** * The playback screen

    [handleScheduleAlarm] awaits [Promise.all] of the two saves, and
    [handleCancelAlarm] that of the two removals: what follows holds in
    every order in which the host may settle the calls of the two
    functions that run side by side. *)

Import Tasks TaskLogic.

(** ** Tasks that run alone *)

Lemma Step_induction {A} (P : Step A -> Prop) :
  (forall o, P (Settled o)) ->
  (forall resume, (forall w, P (fst (resume w))) -> P (Awaiting resume)) ->
  forall s, P s.
Proof.
  intros Hs Ha. fix IH 1. intros [o | resume]; [apply Hs | ].
  apply Ha. intros w. apply IH.
Qed.

(** A task that runs alone is the function it was cut from. *)
Lemma alone_sync {A} (m : M A) w : alone (sync m) w = m w.
Proof. unfold alone, sync. now destruct (m w). Qed.

Lemma alone_await {A} (m : M A) w : alone (await m) w = m w.
Proof. unfold alone, await. now destruct (m w). Qed.

Lemma finish_bindStep {A B} (s : Step A) (k : A -> Task B) w :
  (let (s', w') := bindStep s k w in finish s' w')
  = match finish s w with
    | (Returns a, w') => alone (k a) w'
    | (Throws e, w') => (Throws e, w')
    end.
Proof.
  revert w. induction s as [[a | e] | resume IH] using Step_induction; intros w;
    cbn [bindStep finish]; try reflexivity.
  specialize (IH w). destruct (resume w) as [s' w']. exact (IH w').
Qed.

Lemma alone_bindT {A B} (t : Task A) (k : A -> Task B) w :
  alone (bindT t k) w = bind (alone t) (fun a => alone (k a)) w.
Proof.
  pose proof (finish_bindStep (fst (t w)) k (snd (t w))) as H.
  unfold alone, bindT, bind in *. destruct (t w) as [s w']. exact H.
Qed.

Lemma finish_catchStep {A} (s : Step A) (handler : string -> Task A) w :
  (let (s', w') := catchStep s handler w in finish s' w')
  = match finish s w with
    | (Returns a, w') => (Returns a, w')
    | (Throws e, w') => alone (handler e) w'
    end.
Proof.
  revert w. induction s as [[a | e] | resume IH] using Step_induction; intros w;
    cbn [catchStep finish]; try reflexivity.
  specialize (IH w). destruct (resume w) as [s' w']. exact (IH w').
Qed.

Lemma alone_tryCatchT {A} (body : Task A) (handler : string -> Task A) w :
  alone (tryCatchT body handler) w
  = tryCatch (alone body) (fun e => alone (handler e)) w.
Proof.
  pose proof (finish_catchStep (fst (body w)) handler (snd (body w))) as H.
  unfold alone, tryCatchT, tryCatch in *. destruct (body w) as [s w']. exact H.
Qed.

Lemma bind_ext {A B} (m m' : M A) (k k' : A -> M B) w :
  (forall w, m w = m' w) -> (forall a w, k a w = k' a w) -> bind m k w = bind m' k' w.
Proof.
  intros Hm Hk. unfold bind. rewrite Hm. destruct (m' w) as [[a | e] w']; [apply Hk | reflexivity].
Qed.

Lemma tryCatch_ext {A} (m m' : M A) (h h' : string -> M A) w :
  (forall w, m w = m' w) -> (forall e w, h e w = h' e w) ->
  tryCatch m h w = tryCatch m' h' w.
Proof.
  intros Hm Hh. unfold tryCatch. rewrite Hm.
  destruct (m' w) as [[a | e] w']; [reflexivity | apply Hh].
Qed.

(** The steps of a task that runs alone, one by one. *)
Ltac alone_steps :=
  repeat first
    [ rewrite alone_bindT; apply bind_ext; [intros ? | intros ? ?]
    | rewrite alone_tryCatchT; apply tryCatch_ext; [intros ? | intros ? ?]
    | apply alone_sync
    | apply alone_await
    | match goal with
      | |- alone (if ?c then _ else _) _ = _ => destruct c
      | |- alone (match ?x with _ => _ end) _ = _ => destruct x
      end ].

Lemma alone_ensureDirectoryExists w :
  alone Concurrent.ensureDirectoryExists w = AudioStorage.ensureDirectoryExists w.
Proof.
  unfold Concurrent.ensureDirectoryExists, AudioStorage.ensureDirectoryExists, retT.
  alone_steps.
Qed.

Lemma alone_ensureSoundsDirectoryExists w :
  alone Concurrent.ensureSoundsDirectoryExists w
  = NotificationSound.ensureSoundsDirectoryExists w.
Proof.
  unfold Concurrent.ensureSoundsDirectoryExists,
    NotificationSound.ensureSoundsDirectoryExists, retT.
  alone_steps.
Qed.

(** Run alone, the tasks of the two caches are the functions of the two
    caches. *)
Lemma alone_saveAudioLocally url w :
  alone (Concurrent.saveAudioLocally url) w = AudioStorage.saveAudioLocally url w.
Proof.
  unfold Concurrent.saveAudioLocally, AudioStorage.saveAudioLocally, retT, throwT.
  alone_steps. all: try apply alone_ensureDirectoryExists.
Qed.

Lemma alone_saveNotificationSound url w :
  alone (Concurrent.saveNotificationSound url) w
  = NotificationSound.saveNotificationSound url w.
Proof.
  unfold Concurrent.saveNotificationSound, NotificationSound.saveNotificationSound,
    retT, throwT.
  alone_steps. all: try apply alone_ensureSoundsDirectoryExists.
Qed.

Lemma alone_deleteLocalAudio w :
  alone Concurrent.deleteLocalAudio w = AudioStorage.deleteLocalAudio w.
Proof.
  unfold Concurrent.deleteLocalAudio, AudioStorage.deleteLocalAudio, retT.
  alone_steps.
Qed.

Lemma alone_deleteNotificationSound w :
  alone Concurrent.deleteNotificationSound w = NotificationSound.deleteNotificationSound w.
Proof.
  unfold Concurrent.deleteNotificationSound, NotificationSound.deleteNotificationSound, retT.
  alone_steps.
Qed.

(** ** Tasks side by side *)

Section Rules.

Context {A : Type}.
Variables R G : World -> World -> Prop.
Hypothesis R_pre : Preorder R.
Hypothesis G_pre : Preorder G.

Lemma spec_sync (Q : Outcome A -> World -> Prop) (m : M A) w :
  G w (snd (m w)) ->
  (forall w', R (snd (m w)) w' -> Q (fst (m w)) w') ->
  TaskSpec R G Q (sync m) w.
Proof.
  intros Hg Hq. unfold TaskSpec, sync. destruct (m w) as [o w1].
  split; [exact Hg | ]. now constructor.
Qed.

Lemma spec_await (Q : Outcome A -> World -> Prop) (m : M A) w :
  G w (snd (m w)) ->
  (forall w', R (snd (m w)) w' -> Q (fst (m w)) w') ->
  TaskSpec R G Q (await m) w.
Proof.
  intros Hg Hq. unfold TaskSpec, await. destruct (m w) as [o w1]. cbn [fst snd] in *.
  split; [exact Hg | ]. constructor; cbn [fst snd].
  - intros w2 _. apply (preorder_refl _ G_pre).
  - intros w2 H2. constructor. intros w3 H3. apply Hq.
    exact (preorder_trans _ R_pre _ _ _ H2 H3).
Qed.

Lemma spec_catchStep (Qa Qb : Outcome A -> World -> Prop) handler w0 s :
  StepSpec R G Qa w0 s ->
  (forall a w, Qa (Returns a) w -> Qb (Returns a) w) ->
  (forall e w, Qa (Throws e) w -> TaskSpec R G Qb (handler e) w) ->
  forall wp, G wp w0 ->
    G wp (snd (catchStep s handler w0))
    /\ StepSpec R G Qb (snd (catchStep s handler w0)) (fst (catchStep s handler w0)).
Proof.
  intros H Hr Hh. induction H as [w0 [a | e] Ho | w0 resume Hg Hs IH]; intros wp Hp;
    cbn [catchStep fst snd].
  - split; [exact Hp | ]. constructor. auto.
  - destruct (Hh e w0 (Ho w0 (preorder_refl _ R_pre w0))) as [Hg1 Hs1].
    split; [exact (preorder_trans _ G_pre _ _ _ Hp Hg1) | exact Hs1].
  - split; [exact Hp | ]. constructor.
    + intros w Hw. specialize (IH w Hw w (Hg w Hw)).
      destruct (resume w) as [s' w2]. cbn [fst snd] in *. apply IH.
    + intros w Hw. specialize (IH w Hw w (Hg w Hw)).
      destruct (resume w) as [s' w2]. cbn [fst snd] in *. apply IH.
Qed.

Lemma spec_tryCatchT (Qa Qb : Outcome A -> World -> Prop) body handler w :
  TaskSpec R G Qa body w ->
  (forall a w, Qa (Returns a) w -> Qb (Returns a) w) ->
  (forall e w, Qa (Throws e) w -> TaskSpec R G Qb (handler e) w) ->
  TaskSpec R G Qb (tryCatchT body handler) w.
Proof.
  intros [Hg Hs] Hr Hh. unfold TaskSpec, tryCatchT.
  destruct (body w) as [s w1]. cbn [fst snd] in *.
  now apply (spec_catchStep Qa).
Qed.

End Rules.

Section Bind.

Context {A B : Type}.
Variables R G : World -> World -> Prop.
Hypothesis R_pre : Preorder R.
Hypothesis G_pre : Preorder G.

Lemma spec_bindStep (Qa : Outcome A -> World -> Prop) (Qb : Outcome B -> World -> Prop)
    (k : A -> Task B) w0 s :
  StepSpec R G Qa w0 s ->
  (forall a w, Qa (Returns a) w -> TaskSpec R G Qb (k a) w) ->
  (forall e w, Qa (Throws e) w -> Qb (Throws e) w) ->
  forall wp, G wp w0 ->
    G wp (snd (bindStep s k w0))
    /\ StepSpec R G Qb (snd (bindStep s k w0)) (fst (bindStep s k w0)).
Proof.
  intros H Hk He. induction H as [w0 [a | e] Ho | w0 resume Hg Hs IH]; intros wp Hp;
    cbn [bindStep fst snd].
  - destruct (Hk a w0 (Ho w0 (preorder_refl _ R_pre w0))) as [Hg1 Hs1].
    split; [exact (preorder_trans _ G_pre _ _ _ Hp Hg1) | exact Hs1].
  - split; [exact Hp | ]. constructor. auto.
  - split; [exact Hp | ]. constructor.
    + intros w Hw. specialize (IH w Hw w (Hg w Hw)).
      destruct (resume w) as [s' w2]. cbn [fst snd] in *. apply IH.
    + intros w Hw. specialize (IH w Hw w (Hg w Hw)).
      destruct (resume w) as [s' w2]. cbn [fst snd] in *. apply IH.
Qed.

Lemma spec_bindT (Qa : Outcome A -> World -> Prop) (Qb : Outcome B -> World -> Prop)
    (t : Task A) (k : A -> Task B) w :
  TaskSpec R G Qa t w ->
  (forall a w, Qa (Returns a) w -> TaskSpec R G Qb (k a) w) ->
  (forall e w, Qa (Throws e) w -> Qb (Throws e) w) ->
  TaskSpec R G Qb (bindT t k) w.
Proof.
  intros [Hg Hs] Hk He. unfold TaskSpec, bindT.
  destruct (t w) as [s w1]. cbn [fst snd] in *.
  now apply (spec_bindStep Qa).
Qed.

End Bind.

Lemma both_settled_settled {A B} (oa : Outcome A) (ob : Outcome B) order oldest w :
  both (Settled oa) (Settled ob) order oldest w = ((oa, ob), w).
Proof. reflexivity. Qed.

Lemma both_settled_awaiting {A B} (oa : Outcome A) (rb : World -> Step B * World)
    order oldest w :
  both (Settled oa) (Awaiting rb) order oldest w
  = both (Settled oa) (fst (rb w)) order oldest (snd (rb w)).
Proof. cbn. now destruct (rb w). Qed.

Lemma both_awaiting_settled {A B} (ra : World -> Step A * World) (ob : Outcome B)
    order oldest w :
  both (Awaiting ra) (Settled ob) order oldest w
  = both (fst (ra w)) (Settled ob) order oldest (snd (ra w)).
Proof. cbn. now destruct (ra w). Qed.

Lemma both_awaiting_awaiting {A B} (ra : World -> Step A * World)
    (rb : World -> Step B * World) order oldest w :
  both (Awaiting ra) (Awaiting rb) order oldest w
  = match hd oldest order with
    | former => both (fst (ra w)) (Awaiting rb) (tl order) latter (snd (ra w))
    | latter => both (Awaiting ra) (fst (rb w)) (tl order) former (snd (rb w))
    end.
Proof. cbn. destruct (hd oldest order); [now destruct (ra w) | now destruct (rb w)]. Qed.

Section Both.

Context {A B : Type}.
Variables Ga Gb T : World -> World -> Prop.
Variable Qa : Outcome A -> World -> Prop.
Variable Qb : Outcome B -> World -> Prop.
Hypothesis Ga_pre : Preorder Ga.
Hypothesis Gb_pre : Preorder Gb.
Hypothesis T_pre : Preorder T.
Hypothesis Ga_T : forall w w', Ga w w' -> T w w'.
Hypothesis Gb_T : forall w w', Gb w w' -> T w w'.

(** Two tasks of which each keeps what the other relies on: both settle,
    and what each has reached still holds at the end. *)
Lemma both_spec sa wa :
  StepSpec Gb Ga Qa wa sa ->
  forall sb wb, StepSpec Ga Gb Qb wb sb ->
  forall order oldest w, Gb wa w -> Ga wb w ->
  exists oa ob w',
    both sa sb order oldest w = ((oa, ob), w')
    /\ Qa oa w' /\ Qb ob w' /\ T w w'.
Proof.
  intros Ha. induction Ha as [wa oa Hoa | wa ra Hga Hsa IHa];
    intros sb wb Hb; induction Hb as [wb ob Hob | wb rb Hgb Hsb IHb];
    intros order oldest w Hwa Hwb.
  - exists oa, ob, w. rewrite both_settled_settled.
    repeat split; auto. apply (preorder_refl _ T_pre).
  - rewrite both_settled_awaiting.
    pose proof (Hgb w Hwb) as Hstep.
    destruct (IHb w Hwb order oldest (snd (rb w))) as (oa' & ob' & w' & E & H1 & H2 & H3).
    + exact (preorder_trans _ Gb_pre _ _ _ Hwa Hstep).
    + apply (preorder_refl _ Ga_pre).
    + exists oa', ob', w'. repeat split; auto.
      exact (preorder_trans _ T_pre _ _ _ (Gb_T _ _ Hstep) H3).
  - rewrite both_awaiting_settled.
    pose proof (Hga w Hwa) as Hstep.
    destruct (IHa w Hwa (Settled ob) wb (spec_settled _ _ _ wb ob Hob) order oldest
                (snd (ra w))) as (oa' & ob' & w' & E & H1 & H2 & H3).
    + apply (preorder_refl _ Gb_pre).
    + exact (preorder_trans _ Ga_pre _ _ _ Hwb Hstep).
    + exists oa', ob', w'. repeat split; auto.
      exact (preorder_trans _ T_pre _ _ _ (Ga_T _ _ Hstep) H3).
  - rewrite both_awaiting_awaiting. destruct (hd oldest order).
    + pose proof (Hga w Hwa) as Hstep.
      destruct (IHa w Hwa (Awaiting rb) wb (spec_awaiting _ _ _ wb rb Hgb Hsb)
                  (tl order) latter (snd (ra w))) as (oa' & ob' & w' & E & H1 & H2 & H3).
      * apply (preorder_refl _ Gb_pre).
      * exact (preorder_trans _ Ga_pre _ _ _ Hwb Hstep).
      * exists oa', ob', w'. repeat split; auto.
        exact (preorder_trans _ T_pre _ _ _ (Ga_T _ _ Hstep) H3).
    + pose proof (Hgb w Hwb) as Hstep.
      destruct (IHb w Hwb (tl order) former (snd (rb w)))
        as (oa' & ob' & w' & E & H1 & H2 & H3).
      * exact (preorder_trans _ Gb_pre _ _ _ Hwa Hstep).
      * apply (preorder_refl _ Ga_pre).
      * exists oa', ob', w'. repeat split; auto.
        exact (preorder_trans _ T_pre _ _ _ (Gb_T _ _ Hstep) H3).
Qed.

(** [Promise.all] on two such tasks that never reject. *)
Lemma promiseAll_spec (a : Task A) (b : Task B) order w :
  TaskSpec Gb Ga Qa a w ->
  (forall w1, Ga w w1 -> TaskSpec Ga Gb Qb b w1) ->
  (forall e w', ~ Qa (Throws e) w') ->
  (forall e w', ~ Qb (Throws e) w') ->
  exists x y,
    run (promiseAll order a b) w = Returns (x, y)
    /\ Qa (Returns x) (after (promiseAll order a b) w)
    /\ Qb (Returns y) (after (promiseAll order a b) w)
    /\ T w (after (promiseAll order a b) w).
Proof.
  intros [Hga Hsa] Hb Hna Hnb. unfold run, after, promiseAll.
  destruct (a w) as [sa w1]. cbn [fst snd] in *.
  destruct (Hb w1 Hga) as [Hgb Hsb].
  destruct (b w1) as [sb w2]. cbn [fst snd] in *.
  destruct (both_spec sa w1 Hsa sb w2 Hsb order former w2 Hgb (preorder_refl _ Ga_pre w2))
    as (oa & ob & w' & E & H1 & H2 & H3).
  rewrite E. destruct oa as [x | e]; [ | now apply Hna in H1].
  destruct ob as [y | e]; [ | now apply Hnb in H2].
  exists x, y. cbn [fst snd]. repeat split; auto.
  apply (preorder_trans _ T_pre _ w1); [now apply Ga_T | ].
  apply (preorder_trans _ T_pre _ w2); [now apply Gb_T | exact H3].
Qed.

End Both.

(** ** The two caches side by side, step by step *)

Lemma fixedPath_sameHost k w0 w : sameHost w0 w -> fixedPath k w = fixedPath k w0.
Proof. intros [Ho Hd]. unfold fixedPath. now rewrite Ho, Hd. Qed.

Lemma diskOnly_sameHost w0 w w' : sameHost w0 w -> diskOnly w w' -> sameHost w0 w'.
Proof. intros [Ho Hd] (_ & Ho' & Hd' & _). split; congruence. Qed.

Lemma apartFrom_preorder k : Preorder (apartFrom k).
Proof.
  split.
  - intros w. split; [apply diskOnly_refl | reflexivity].
  - intros w1 w2 w3 [H1 F1] [H2 F2]. split; [exact (diskOnly_trans _ _ _ H1 H2) | ].
    assert (E : fixedPath k w2 = fixedPath k w1).
    { apply fixedPath_sameHost. apply (diskOnly_sameHost w1 w1 w2); [now split | exact H1]. }
    rewrite E in F2. congruence.
Qed.

Lemma apartFrom_diskOnly k w w' : apartFrom k w w' -> diskOnly w w'.
Proof. now intros [H _]. Qed.

Section Standing.

Variable careful : bool.
Variable k : Kind.
Variable w0 : World.

(** What a task knows where it stands, it still knows after steps of the
    other cache. *)
Lemma standing_stable {A} (P : Outcome A -> option Node -> Prop) o w w' :
  standing careful k w0 P o w -> apartFrom k w w' -> standing careful k w0 P o w'.
Proof.
  intros (Hh & Hc & HP) [Hd Hf]. split; [exact (diskOnly_sameHost _ _ _ Hh Hd) | ].
  split.
  - intros Hcare. destruct Hd as (_ & _ & _ & _ & _ & Hn & _). auto.
  - rewrite (fixedPath_sameHost k w0 w Hh) in Hf. now rewrite Hf.
Qed.

(** A step of the task: it is a step of the file system apart from the
    path of the other kind, and what the task then knows is [P]. *)
Lemma standing_step {A} (suspends : bool) (m : M A)
    (P : Outcome A -> option Node -> Prop) w :
  sameHost w0 w ->
  (careful = true -> noRejection w) ->
  apartFrom (otherKind k) w (snd (m w)) ->
  P (fst (m w)) (files (snd (m w)) !! fixedPath k w0) ->
  TaskSpec (apartFrom k) (apartFrom (otherKind k)) (standing careful k w0 P)
    (if suspends then await m else sync m) w.
Proof.
  intros Hh Hc Hg HP.
  assert (Hs : standing careful k w0 P (fst (m w)) (snd (m w))).
  { split; [exact (diskOnly_sameHost _ _ _ Hh (apartFrom_diskOnly _ _ _ Hg)) | ].
    split; [ | exact HP].
    intros Hcare. destruct Hg as [(_ & _ & _ & _ & _ & Hn & _) _]. auto. }
  destruct suspends.
  - apply (spec_await _ _ (apartFrom_preorder k) (apartFrom_preorder (otherKind k)));
      [exact Hg | ].
    intros w' Hw'. exact (standing_stable P _ _ _ Hs Hw').
  - apply spec_sync; [exact Hg | ].
    intros w' Hw'. exact (standing_stable P _ _ _ Hs Hw').
Qed.

End Standing.

(** The calls of the file system, as steps apart from a path. *)
Lemma getInfoAsync_apart k p w : apartFrom k w (snd (getInfoAsync p w)).
Proof.
  split; [apply getInfoAsync_diskOnly | ].
  unfold getInfoAsync, hostCall. cbn. now case_match.
Qed.

Lemma makeDirectoryAsync_apart k p w :
  p <> fixedPath k w -> apartFrom k w (snd (makeDirectoryAsync p w)).
Proof.
  intros Hp. split; [apply makeDirectoryAsync_diskOnly | ].
  unfold makeDirectoryAsync, hostCall. cbn. case_match; cbn; [reflexivity | ].
  now rewrite lookup_insert_ne.
Qed.

Lemma deleteAsync_apart k p w :
  p <> fixedPath k w -> apartFrom k w (snd (deleteAsync p w)).
Proof.
  intros Hp. split; [apply deleteAsync_diskOnly | ].
  unfold deleteAsync, hostCall. cbn. case_match; cbn; [reflexivity | ].
  now rewrite lookup_delete_ne.
Qed.

Lemma writeAsStringAsync_apart k p data w :
  p <> fixedPath k w -> apartFrom k w (snd (writeAsStringAsync p data w)).
Proof.
  intros Hp. split; [apply writeAsStringAsync_diskOnly | ].
  unfold writeAsStringAsync, hostCall. cbn. repeat case_match; cbn; try reflexivity.
  now rewrite lookup_insert_ne.
Qed.

Lemma downloadAsync_apart k url p w :
  p <> fixedPath k w -> apartFrom k w (snd (downloadAsync url p w)).
Proof.
  intros Hp. split; [apply downloadAsync_diskOnly | ].
  unfold downloadAsync, hostCall. cbn. repeat case_match; cbn; try reflexivity.
  now rewrite lookup_insert_ne.
Qed.

Lemma console_error_apart k label e w : apartFrom k w (snd (console_error label e w)).
Proof. split; [apply console_error_diskOnly | reflexivity]. Qed.

Lemma apartFrom_refl k w : apartFrom k w w.
Proof. apply (preorder_refl _ (apartFrom_preorder k)). Qed.

Section CacheTasks.

Variable careful : bool.
Variable k : Kind.
Variable w0 : World.

Lemma standing_bind {A B} (P : Outcome A -> option Node -> Prop)
    (Pb : Outcome B -> option Node -> Prop) (t : Task A) (kont : A -> Task B) w :
  TaskSpec (apartFrom k) (apartFrom (otherKind k)) (standing careful k w0 P) t w ->
  (forall a w1,
      sameHost w0 w1 -> (careful = true -> noRejection w1) ->
      P (Returns a) (files w1 !! fixedPath k w0) ->
      TaskSpec (apartFrom k) (apartFrom (otherKind k)) (standing careful k w0 Pb)
        (kont a) w1) ->
  (forall e f, P (Throws e) f -> Pb (Throws e) f) ->
  TaskSpec (apartFrom k) (apartFrom (otherKind k)) (standing careful k w0 Pb)
    (bindT t kont) w.
Proof.
  intros Ht Hk He.
  apply (spec_bindT _ _ (apartFrom_preorder k) (apartFrom_preorder (otherKind k))
           (standing careful k w0 P)); [exact Ht | | ].
  - intros a w1 (Hh & Hc & HP). now apply Hk.
  - intros e w1 (Hh & Hc & HP). repeat split; auto; apply Hh.
Qed.

Lemma standing_tryCatch {A} (P Pb : Outcome A -> option Node -> Prop)
    (body : Task A) (handler : string -> Task A) w :
  TaskSpec (apartFrom k) (apartFrom (otherKind k)) (standing careful k w0 P) body w ->
  (forall a f, P (Returns a) f -> Pb (Returns a) f) ->
  (forall e w1,
      sameHost w0 w1 -> (careful = true -> noRejection w1) ->
      P (Throws e) (files w1 !! fixedPath k w0) ->
      TaskSpec (apartFrom k) (apartFrom (otherKind k)) (standing careful k w0 Pb)
        (handler e) w1) ->
  TaskSpec (apartFrom k) (apartFrom (otherKind k)) (standing careful k w0 Pb)
    (tryCatchT body handler) w.
Proof.
  intros Ht Hr Hh.
  apply (spec_tryCatchT _ _ (apartFrom_preorder k) (apartFrom_preorder (otherKind k))
           (standing careful k w0 P)); [exact Ht | | ].
  - intros a w1 (H1 & H2 & H3). repeat split; auto; apply H1.
  - intros e w1 (H1 & H2 & H3). now apply Hh.
Qed.

End CacheTasks.

(** The path of a cache is not the path of the other, nor its
    directory. *)
Ltac other_path Hh :=
  rewrite (fixedPath_sameHost _ _ _ Hh);
  let H1 := fresh in let H2 := fresh in let H3 := fresh in
  match goal with
  | |- _ <> fixedPath _ ?w0 =>
      destruct (cache_paths_differ (PlatformOS w0) (documentDirectory w0)) as (H1 & H2 & H3)
  end;
  unfold fixedPath, otherKind; congruence.

(** A step of a cache of which nothing is to be known but where it
    leaves the path of the other. *)
Ltac apart_side Hh :=
  first
    [ apply getInfoAsync_apart
    | apply makeDirectoryAsync_apart; other_path Hh
    | apply deleteAsync_apart; other_path Hh
    | apply writeAsStringAsync_apart; other_path Hh
    | apply downloadAsync_apart; other_path Hh
    | apply console_error_apart
    | apply apartFrom_refl ].

Ltac apart_task :=
  repeat match goal with
    | |- TaskSpec _ _ _ (if ?c then _ else _) _ => destruct c
    | |- TaskSpec _ _ _ (match ?x with _ => _ end) _ => destruct x
    | |- TaskSpec _ _ _ (retT _) _ => unfold retT
    | |- TaskSpec _ _ _ (throwT _) _ => unfold throwT
    | Hh : sameHost ?w0 ?w, Hc : ?c = true -> noRejection ?w
      |- TaskSpec _ _ (standing ?c ?k ?w0 (fun _ _ => True)) (await ?m) ?w =>
        apply (standing_step c k w0 true m (fun _ _ => True) w Hh Hc); [apart_side Hh | exact I]
    | Hh : sameHost ?w0 ?w, Hc : ?c = true -> noRejection ?w
      |- TaskSpec _ _ (standing ?c ?k ?w0 (fun _ _ => True)) (sync ?m) ?w =>
        apply (standing_step c k w0 false m (fun _ _ => True) w Hh Hc); [apart_side Hh | exact I]
    | |- TaskSpec _ _ (standing ?c ?k ?w0 (fun _ _ => True)) (bindT _ _) ?w =>
        apply (standing_bind c k w0 (fun _ _ => True) (fun _ _ => True));
        [ | let Hh := fresh "Hh" in let Hc := fresh "Hc" in intros ? ? Hh Hc _
          | intros ? ? _; exact I ]
    end.

(** A step that reads the host: the platform or a path. *)
Ltac host_step Hh Hc value :=
  match goal with
  | |- TaskSpec _ _ (standing ?c ?k ?w0 ?Pb) (bindT (sync ?m) _) ?w =>
      apply (standing_bind c k w0 (fun o _ => o = Returns value) Pb);
      [ apply (standing_step c k w0 false m (fun o _ => o = Returns value) w Hh Hc);
        [ apply apartFrom_refl
        | let Ho := fresh in let Hd := fresh in
          cbn; destruct Hh as [Ho Hd]; rewrite ?Ho, ?Hd; reflexivity ]
      | let a := fresh "a" in let E := fresh "E" in
        clear Hh Hc; intros a ? Hh Hc E; injection E as ->
      | intros ? ? E; discriminate E ]
  end.

Lemma ensureSoundsDirectoryExists_apart careful w0 w :
  sameHost w0 w -> (careful = true -> noRejection w) ->
  TaskSpec (apartFrom notificationSound) (apartFrom playbackAudio)
    (standing careful notificationSound w0 (fun _ _ => True))
    Concurrent.ensureSoundsDirectoryExists w.
Proof.
  intros Hh Hc. unfold Concurrent.ensureSoundsDirectoryExists.
  change playbackAudio with (otherKind notificationSound).
  host_step Hh Hc (PlatformOS w0).
  destruct (isWeb (PlatformOS w0)); [apart_task | ].
  host_step Hh Hc (NotificationSound.librarySoundsPath (PlatformOS w0) (documentDirectory w0)).
  apart_task.
Qed.

Lemma ensureDirectoryExists_apart careful w0 w :
  sameHost w0 w -> (careful = true -> noRejection w) ->
  TaskSpec (apartFrom playbackAudio) (apartFrom notificationSound)
    (standing careful playbackAudio w0 (fun _ _ => True))
    Concurrent.ensureDirectoryExists w.
Proof.
  intros Hh Hc. unfold Concurrent.ensureDirectoryExists.
  change notificationSound with (otherKind playbackAudio).
  host_step Hh Hc (PlatformOS w0).
  destruct (isWeb (PlatformOS w0)); [apart_task | ].
  host_step Hh Hc (AudioStorage.audioDirectoryPath (documentDirectory w0)).
  apart_task.
Qed.

(** The save of the playback audio beside the other cache: it settles
    with a result. *)
Lemma saveAudioLocally_apart url w0 w :
  sameHost w0 w ->
  TaskSpec (apartFrom playbackAudio) (apartFrom notificationSound)
    (standing false playbackAudio w0 (fun o _ => exists r, o = Returns r))
    (Concurrent.saveAudioLocally url) w.
Proof.
  intros Hh.
  assert (Hc : false = true -> noRejection w) by discriminate.
  unfold Concurrent.saveAudioLocally.
  change notificationSound with (otherKind playbackAudio).
  host_step Hh Hc (PlatformOS w0).
  destruct (isWeb (PlatformOS w0)).
  { apply (standing_step false playbackAudio w0 false); auto;
      [apply apartFrom_refl | eexists; reflexivity]. }
  apply (standing_tryCatch false playbackAudio w0 (fun _ _ => True)).
  - apply (standing_bind _ _ _ (fun _ _ => True));
      [now apply ensureDirectoryExists_apart | clear Hh Hc; intros _ ? Hh Hc _ | auto].
    host_step Hh Hc (AudioStorage.audioFilePath (documentDirectory w0)).
    apart_task.
  - intros a f _. eexists. reflexivity.
  - clear Hh Hc. intros e ? Hh Hc _.
    apply (standing_bind _ _ _ (fun o _ => exists r, o = Returns r)).
    + apply (standing_step false playbackAudio w0 false); auto;
        [apply console_error_apart | eexists; reflexivity].
    + clear Hh Hc. intros _ ? Hh Hc _.
      apply (standing_step false playbackAudio w0 false); auto;
        [apply apartFrom_refl | eexists; reflexivity].
    + intros e' f [r E]. discriminate E.
Qed.

(** The save of the notification sound beside the other cache: it
    settles with a result, and when the result is the name of the sound,
    the file is at its path, also after further steps of the other
    cache. *)
Lemma saveNotificationSound_apart url w0 w :
  sameHost w0 w ->
  TaskSpec (apartFrom notificationSound) (apartFrom playbackAudio)
    (standing false notificationSound w0
       (fun o f => exists r, o = Returns r
                   /\ (r = None
                       \/ r = Some NotificationSound.NOTIFICATION_SOUND_FILENAME
                          /\ f <> None)))
    (Concurrent.saveNotificationSound url) w.
Proof.
  intros Hh.
  assert (Hc : false = true -> noRejection w) by discriminate.
  unfold Concurrent.saveNotificationSound.
  change playbackAudio with (otherKind notificationSound).
  host_step Hh Hc (PlatformOS w0).
  destruct (isWeb (PlatformOS w0)).
  { apply (standing_step false notificationSound w0 false); auto;
      [apply apartFrom_refl | eexists; split; [reflexivity | now left]]. }
  apply (standing_tryCatch false notificationSound w0
           (fun o f => forall r, o = Returns r ->
                       r = Some NotificationSound.NOTIFICATION_SOUND_FILENAME /\ f <> None)).
  - apply (standing_bind _ _ _ (fun _ _ => True));
      [now apply ensureSoundsDirectoryExists_apart | clear Hh Hc; intros _ ? Hh Hc _
       | intros e f _ r E; discriminate E].
    host_step Hh Hc (NotificationSound.notificationSoundPath (PlatformOS w0)
                       (documentDirectory w0)).
    apply (standing_bind _ _ _ (fun _ _ => True));
      [apart_task | clear Hh Hc; intros existing ? Hh Hc _ | intros e f _ r E; discriminate E].
    apply (standing_bind _ _ _ (fun _ _ => True));
      [apart_task | clear Hh Hc; intros _ ? Hh Hc _ | intros e f _ r E; discriminate E].
    apply (standing_bind _ _ _ (fun _ _ => True));
      [apart_task | clear Hh Hc; intros _ ? Hh Hc _ | intros e f _ r E; discriminate E].
    apply (standing_bind _ _ _ (fun o f => forall b, o = Returns b -> b = true -> f <> None)).
    + apply (standing_step false notificationSound w0 true); auto;
        [apply getInfoAsync_apart | ].
      unfold getInfoAsync, hostCall. cbn. case_match; cbn; intros b E Hb; [discriminate E | ].
      injection E as <-. change (fixedPath notificationSound w0)
        with (NotificationSound.notificationSoundPath (PlatformOS w0) (documentDirectory w0)).
      now case_match.
    + clear Hh Hc. intros saved ? Hh Hc Hf. destruct saved; cbn [negb].
      * apply (standing_step false notificationSound w0 false); auto;
          [apply apartFrom_refl | ].
        intros r [= <-]. split; [reflexivity | now apply (Hf true)].
      * apply (standing_step false notificationSound w0 false); auto;
          [apply apartFrom_refl | intros r E; discriminate E].
    + intros e f _ r E. discriminate E.
  - intros a f H. exists a. split; [reflexivity | ]. right. now apply H.
  - clear Hh Hc. intros e ? Hh Hc _.
    apply (standing_bind _ _ _ (fun o _ => exists r, o = Returns r)).
    + apply (standing_step false notificationSound w0 false); auto;
        [apply console_error_apart | eexists; reflexivity].
    + clear Hh Hc. intros _ ? Hh Hc _.
      apply (standing_step false notificationSound w0 false); auto;
        [apply apartFrom_refl | eexists; split; [reflexivity | now left]].
    + intros e' f [r E]. discriminate E.
Qed.


(** The deletions beside the other cache, with a host that rejects no
    call: each settles and leaves nothing at its own path, also after
    further steps of the other cache. *)
Ltac delete_task Hos Hh Hc :=
  match goal with
  | |- TaskSpec _ _ (standing _ ?k ?w0 _) _ _ =>
      host_step Hh Hc (PlatformOS w0);
      destruct (isWeb (PlatformOS w0)) eqn:Hweb;
        [exfalso; destruct (PlatformOS w0); (discriminate Hweb || now apply Hos) | ];
      apply (standing_tryCatch true k w0 (fun o f => o = Returns tt /\ f = None));
        [ | auto | intros e ? _ _ [E _]; discriminate E];
      host_step Hh Hc (fixedPath k w0);
      apply (standing_bind _ _ _
               (fun o f => exists b, o = Returns b /\ (b = false -> f = None)));
        [ apply (standing_step true k w0 true); try assumption; [apply getInfoAsync_apart | ];
          unfold getInfoAsync, hostCall; cbn;
          (let X := fresh in pose proof (noRejection_nth _ 0 (Hc eq_refl)) as X; cbn in X; rewrite X); cbn;
          eexists; split; [reflexivity | ]; now case_match
        | clear Hh Hc; intros fileInfo ? Hh Hc (b & E & Hb); injection E as <-;
          destruct fileInfo;
            [ apply (standing_step true k w0 true); try assumption;
                [apply deleteAsync_apart; other_path Hh | ];
              unfold deleteAsync, hostCall; cbn;
              (let X := fresh in pose proof (noRejection_nth _ 0 (Hc eq_refl)) as X; cbn in X; rewrite X); cbn;
              split; [reflexivity | apply lookup_delete_eq]
            | apply (standing_step true k w0 false); try assumption;
                [apply apartFrom_refl | split; [reflexivity | now apply Hb]] ]
        | intros e f (b & E & _); discriminate E ]
  end.

Lemma deleteLocalAudio_apart w0 w :
  PlatformOS w0 <> web -> sameHost w0 w -> noRejection w ->
  TaskSpec (apartFrom playbackAudio) (apartFrom notificationSound)
    (standing true playbackAudio w0 (fun o f => o = Returns tt /\ f = None))
    Concurrent.deleteLocalAudio w.
Proof.
  intros Hos Hh Hn. assert (Hc : true = true -> noRejection w) by auto.
  unfold Concurrent.deleteLocalAudio.
  change notificationSound with (otherKind playbackAudio).
  delete_task Hos Hh Hc.
Qed.

Lemma deleteNotificationSound_apart w0 w :
  PlatformOS w0 <> web -> sameHost w0 w -> noRejection w ->
  TaskSpec (apartFrom notificationSound) (apartFrom playbackAudio)
    (standing true notificationSound w0 (fun o f => o = Returns tt /\ f = None))
    Concurrent.deleteNotificationSound w.
Proof.
  intros Hos Hh Hn. assert (Hc : true = true -> noRejection w) by auto.
  unfold Concurrent.deleteNotificationSound.
  change playbackAudio with (otherKind notificationSound).
  delete_task Hos Hh Hc.
Qed.

(** ** The removals side by side *)

Lemma diskOnly_preorder : Preorder diskOnly.
Proof. split; [apply diskOnly_refl | apply diskOnly_trans]. Qed.

(** The steps of a task of the media cache: each is a step of the file
    system, and the task settles with a result. *)
Ltac disk_task :=
  repeat first
    [ match goal with
      | |- TaskSpec _ _ _ (if ?c then _ else _) _ => destruct c
      | |- TaskSpec _ _ _ (match ?x with _ => _ end) _ => destruct x
      | |- TaskSpec _ _ ?Q (tryCatchT _ _) _ =>
          apply (spec_tryCatchT diskOnly diskOnly diskOnly_preorder diskOnly_preorder
                   (fun _ _ => True) Q);
          [ | intros ? ? _; eexists; reflexivity | intros ? ? _ ]
      | |- TaskSpec _ _ ?Q (bindT (sync _) _) _ =>
          apply (spec_bindT diskOnly diskOnly diskOnly_preorder diskOnly_preorder
                   (fun o _ => exists r, o = Returns r) Q);
          [ | intros ? ? _ | intros ? ? [? ?]; discriminate ]
      | |- TaskSpec _ _ (fun _ _ => True) (bindT _ _) _ =>
          apply (spec_bindT diskOnly diskOnly diskOnly_preorder diskOnly_preorder
                   (fun _ _ => True) (fun _ _ => True));
          [ | intros ? ? _ | intros ? ? _; exact I ]
      | |- TaskSpec _ _ _ (sync _) _ =>
          apply (spec_sync diskOnly diskOnly);
          [ | intros ? _; first [exact I | eexists; reflexivity] ]
      | |- TaskSpec _ _ _ (await _) _ =>
          apply (spec_await diskOnly diskOnly diskOnly_preorder diskOnly_preorder);
          [ | intros ? _; first [exact I | eexists; reflexivity] ]
      | |- TaskSpec _ _ _ (retT _) _ => unfold retT
      | |- TaskSpec _ _ _ (throwT _) _ => unfold throwT
      end
    | apply getInfoAsync_diskOnly | apply makeDirectoryAsync_diskOnly
    | apply deleteAsync_diskOnly | apply writeAsStringAsync_diskOnly
    | apply downloadAsync_diskOnly | apply console_error_diskOnly
    | apply Platform_OS_diskOnly
    | apply diskOnly_refl ].

Lemma deleteLocalAudio_task w :
  TaskSpec diskOnly diskOnly (fun o _ => exists r, o = Returns r)
    Concurrent.deleteLocalAudio w.
Proof. unfold Concurrent.deleteLocalAudio. disk_task. Qed.

Lemma deleteNotificationSound_task w :
  TaskSpec diskOnly diskOnly (fun o _ => exists r, o = Returns r)
    Concurrent.deleteNotificationSound w.
Proof. unfold Concurrent.deleteNotificationSound. disk_task. Qed.

(** Two tasks of the media cache side by side, in every order: both
    settle with a result, and together they have taken steps of the file
    system only. *)
Lemma promiseAll_diskOnly {A B} (a : Task A) (b : Task B) order w :
  (forall w, TaskSpec diskOnly diskOnly (fun o _ => exists r, o = Returns r) a w) ->
  (forall w, TaskSpec diskOnly diskOnly (fun o _ => exists r, o = Returns r) b w) ->
  (exists x y, run (promiseAll order a b) w = Returns (x, y))
  /\ diskOnly w (after (promiseAll order a b) w).
Proof.
  intros Ha Hb.
  destruct (promiseAll_spec diskOnly diskOnly diskOnly _ _
              diskOnly_preorder diskOnly_preorder diskOnly_preorder
              (fun _ _ H => H) (fun _ _ H => H) a b order w (Ha w) (fun w1 _ => Hb w1))
    as (x & y & Hr & _ & _ & Hd).
  - intros e w' [r H]. discriminate H.
  - intros e w' [r H]. discriminate H.
  - split; [eauto | exact Hd].
Qed.

(** ** [Promise.all] of the two saves and of the two removals *)

(** The two saves side by side, in every order: both settle with a
    result, together they have taken steps of the file system only, and
    when the save of the notification sound returns a name, it is that of
    the cached sound and the file is at its path, whatever the save of
    the playback audio did meanwhile. *)
Lemma saveBoth_settles order url w :
  let w' := after (Playback.saveBoth order url) w in
  exists path sound,
    run (Playback.saveBoth order url) w = Returns (path, sound)
    /\ diskOnly w w'
    /\ (sound = None
        \/ sound = Some NotificationSound.NOTIFICATION_SOUND_FILENAME
           /\ present (fixedPath notificationSound w) w' = true).
Proof.
  intros w'. subst w'. unfold Playback.saveBoth.
  destruct (promiseAll_spec (apartFrom notificationSound) (apartFrom playbackAudio) diskOnly
              (standing false playbackAudio w (fun o _ => exists r, o = Returns r))
              (standing false notificationSound w
                 (fun o f => exists r, o = Returns r
                             /\ (r = None
                                 \/ r = Some NotificationSound.NOTIFICATION_SOUND_FILENAME
                                    /\ f <> None)))
              (apartFrom_preorder _) (apartFrom_preorder _) diskOnly_preorder
              (apartFrom_diskOnly _) (apartFrom_diskOnly _)
              (Concurrent.saveAudioLocally url) (Concurrent.saveNotificationSound url) order w)
    as (x & y & Hr & _ & (_ & _ & r & E & Hs) & Hd).
  - apply saveAudioLocally_apart. now split.
  - intros w1 H1. apply saveNotificationSound_apart.
    apply (diskOnly_sameHost w w w1); [now split | apply H1].
  - intros e w' (_ & _ & r & E). discriminate E.
  - intros e w' (_ & _ & r & E & _). discriminate E.
  - exists x, y. split; [exact Hr | ]. split; [exact Hd | ].
    injection E as <-. destruct Hs as [-> | [-> Hf]]; [now left | right].
    split; [reflexivity | ]. unfold present. now case_match.
Qed.

(** On a phone with an empty disk, when the host settles the calls in
    the order it received them, the two saves take turns: the second
    answer of the host goes to the save of the notification sound. On
    [audioRefused] the result depends on the order: the rejection goes to
    the playback audio in the order of arrival, and to the notification
    sound when the host settles the calls of that save first. *)
Lemma saves_take_turns :
  calls morning (after (Playback.saveBoth [] "https://example.org/morning.mp3") morning)
  = [GetInfo "file:///var/app/Documents/morning-audio/";
     GetInfo "file:///var/app/Documents/sounds/";
     MakeDirectory "file:///var/app/Documents/morning-audio/";
     MakeDirectory "file:///var/app/Documents/sounds/";
     GetInfo "file:///var/app/Documents/morning-audio/morning-alarm.mp3";
     GetInfo "file:///var/app/Documents/sounds/morning-alarm-notification.wav";
     Download "https://example.org/morning.mp3"
       "file:///var/app/Documents/morning-audio/morning-alarm.mp3";
     Download "https://example.org/morning.mp3"
       "file:///var/app/Documents/sounds/morning-alarm-notification.wav";
     GetInfo "file:///var/app/Documents/sounds/morning-alarm-notification.wav"]
  /\ run (Playback.saveBoth [] "https://example.org/morning.mp3") audioRefused
     = Returns (None, Some "morning-alarm-notification.wav")
  /\ run (Playback.saveBoth [latter; latter; latter; latter]
            "https://example.org/morning.mp3") audioRefused
     = Returns (Some "file:///var/app/Documents/morning-audio/morning-alarm.mp3", None).
Proof. repeat split; vm_compute; reflexivity. Qed.

(** The two removals side by side, in every order: both settle, whatever
    the host answers. *)
Lemma removeBoth_settles order w :
  run (Playback.removeBoth order) w = Returns (tt, tt)
  /\ diskOnly w (after (Playback.removeBoth order) w).
Proof.
  unfold Playback.removeBoth.
  destruct (promiseAll_diskOnly Concurrent.deleteLocalAudio Concurrent.deleteNotificationSound
              order w deleteLocalAudio_task deleteNotificationSound_task)
    as [([] & [] & Hr) Hd].
  now split.
Qed.

(** With a host that rejects no call, nothing is left at either path. *)
Lemma removeBoth_cleans order w k :
  PlatformOS w <> web -> noRejection w ->
  present (fixedPath k w) (after (Playback.removeBoth order) w) = false.
Proof.
  intros Hos Hn. unfold Playback.removeBoth.
  destruct (promiseAll_spec (apartFrom notificationSound) (apartFrom playbackAudio) diskOnly
              (standing true playbackAudio w (fun o f => o = Returns tt /\ f = None))
              (standing true notificationSound w (fun o f => o = Returns tt /\ f = None))
              (apartFrom_preorder _) (apartFrom_preorder _) diskOnly_preorder
              (apartFrom_diskOnly _) (apartFrom_diskOnly _)
              Concurrent.deleteLocalAudio Concurrent.deleteNotificationSound order w)
    as (x & y & _ & (_ & _ & _ & Ha) & (_ & _ & _ & Hb) & _).
  - apply deleteLocalAudio_apart; [exact Hos | now split | exact Hn].
  - intros w1 H1. destruct H1 as [Hd _].
    apply deleteNotificationSound_apart;
      [exact Hos | apply (diskOnly_sameHost w w w1); [now split | exact Hd] | ].
    destruct Hd as (_ & _ & _ & _ & _ & Hn1 & _). auto.
  - intros e w' (_ & _ & E & _). discriminate E.
  - intros e w' (_ & _ & E & _). discriminate E.
  - unfold present. destruct k; [now rewrite Ha | now rewrite Hb].
Qed.

(** ** The clock during the saves *)

Lemma clockKept_preorder : Preorder clockKept.
Proof.
  split; [now intros w | ].
  intros w1 w2 w3 (H1 & H2 & H3) (H4 & H5 & H6). repeat split; congruence.
Qed.

(** No step of the media cache reads the clock. *)
Ltac clock_step :=
  unfold getInfoAsync, makeDirectoryAsync, deleteAsync, writeAsStringAsync, downloadAsync,
    console_error, Platform_OS, AudioStorage.getAudioFilePath,
    AudioStorage.getAudioDirectoryPath, NotificationSound.getNotificationSoundPath,
    NotificationSound.getLibrarySoundsPath, hostCall, answered, modify, get, bind, ret, throw;
  cbn; repeat case_match; cbn; repeat split.

Ltac clock_task :=
  repeat match goal with
    | |- TaskSpec _ _ _ (if ?c then _ else _) _ => destruct c
    | |- TaskSpec _ _ _ (match ?x with _ => _ end) _ => destruct x
    | |- TaskSpec _ _ _ (retT _) _ => unfold retT
    | |- TaskSpec _ _ _ (throwT _) _ => unfold throwT
    | |- TaskSpec _ _ _ (tryCatchT _ _) _ =>
        apply (spec_tryCatchT clockKept clockKept clockKept_preorder clockKept_preorder
                 (fun _ _ => True) (fun _ _ => True));
        [ | intros; exact I | intros ? ? _ ]
    | |- TaskSpec _ _ _ (bindT _ _) _ =>
        apply (spec_bindT clockKept clockKept clockKept_preorder clockKept_preorder
                 (fun _ _ => True) (fun _ _ => True));
        [ | intros ? ? _ | intros; exact I ]
    | |- TaskSpec _ _ _ (sync _) _ =>
        apply (spec_sync clockKept clockKept); [clock_step | intros; exact I]
    | |- TaskSpec _ _ _ (await _) _ =>
        apply (spec_await clockKept clockKept clockKept_preorder clockKept_preorder);
        [clock_step | intros; exact I]
    end.

Lemma saveAudioLocally_clock url w :
  TaskSpec clockKept clockKept (fun _ _ => True) (Concurrent.saveAudioLocally url) w.
Proof.
  unfold Concurrent.saveAudioLocally, Concurrent.ensureDirectoryExists. clock_task.
Qed.

Lemma saveNotificationSound_clock url w :
  TaskSpec clockKept clockKept (fun _ _ => True) (Concurrent.saveNotificationSound url) w.
Proof.
  unfold Concurrent.saveNotificationSound, Concurrent.ensureSoundsDirectoryExists. clock_task.
Qed.

(** The two saves side by side leave the clock as it was: the readings
    that [scheduleAlarm] then makes are the next readings of the world
    the flow started in. *)
Lemma saveBoth_clock order url w :
  clockKept w (after (Playback.saveBoth order url) w).
Proof.
  unfold Playback.saveBoth, after, promiseAll.
  destruct (saveAudioLocally_clock url w) as [Ha Hsa].
  destruct (Concurrent.saveAudioLocally url w) as [sa w1]. cbn [fst snd] in *.
  destruct (saveNotificationSound_clock url w1) as [Hb Hsb].
  destruct (Concurrent.saveNotificationSound url w1) as [sb w2]. cbn [fst snd] in *.
  destruct (both_spec clockKept clockKept clockKept (fun _ _ => True) (fun _ _ => True)
              clockKept_preorder clockKept_preorder clockKept_preorder
              (fun _ _ H => H) (fun _ _ H => H)
              sa w1 Hsa sb w2 Hsb order former w2 Hb (preorder_refl _ clockKept_preorder w2))
    as (oa & ob & w' & E & _ & _ & H3).
  rewrite E. cbn [snd].
  apply (preorder_trans _ clockKept_preorder _ w1); [exact Ha | ].
  apply (preorder_trans _ clockKept_preorder _ w2); [exact Hb | exact H3].
Qed.

(** ** The flow of [handleScheduleAlarm] *)

(** The registration that a successful call makes, with its delay. *)
Lemma scheduleAlarm_last p w r t1 t2 t3 :
  let w' := after (AlarmScheduler.scheduleAlarm p) w in
  let alarmTime :=
    AlarmScheduler.nextAlarmTime (tza w) (AlarmScheduler.wakeUpTime p)
      (TimeClip (Some t1)) (TimeClip (Some t2)) in
  PlatformOS w <> web ->
  run (AlarmScheduler.scheduleAlarm p) w = Returns r ->
  success r = true ->
  clockReads 3 w = [t1; t2; t3] ->
  scheduledTime r = Some alarmTime
  /\ last (registered w')
     = Some (AlarmScheduler.alarmRequest (AlarmScheduler.name p)
               (AlarmScheduler.notificationSound (AlarmScheduler.soundFileName p))
               (AlarmScheduler.secondsUntil alarmTime (JS.Int t3))).
Proof.
  unfold clockReads, readings.
  unfold_scheduler. destruct w as [os dd tz ck dr fs wn pm rg ans jr cs ss].
  destruct os; exec; intros Hos Hr Hs Hc; try congruence;
    injection Hr as <-; try discriminate Hs; injection Hc as <- <- <-;
    cbn [scheduledTime]; (split; [reflexivity | ]); now rewrite last_snoc.
Qed.

(** Steps of the file system reach no notification. *)
Lemma diskOnly_quiet w w' :
  diskOnly w w' -> notificationCalls w w' = [] /\ registered w' = registered w.
Proof.
  intros (_ & _ & _ & _ & Hr & _ & es & Hj & Hn). split; [ | exact Hr].
  unfold notificationCalls, newEntries. rewrite Hj, drop_journal.
  clear Hj. induction es as [ | e es IH]; [reflexivity | ].
  apply Forall_cons in Hn as [He Hn]. cbn [List.filter]. rewrite He. now apply IH.
Qed.

Lemma if_congr {A} (c : bool) (a a' b b' : A) :
  a = a' -> b = b' -> (if c then a else b) = (if c then a' else b').
Proof. now intros -> ->. Qed.

(** The flow step by step, once its inputs are not empty. *)
Lemma handleScheduleAlarm_steps order w params path sound r :
  let url := Playback.audioUrl params in
  let w1 := savingWorld w in
  let w3 := after (Playback.saveBoth order url) w1 in
  let w4 := after (let* _ := Playback.setLocalAudioPath path in
                   Playback.setSchedulingStatus Scheduling) w3 in
  let p := alarmParams params (Playback.orUndefined sound) in
  let w5 := after (AlarmScheduler.scheduleAlarm p) w4 in
  JS.truthy url = true ->
  JS.truthy (Playback.wakeUpTime params) = true ->
  run (Playback.saveBoth order url) w1 = Returns (path, sound) ->
  run (AlarmScheduler.scheduleAlarm p) w4 = Returns r ->
  Playback.handleScheduleAlarm order params w
  = (Returns tt,
     if negb (isMounted (session w3)) then w3
     else if Playback.missing path then
       setSession
         {| isMounted := isMounted (session w3); schedulingStatus := Error;
            scheduleResult := scheduleResult (session w3);
            errorMessage := Some "Failed to save audio. Please try again.";
            localAudioPath := localAudioPath (session w3) |} w3
     else if negb (isMounted (session w5)) then w5
     else
       setSession
         {| isMounted := isMounted (session w5);
            schedulingStatus := if success r then Scheduled else Error;
            scheduleResult := Some r;
            errorMessage :=
              (if success r then
                 match resultError r with
                 | Some e => if JS.truthy e then Some e else errorMessage (session w5)
                 | None => errorMessage (session w5)
                 end
               else Some (match resultError r with
                          | Some e => if JS.truthy e then e
                                      else "Failed to schedule alarm."
                          | None => "Failed to schedule alarm."
                          end));
            localAudioPath := localAudioPath (session w5) |} w5).
Proof.
  intros url w1 w3 w4 p w5 Hurl Hwake Hsaved Hr.
  unfold Playback.handleScheduleAlarm. fold url.
  rewrite Hurl, Hwake. cbn [negb].
  unfold Playback.setSchedulingStatus at 1, Playback.setErrorMessage at 1,
    Playback.updateSession. rewrite !bind_modify.
  change (setSession _ (setSession _ w)) with w1.
  rewrite (bind_returns _ _ _ _ Hsaved). fold w3.
  rewrite bind_isMounted. cbn [fst snd].
  destruct (isMounted (session w3)) eqn:Hm3; cbn [negb]; [ | reflexivity].
  destruct (Playback.missing path); [cbn; now rewrite Hm3 | ].
  unfold Playback.setLocalAudioPath at 1, Playback.setSchedulingStatus at 1,
    Playback.updateSession. rewrite !bind_modify.
  change (setSession _ (setSession _ w3)) with w4.
  change {| AlarmScheduler.wakeUpTime := Playback.wakeUpTime params;
            AlarmScheduler.name := Playback.name params;
            AlarmScheduler.soundFileName := Playback.orUndefined sound |} with p.
  rewrite (bind_returns _ _ _ _ Hr). fold w5.
  rewrite bind_isMounted.
  destruct (isMounted (session w5)) eqn:Hm; cbn [negb]; [ | reflexivity].
  unfold Playback.setScheduleResult, Playback.setSchedulingStatus,
    Playback.setErrorMessage, Playback.updateSession. rewrite !bind_modify.
  destruct (success r); rewrite ?bind_modify; [ | cbn; now rewrite Hm].
  destruct (resultError r) as [e | ]; [destruct (JS.truthy e) | ]; cbn; now rewrite Hm.
Qed.

(** What the flow goes through: the results of the two saves and of
    [scheduleAlarm], the worlds between them, and the world the flow
    ends in. *)
Lemma handleScheduleAlarm_cases order w params :
  JS.truthy (Playback.audioUrl params) = true ->
  JS.truthy (Playback.wakeUpTime params) = true ->
  exists path sound r w3 w4 w5,
    run (Playback.saveBoth order (Playback.audioUrl params)) (savingWorld w)
    = Returns (path, sound)
    /\ w3 = after (Playback.saveBoth order (Playback.audioUrl params)) (savingWorld w)
    /\ diskOnly (savingWorld w) w3
    /\ w4 = setSession
               {| isMounted := isMounted (session w3); schedulingStatus := Scheduling;
                  scheduleResult := scheduleResult (session w3);
                  errorMessage := errorMessage (session w3); localAudioPath := path |} w3
    /\ run (AlarmScheduler.scheduleAlarm (alarmParams params (Playback.orUndefined sound))) w4
       = Returns r
    /\ w5 = after (AlarmScheduler.scheduleAlarm
                     (alarmParams params (Playback.orUndefined sound))) w4
    /\ (sound = None
        \/ sound = Some NotificationSound.NOTIFICATION_SOUND_FILENAME
           /\ present (fixedPath notificationSound w) w3 = true)
    /\ Playback.handleScheduleAlarm order params w
       = (Returns tt,
          if negb (isMounted (session w3)) then w3
          else if Playback.missing path then
            setSession
              {| isMounted := isMounted (session w3); schedulingStatus := Error;
                 scheduleResult := scheduleResult (session w3);
                 errorMessage := Some "Failed to save audio. Please try again.";
                 localAudioPath := localAudioPath (session w3) |} w3
          else if negb (isMounted (session w5)) then w5
          else
            setSession
              {| isMounted := isMounted (session w5);
                 schedulingStatus := if success r then Scheduled else Error;
                 scheduleResult := Some r;
                 errorMessage :=
                   (if success r then
                      match resultError r with
                      | Some e => if JS.truthy e then Some e else errorMessage (session w5)
                      | None => errorMessage (session w5)
                      end
                    else Some (match resultError r with
                               | Some e => if JS.truthy e then e
                                           else "Failed to schedule alarm."
                               | None => "Failed to schedule alarm."
                               end));
                 localAudioPath := localAudioPath (session w5) |} w5).
Proof.
  intros Hurl Hwake.
  set (url := Playback.audioUrl params) in *.
  set (w1 := savingWorld w).
  destruct (saveBoth_settles order url w1) as (path & sound & Hsaved & H3 & Hs).
  set (w3 := after (Playback.saveBoth order url) w1) in *.
  set (w4 := after (let* _ := Playback.setLocalAudioPath path in
                    Playback.setSchedulingStatus Scheduling) w3).
  set (p := alarmParams params (Playback.orUndefined sound)).
  destruct (scheduleAlarm_returns p w4) as [r Hr].
  set (w5 := after (AlarmScheduler.scheduleAlarm p) w4).
  pose proof (handleScheduleAlarm_steps order w params path sound r Hurl Hwake Hsaved Hr) as E.
  exists path, sound, r, w3, w4, w5.
  split; [exact Hsaved | ]. split; [reflexivity | ]. split; [exact H3 | ].
  split; [reflexivity | ]. split; [exact Hr | ]. split; [reflexivity | ].
  split; [exact Hs | exact E].
Qed.

(** ** The default sound when the notification sound is not saved (C10) *)



(** ** The outcomes of [handleScheduleAlarm] *)

(** X14. [handleScheduleAlarm] raises in no world and in no order of the
    two saves, though it has no handler of its own. When the screen is
    still mounted at the end, the flow has left [Saving] and
    [Scheduling]: it is in [Scheduled], with a result that reports
    success and the path of the saved audio, or in [Error] with a message
    that is not empty. *)
Theorem handleScheduleAlarm_settles :
  forall (order : list Turn) (w : World) (params : Playback.Params),
    let final := after (Playback.handleScheduleAlarm order params) w in
    run (Playback.handleScheduleAlarm order params) w = Returns tt
    /\ (isMounted (session final) = true ->
        (schedulingStatus (session final) = Scheduled
         /\ exists r path,
              scheduleResult (session final) = Some r /\ success r = true
              /\ localAudioPath (session final) = Some path /\ path <> EmptyString)
        \/ (schedulingStatus (session final) = Error
            /\ exists message,
                 errorMessage (session final) = Some message /\ message <> EmptyString)).
Proof.
  intros order w params final. subst final.
  destruct (JS.truthy (Playback.audioUrl params)) eqn:Hurl.
  2: { unfold run, after, Playback.handleScheduleAlarm. rewrite Hurl. cbn.
       split; [reflexivity | ]. intros _. right. split; [reflexivity | ].
       eexists. split; [reflexivity | discriminate]. }
  destruct (JS.truthy (Playback.wakeUpTime params)) eqn:Hwake.
  2: { unfold run, after, Playback.handleScheduleAlarm. rewrite Hurl, Hwake. cbn.
       split; [reflexivity | ]. intros _. right. split; [reflexivity | ].
       eexists. split; [reflexivity | discriminate]. }
  destruct (handleScheduleAlarm_cases order w params Hurl Hwake)
    as (path & sound & r & w3 & w4 & w5 & _ & _ & _ & Hs4 & _ & Hw5 & _ & E).
  pose proof (scheduleAlarm_notificationsOnly
                (alarmParams params (Playback.orUndefined sound)) w4) as F5.
  rewrite <- Hw5 in F5. destruct F5 as ((_ & _ & _ & Hlp & _) & _).
  rewrite Hs4 in Hlp. cbn [localAudioPath session setSession] in Hlp. clear Hw5 Hs4.
  unfold run, after. rewrite E. cbn [fst snd]. split; [reflexivity | ].
  destruct (isMounted (session w3)) eqn:Hm3; cbn [negb]; [ | congruence].
  destruct (Playback.missing path) eqn:Hmiss.
  { intros _. right. split; [reflexivity | ]. eexists. split; [reflexivity | discriminate]. }
  destruct (isMounted (session w5)) eqn:Hm5; cbn [negb]; [ | congruence].
  intros _. cbn [session setSession schedulingStatus scheduleResult localAudioPath errorMessage].
  destruct (success r) eqn:Hok.
  - left. split; [reflexivity | ].
    destruct path as [p | ]; [ | discriminate Hmiss]. cbn in Hmiss.
    exists r, p. repeat split; try assumption.
    apply truthy_nonempty. now destruct (JS.truthy p).
  - right. split; [reflexivity | ]. eexists. split; [reflexivity | ].
    destruct (resultError r) as [e | ]; [destruct (JS.truthy e) eqn:He | ];
      [now apply truthy_nonempty | discriminate | discriminate].
Qed.

(** X15. Without an audio URL, without a wake-up time, or when, of the
    two saves side by side, that of the playback audio returns null,
    [handleScheduleAlarm] makes no call to the notification centre, not
    even for the permission, and leaves the pending notifications and
    the last result as they were; with the screen still mounted it ends
    in [Error] with the message of the case. *)
Theorem no_audio_no_alarm :
  forall (order : list Turn) (w : World) (params : Playback.Params),
    let url := Playback.audioUrl params in
    let final := after (Playback.handleScheduleAlarm order params) w in
    JS.truthy url = false \/ JS.truthy (Playback.wakeUpTime params) = false
    \/ (exists sound,
          run (Playback.saveBoth order url) (savingWorld w) = Returns (None, sound)) ->
    notificationCalls w final = []
    /\ registered final = registered w
    /\ scheduleResult (session final) = scheduleResult (session w)
    /\ (isMounted (session final) = true ->
        schedulingStatus (session final) = Error
        /\ errorMessage (session final)
           = Some (if negb (JS.truthy url) then "No audio available to schedule."
                   else if negb (JS.truthy (Playback.wakeUpTime params))
                        then "No wake-up time specified."
                   else "Failed to save audio. Please try again.")).
Proof.
  intros order w params url final H. subst final url.
  destruct (JS.truthy (Playback.audioUrl params)) eqn:Hurl.
  2: { unfold after, Playback.handleScheduleAlarm, notificationCalls, newEntries.
       rewrite Hurl. cbn. rewrite drop_journal_nil. repeat split. }
  destruct (JS.truthy (Playback.wakeUpTime params)) eqn:Hwake.
  2: { unfold after, Playback.handleScheduleAlarm, notificationCalls, newEntries.
       rewrite Hurl, Hwake. cbn. rewrite drop_journal_nil. repeat split. }
  destruct H as [H | [H | [sound' H] ] ]; try discriminate H.
  destruct (handleScheduleAlarm_cases order w params Hurl Hwake)
    as (path & sound & r & w3 & w4 & w5 & Hsaved & _ & H3 & _ & _ & _ & _ & E).
  rewrite H in Hsaved. injection Hsaved as <- _.
  destruct (diskOnly_quiet _ _ H3) as [Hq Hr].
  destruct H3 as ((_ & Hsr & _) & _).
  unfold notificationCalls, newEntries in *. cbn [journal savingWorld] in Hq.
  change (journal (savingWorld w)) with (journal w) in Hq.
  change (registered (savingWorld w)) with (registered w) in Hr.
  change (scheduleResult (session (savingWorld w))) with (scheduleResult (session w)) in Hsr.
  unfold after. rewrite E. cbn [snd Playback.missing].
  destruct (isMounted (session w3)) eqn:Hm3; cbn [negb].
  - cbn. repeat split; assumption.
  - repeat split; try assumption; congruence.
Qed.

(** On [failingDisk] the first call of the save of the playback audio
    is rejected, on [audioRefused] its third: no alarm is registered. *)
Lemma no_audio_no_alarm_witness :
  let final := after (Playback.handleScheduleAlarm [] annAtSeven) failingDisk in
  let final' := after (Playback.handleScheduleAlarm [] annAtSeven) audioRefused in
  registered final = []
  /\ schedulingStatus (session final) = Error
  /\ errorMessage (session final) = Some "Failed to save audio. Please try again."
  /\ registered final' = []
  /\ schedulingStatus (session final') = Error
  /\ errorMessage (session final') = Some "Failed to save audio. Please try again.".
Proof.
  intros final final'.
  assert (H : exists sound,
             run (Playback.saveBoth [] (Playback.audioUrl annAtSeven))
               (savingWorld failingDisk) = Returns (None, sound))
    by (eexists; vm_compute; reflexivity).
  assert (H' : exists sound,
             run (Playback.saveBoth [] (Playback.audioUrl annAtSeven))
               (savingWorld audioRefused) = Returns (None, sound))
    by (eexists; vm_compute; reflexivity).
  destruct (no_audio_no_alarm [] failingDisk annAtSeven (or_intror (or_intror H)))
    as (_ & Hr & _ & Hm).
  destruct (no_audio_no_alarm [] audioRefused annAtSeven (or_intror (or_intror H')))
    as (_ & Hr' & _ & Hm').
  split; [exact Hr | ].
  split; [apply Hm; vm_compute; reflexivity | ].
  split; [apply Hm; vm_compute; reflexivity | ].
  split; [exact Hr' | ].
  split; apply Hm'; vm_compute; reflexivity.
Defined.

(** X16. Whenever the flow ends in [Scheduled] on a native platform with
    the screen mounted, in whatever order the host settled the calls of
    the two saves, the last notification registered is the alarm of the
    request: its name in the body, the delay to the next occurrence of
    its wake-up time from the three readings [t1], [t2], [t3] of the
    clock, which is also the time that the result shows, and for sound
    the default of the platform or the cached file
    [morning-alarm-notification.wav]; in the latter case that file is
    at the path of the notification sound. *)
Theorem scheduled_alarm_sound :
  forall (order : list Turn) (w : World) (params : Playback.Params) (t1 t2 t3 : Z),
    let final := after (Playback.handleScheduleAlarm order params) w in
    let alarmTime :=
      AlarmScheduler.nextAlarmTime (tza w) (Playback.wakeUpTime params)
        (TimeClip (Some t1)) (TimeClip (Some t2)) in
    PlatformOS w <> web ->
    isMounted (session final) = true ->
    schedulingStatus (session final) = Scheduled ->
    clockReads 3 w = [t1; t2; t3] ->
    exists sound,
      last (registered final)
      = Some {| identifier := "morning-alarm";
                title := "Good Morning!";
                body := Playback.name params
                        +:+ ", your personalized morning audio is ready.";
                sound := sound;
                priority := "max";
                interruptionLevel := "timeSensitive";
                dataType := "morning-alarm";
                triggerType := "timeInterval";
                seconds := AlarmScheduler.secondsUntil alarmTime (JS.Int t3) |}
      /\ (sound = DefaultSound
          \/ sound = SoundFile "morning-alarm-notification.wav"
             /\ present (fixedPath notificationSound w) final = true)
      /\ scheduledTime <$> scheduleResult (session final) = Some (Some alarmTime).
Proof.
  intros order w params t1 t2 t3 final alarmTime Hos Hm Hst Hc. subst final.
  destruct (JS.truthy (Playback.audioUrl params)) eqn:Hurl.
  2: { unfold after, Playback.handleScheduleAlarm in Hst. rewrite Hurl in Hst.
       discriminate Hst. }
  destruct (JS.truthy (Playback.wakeUpTime params)) eqn:Hwake.
  2: { unfold after, Playback.handleScheduleAlarm in Hst. rewrite Hurl, Hwake in Hst.
       discriminate Hst. }
  destruct (handleScheduleAlarm_cases order w params Hurl Hwake)
    as (path & sound & r & w3 & w4 & w5 & _ & Hw3 & H3 & Hw4 & Hr & Hw5 & Hs & E).
  pose proof (scheduleAlarm_notificationsOnly
                (alarmParams params (Playback.orUndefined sound)) w4) as F5.
  rewrite <- Hw5 in F5. destruct F5 as ((Hst5 & _) & _ & _ & _ & Hf5).
  destruct (saveBoth_clock order (Playback.audioUrl params) (savingWorld w))
    as (Hck & Hdr & Htz).
  rewrite <- Hw3 in Hck, Hdr, Htz.
  assert (Hf4 : files w4 = files w3) by now rewrite Hw4.
  assert (Hos4 : PlatformOS w4 <> web).
  { destruct H3 as (_ & Ho & _). rewrite Hw4. cbn [PlatformOS setSession]. now rewrite Ho. }
  assert (Hc4 : clockReads 3 w4 = [t1; t2; t3]).
  { rewrite <- Hc. unfold clockReads. rewrite Hw4. cbn. now rewrite Hck, Hdr. }
  assert (Htz4 : tza w4 = tza w) by (rewrite Hw4; cbn; exact Htz).
  unfold after in *. rewrite E in *. cbn [snd] in *. clear E.
  destruct (isMounted (session w3)) eqn:Hm3; cbn [negb] in *; [ | congruence].
  destruct (Playback.missing path); [discriminate Hst | ].
  destruct (isMounted (session w5)) eqn:Hm5; cbn [negb] in *; [ | congruence].
  cbn [session setSession schedulingStatus scheduleResult registered] in *.
  destruct (success r) eqn:Hok; [ | discriminate Hst].
  destruct (scheduleAlarm_last _ w4 r t1 t2 t3 Hos4 Hr Hok Hc4) as [E1 E2].
  cbv zeta in E2. unfold after in E2. rewrite <- Hw5 in E2.
  rewrite Htz4 in E1, E2. cbn [AlarmScheduler.wakeUpTime AlarmScheduler.name alarmParams] in E1, E2.
  eexists. split; [exact E2 | ].
  split; [ | cbn; now rewrite E1].
  cbn [AlarmScheduler.soundFileName alarmParams].
  destruct Hs as [-> | [-> Hp] ]; [now left | right].
  split; [reflexivity | ].
  unfold present in *. cbn [files setSession]. now rewrite Hf5, Hf4.
Qed.

Lemma scheduled_alarm_sound_witness :
  let final := after (Playback.handleScheduleAlarm [] annAtSeven) morning in
  schedulingStatus (session final) = Scheduled
  /\ exists sound,
       last (registered final)
       = Some {| identifier := "morning-alarm";
                 title := "Good Morning!";
                 body := "Ann, your personalized morning audio is ready.";
                 sound := sound;
                 priority := "max";
                 interruptionLevel := "timeSensitive";
                 dataType := "morning-alarm";
                 triggerType := "timeInterval";
                 seconds := JS.Int 75600 |}
       /\ (sound = DefaultSound
           \/ sound = SoundFile "morning-alarm-notification.wav"
              /\ present (fixedPath notificationSound morning) final = true)
       /\ scheduledTime <$> scheduleResult (session final)
          = Some (Some (DateAt (civil 2024 1 2 7 0 0 0))).
Proof.
  intros final.
  assert (Hs : schedulingStatus (session final) = Scheduled) by (vm_compute; reflexivity).
  split; [exact Hs | ].
  apply (scheduled_alarm_sound [] morning annAtSeven tenOClock tenOClock tenOClock);
    [discriminate | vm_compute; reflexivity | exact Hs | reflexivity].
Defined.

(** The handlers of the screen, unfolded. *)
Ltac unfold_playback :=
  unfold Playback.handleScheduleAlarm, Playback.handleCancelAlarm,
    Playback.saveBoth, Playback.removeBoth, promiseAll,
    Concurrent.saveAudioLocally, Concurrent.saveNotificationSound,
    Concurrent.deleteLocalAudio, Concurrent.deleteNotificationSound,
    bindT, tryCatchT, sync, await, retT, throwT,
    Playback.setSchedulingStatus, Playback.setScheduleResult, Playback.setErrorMessage,
    Playback.setLocalAudioPath, Playback.updateSession, Playback.isMountedCurrent in *.

(** X17. In a browser the flow of [handleScheduleAlarm] registers
    nothing and writes no file, whatever the host answers. When it ends
    in [Scheduled], it shows the caveat about background support, with
    the audio URL itself as the path of the audio. Without the
    Notification API it makes no call at all and ends in [Error] with the
    message about the permission. *)
Theorem browser_flow_registers_nothing :
  forall (order : list Turn) (w : World) (params : Playback.Params),
    let final := after (Playback.handleScheduleAlarm order params) w in
    PlatformOS w = web ->
    registered final = registered w
    /\ files final = files w
    /\ schedulerCalls w final = []
    /\ (isMounted (session final) = true ->
        schedulingStatus (session final) = Scheduled ->
        errorMessage (session final)
        = Some "Web notifications have limited background support. Keep the browser tab open for best results."
        /\ localAudioPath (session final) = Some (Playback.audioUrl params))
    /\ (windowNotification w = None ->
        JS.truthy (Playback.audioUrl params) = true ->
        JS.truthy (Playback.wakeUpTime params) = true ->
        isMounted (session w) = true ->
        schedulingStatus (session final) = Error
        /\ errorMessage (session final)
           = Some "Notification permissions are required to schedule your morning alarm."
        /\ journal final = journal w).
Proof.
  intros order w params final Hos. subst final.
  unfold schedulerCalls, newEntries. unfold_playback. unfold_cache. unfold_scheduler.
  destruct w as [os dd tz ck dr fs wn pm rg ans jr cs [mt st sr em lp]].
  cbn [PlatformOS] in Hos. subst os.
  destruct (JS.truthy (Playback.audioUrl params)) eqn:Hurl;
    destruct (JS.truthy (Playback.wakeUpTime params)) eqn:Hwake;
    destruct mt; exec; journal; try rewrite Hurl; exec; journal;
    repeat match goal with
      | |- context [detaches ?a] => destruct (detaches a) eqn:?; exec
      end;
    journal; repeat split; intros; try discriminate; try congruence.
Qed.

Lemma browser_flow_registers_nothing_witness :
  let final := after (Playback.handleScheduleAlarm [] annAtSeven) browser in
  registered final = []
  /\ schedulingStatus (session final) = Scheduled
  /\ errorMessage (session final)
     = Some "Web notifications have limited background support. Keep the browser tab open for best results.".
Proof.
  intros final.
  destruct (browser_flow_registers_nothing [] browser annAtSeven eq_refl)
    as (Hr & _ & _ & Hc & _).
  assert (Hs : schedulingStatus (session final) = Scheduled) by (vm_compute; reflexivity).
  split; [exact Hr | ]. split; [exact Hs | ].
  apply Hc; [vm_compute; reflexivity | exact Hs].
Defined.

(** ** Cancelling from the playback screen *)

Lemma tryCatch_returns {A} (body : M A) handler w a :
  run body w = Returns a -> tryCatch body handler w = (Returns a, after body w).
Proof. unfold run, after, tryCatch. destruct (body w) as [o w']. cbn. now intros ->. Qed.

Lemma cancelExistingAlarm_clears w :
  PlatformOS w <> web -> noRejection w ->
  alarms (after AlarmScheduler.cancelExistingAlarm w) = [].
Proof.
  intros Hos Hn. unfold alarms. unfold_scheduler.
  destruct w as [os dd tz ck dr fs wn pm rg ans jr cs ss].
  no_rejection Hn. cbn [PlatformOS] in Hos.
  destruct os; try congruence; exec; try congruence; apply filter_notAlarm_alarms.
Qed.

(** The world in which [handleCancelAlarm] starts its calls, and those
    after the cancellation and after the two removals. *)
Lemma handleCancelAlarm_steps order w :
  let w0 := after (let* _ := Playback.setSchedulingStatus Cancelling in
                   Playback.setErrorMessage None) w in
  let wa := after AlarmScheduler.cancelExistingAlarm w0 in
  let wc := after (Playback.removeBoth order) wa in
  Playback.handleCancelAlarm order w
  = (Returns tt,
     if negb (isMounted (session wc)) then wc
     else setSession
            {| isMounted := isMounted (session wc); schedulingStatus := Idle;
               scheduleResult := None; errorMessage := errorMessage (session wc);
               localAudioPath := None |} wc).
Proof.
  intros w0 wa wc. unfold Playback.handleCancelAlarm.
  unfold Playback.setSchedulingStatus at 1, Playback.setErrorMessage at 1,
    Playback.updateSession. rewrite !bind_modify.
  change (setSession _ (setSession _ w)) with w0.
  erewrite tryCatch_returns.
  - f_equal. unfold after at 1.
    rewrite (bind_returns _ _ _ _ (cancelExistingAlarm_returns w0)). fold wa.
    rewrite (bind_returns _ _ _ _ (proj1 (removeBoth_settles order wa))). fold wc.
    rewrite bind_isMounted. clearbody wc.
    destruct (isMounted (session wc)) eqn:Hm; [ | reflexivity].
    cbn -[setSession]. unfold setSession. cbn. now rewrite Hm.
  - unfold run at 1.
    rewrite (bind_returns _ _ _ _ (cancelExistingAlarm_returns w0)). fold wa.
    rewrite (bind_returns _ _ _ _ (proj1 (removeBoth_settles order wa))). fold wc.
    rewrite bind_isMounted. clearbody wc.
    destruct (isMounted (session wc)); reflexivity.
Qed.

(** X18. [handleCancelAlarm] raises in no world and its handler is never
    entered: whatever the host answers, also when it rejects the
    cancellation or a deletion, and in whatever order it settles the
    calls of the two removals, the flow ends without an error message,
    in [Idle] with the result and the path of the audio cleared when the
    screen is still mounted, and in [Cancelling] otherwise. *)
Theorem handleCancelAlarm_reports_no_failure :
  forall (order : list Turn) (w : World),
    let final := after (Playback.handleCancelAlarm order) w in
    run (Playback.handleCancelAlarm order) w = Returns tt
    /\ errorMessage (session final) = None
    /\ schedulingStatus (session final)
       = (if isMounted (session final) then Idle else Cancelling)
    /\ (isMounted (session final) = true ->
        scheduleResult (session final) = None /\ localAudioPath (session final) = None).
Proof.
  intros order w final. subst final.
  pose proof (handleCancelAlarm_steps order w) as E. cbv zeta in E.
  set (w0 := after (let* _ := Playback.setSchedulingStatus Cancelling in
                    Playback.setErrorMessage None) w) in E.
  set (wa := after AlarmScheduler.cancelExistingAlarm w0) in E.
  set (wc := after (Playback.removeBoth order) wa) in E.
  destruct (cancelExistingAlarm_notificationsOnly w0) as ((Hst & _ & Hem & _) & _).
  destruct (removeBoth_settles order wa) as (_ & (Hst' & _ & Hem' & _) & _).
  fold wa in Hst, Hem. fold wc in Hst', Hem'.
  assert (Hs : schedulingStatus (session wc) = Cancelling) by (rewrite Hst', Hst; reflexivity).
  assert (He : errorMessage (session wc) = None) by (rewrite Hem', Hem; reflexivity).
  clearbody wc. unfold run, after. rewrite E. cbn [fst snd].
  split; [reflexivity | ].
  destruct (isMounted (session wc)) eqn:Hm; cbn [negb].
  - cbn. repeat split. exact He.
  - rewrite ?Hm. split; [exact He | ]. split; [exact Hs | ]. intros Hc. congruence.
Qed.

(** The host rejects the cancellation: the alarm stays pending and the
    screen shows [Idle] without a message. *)
Lemma handleCancelAlarm_reports_no_failure_witness :
  let final := after (Playback.handleCancelAlarm []) stubbornPhone in
  length (alarms stubbornPhone) = 1%nat
  /\ length (alarms final) = 1%nat
  /\ schedulingStatus (session final) = Idle
  /\ errorMessage (session final) = None.
Proof.
  intros final.
  destruct (handleCancelAlarm_reports_no_failure [] stubbornPhone) as (_ & He & Hs & _).
  split; [vm_compute; reflexivity | ]. split; [vm_compute; reflexivity | ].
  split; [ | exact He].
  fold final in Hs. rewrite Hs.
  assert (Hm : isMounted (session final) = true) by (vm_compute; reflexivity).
  now rewrite Hm.
Defined.

(** X19. On a native platform with a host that rejects no call,
    [handleCancelAlarm] leaves no alarm pending and nothing at the fixed
    path of either cache, in whatever order the host settles the calls
    of the two removals, and the other pending notifications are as they
    were. *)
Theorem handleCancelAlarm_cleans_up :
  forall (order : list Turn) (w : World),
    let final := after (Playback.handleCancelAlarm order) w in
    PlatformOS w <> web -> noRejection w ->
    alarms final = []
    /\ (forall k, present (fixedPath k w) final = false)
    /\ others final = others w.
Proof.
  intros order w final Hos Hn. subst final.
  pose proof (handleCancelAlarm_steps order w) as E. cbv zeta in E.
  set (w0 := after (let* _ := Playback.setSchedulingStatus Cancelling in
                    Playback.setErrorMessage None) w) in E.
  set (wa := after AlarmScheduler.cancelExistingAlarm w0) in E.
  set (wc := after (Playback.removeBoth order) wa) in E.
  assert (Hos0 : PlatformOS w0 <> web) by exact Hos.
  assert (Hn0 : noRejection w0) by exact Hn.
  pose proof (cancelExistingAlarm_clears w0 Hos0 Hn0) as Ha. fold wa in Ha.
  pose proof (cancelExistingAlarm_others w0) as Hoth. fold wa in Hoth.
  destruct (cancelExistingAlarm_notificationsOnly w0) as (_ & Hoa & Hda & Hna & Hfa).
  fold wa in Hoa, Hda, Hna, Hfa.
  destruct (removeBoth_settles order wa) as (_ & _ & _ & _ & _ & Hrc & _).
  fold wc in Hrc.
  assert (Hosa : PlatformOS wa <> web) by congruence.
  assert (Hk : forall k, fixedPath k wa = fixedPath k w)
    by (intros k; unfold fixedPath; now rewrite Hoa, Hda).
  pose proof (fun k => removeBoth_cleans order wa k Hosa (Hna Hn0)) as Hp. fold wc in Hp.
  assert (Hfinal : forall final,
             final = wc \/ (exists s, final = setSession s wc) ->
             alarms final = [] /\ (forall k, present (fixedPath k w) final = false)
             /\ others final = others w).
  { intros final Hf.
    assert (Hr : registered final = registered wc)
      by (destruct Hf as [-> | [s ->] ]; reflexivity).
    assert (Hfs : files final = files wc)
      by (destruct Hf as [-> | [s ->] ]; reflexivity).
    split; [unfold alarms in *; now rewrite Hr, Hrc | ].
    split.
    - intros k. specialize (Hp k). unfold present in *. now rewrite Hfs, <- Hk.
    - unfold others in *. rewrite Hr, Hrc. exact Hoth. }
  unfold after. rewrite E. cbn [snd]. apply Hfinal.
  destruct (isMounted (session wc)); cbn [negb]; eauto.
Qed.

Lemma handleCancelAlarm_cleans_up_witness :
  let final := after (Playback.handleCancelAlarm []) readyPhone in
  length (alarms readyPhone) = 1%nat
  /\ present (fixedPath playbackAudio readyPhone) readyPhone = true
  /\ alarms final = []
  /\ present (fixedPath playbackAudio readyPhone) final = false
  /\ present (fixedPath notificationSound readyPhone) final = false.
Proof.
  intros final.
  assert (Hos : PlatformOS readyPhone <> web) by (vm_compute; discriminate).
  assert (Hn : noRejection readyPhone) by (vm_compute; constructor).
  destruct (handleCancelAlarm_cleans_up [] readyPhone Hos Hn) as (Ha & Hp & _).
  split; [vm_compute; reflexivity | ]. split; [vm_compute; reflexivity | ].
  split; [exact Ha | ]. split; apply Hp.
Defined.
